(** * smartdns [util.c]: the ipset netlink message builder, its transport
      and the string and descriptor helpers

    A shallow embedding of [_ipset_add_attr], [_ipset_socket_init],
    [_ipset_support_timeout], [_ipset_operate], [ipset_add] and [ipset_del]
    of [src/util.c], together with the properties of the wire format they
    produce, and of [reverse_string], [parse_ip], [SSL_base64_decode],
    [set_fd_nonblock] and [getaddr_by_host] of the same file.

    The scratch buffer is a list of bytes; every access goes through [store]
    and [load], and an access outside the buffer (undefined behaviour in C)
    is [None].  Struct fields live in the buffer at their C offsets and in
    host byte order, so the description is parameterised by the [platform]:
    its byte order and the width of [unsigned long].  What the file calls
    but does not define ([fcntl], [getaddrinfo], [EVP_DecodeBlock]) is a
    parameter of the function that calls it. *)

From Stdlib Require Import ZArith List Lia Bool.
From Stdlib.Strings Require Import Byte.
Import ListNotations.
Open Scope Z_scope.

(* ================================================================= *)
(** ** Platform *)

Inductive byte_order := LittleEndian | BigEndian.

(** [ILP32]: [unsigned long] is 4 bytes; [LP64]: it is 8 bytes. *)
Inductive data_model := ILP32 | LP64.

Record platform := Platform { endian : byte_order; model : data_model }.

Definition sizeof_ulong (p : platform) : Z :=
  match model p with ILP32 => 4 | LP64 => 8 end.

(* ================================================================= *)
(** ** Bytes and integers in memory *)

Definition byte_of_Z (z : Z) : byte :=
  match Byte.of_N (Z.to_N (z mod 256)) with
  | Some b => b
  | None => x00
  end.

Definition Z_of_byte (b : byte) : Z := Z.of_N (Byte.to_N b).

(** The [n] low bytes of [v], least significant first. *)
Fixpoint le_bytes (n : nat) (v : Z) : list byte :=
  match n with
  | O => []
  | S k => byte_of_Z v :: le_bytes k (v / 256)
  end.

Definition be_bytes (n : nat) (v : Z) : list byte := rev (le_bytes n v).

Fixpoint le_value (l : list byte) : Z :=
  match l with
  | [] => 0
  | b :: t => Z_of_byte b + 256 * le_value t
  end.

Definition be_value (l : list byte) : Z := le_value (rev l).

(** An integer object of [n] bytes as the host lays it out. *)
Definition host_bytes (p : platform) (n : nat) (v : Z) : list byte :=
  match endian p with
  | LittleEndian => le_bytes n v
  | BigEndian => be_bytes n v
  end.

Definition host_value (p : platform) (l : list byte) : Z :=
  match endian p with
  | LittleEndian => le_value l
  | BigEndian => be_value l
  end.

(** [htonl]/[htons] of libc: the integer whose object representation on the
    host is the big-endian encoding of the argument. *)
Definition htonl (p : platform) (x : Z) : Z := host_value p (be_bytes 4 x).
Definition htons (p : platform) (x : Z) : Z := host_value p (be_bytes 2 x).

Definition zeros (n : nat) : list byte := repeat x00 n.

(* ================================================================= *)
(** ** The scratch buffer *)

Definition buffer := list byte.

Definition len (l : list byte) : Z := Z.of_nat (length l).

(** A write of [data] at byte offset [off]; [None] outside the buffer. *)
Definition store (off : Z) (data : list byte) (buf : buffer) : option buffer :=
  if (0 <=? off) && (off + len data <=? len buf)
  then Some (firstn (Z.to_nat off) buf ++ data
             ++ skipn (Z.to_nat off + length data) buf)
  else None.

Definition load (off : Z) (n : nat) (buf : buffer) : list byte :=
  firstn n (skipn (Z.to_nat off) buf).

(** [memcpy(dst + off, src, n)]: reading past the source object is undefined
    as well. *)
Definition memcpy (off : Z) (src : list byte) (n : Z) (buf : buffer)
  : option buffer :=
  if (0 <=? n) && (n <=? len src)
  then store off (firstn (Z.to_nat n) src) buf
  else None.

Notation "x <- e ;; k" :=
  (match e with Some x => k | None => None end)
  (at level 61, e at next level, right associativity).

Notation "' pat <- e ;; k" :=
  (match e with Some pat => k | None => None end)
  (at level 61, pat pattern, e at next level, right associativity).

(* ================================================================= *)
(** ** C strings *)

(** A [const char *] argument is given by the bytes found at the pointer; the
    terminating NUL follows them, so [strlen] stops at the first NUL byte or
    at the end of the list. *)
Fixpoint strlen (s : list byte) : Z :=
  match s with
  | [] => 0
  | c :: t => if Byte.eqb c x00 then 0 else 1 + strlen t
  end.

(** The memory a string pointer designates, terminator included. *)
Definition c_mem (s : list byte) : list byte := s ++ [x00].

(** The string a pointer denotes: the bytes before the first NUL. *)
Definition c_str (s : list byte) : list byte := firstn (Z.to_nat (strlen s)) s.

(* ================================================================= *)
(** ** Constants of [util.c] and of the system headers *)

Definition NFNL_SUBSYS_IPSET := 6.
Definition IPSET_ATTR_DATA := 7.
Definition IPSET_ATTR_IP := 1.
Definition IPSET_ATTR_IPADDR_IPV4 := 1.
Definition IPSET_ATTR_IPADDR_IPV6 := 2.
Definition IPSET_ATTR_PROTOCOL := 1.
Definition IPSET_ATTR_SETNAME := 2.
Definition IPSET_ATTR_TIMEOUT := 6.
Definition IPSET_ADD := 9.
Definition IPSET_DEL := 10.
Definition IPSET_MAXNAMELEN := 32.
Definition IPSET_PROTOCOL := 6.
Definition IPV6_ADDR_LEN := 16.
Definition IPV4_ADDR_LEN := 4.
Definition NFNETLINK_V0 := 0.
Definition NLA_F_NESTED := Z.shiftl 1 15.
Definition NLA_F_NET_BYTEORDER := Z.shiftl 1 14.
Definition BUFF_SZ := 256.

(** From [<sys/socket.h>], [<linux/netlink.h>] and [<errno.h>] on Linux. *)
Definition AF_INET := 2.
Definition AF_INET6 := 10.
Definition NLM_F_REQUEST := 1.
Definition NLM_F_REPLACE := 256.
Definition EINTR := 4.
Definition EAGAIN := 11.
Definition EWOULDBLOCK := 11.
Definition EINVAL := 22.
Definition ENAMETOOLONG := 36.

(** [struct nlmsghdr { __u32 nlmsg_len; __u16 nlmsg_type; __u16 nlmsg_flags;
    __u32 nlmsg_seq; __u32 nlmsg_pid; }]. *)
Definition sizeof_nlmsghdr := 16.
Definition nlmsg_len_off := 0.
Definition nlmsg_type_off := 4.
Definition nlmsg_flags_off := 6.

(** [struct ipset_netlink_msg { unsigned char family; unsigned char version;
    __be16 res_id; }]. *)
Definition sizeof_ipset_netlink_msg := 4.
Definition family_off := 0.
Definition version_off := 1.
Definition res_id_off := 2.

(** [struct ipset_netlink_attr { unsigned short len; unsigned short type; }]. *)
Definition sizeof_ipset_netlink_attr := 4.
Definition attr_len_off := 0.
Definition attr_type_off := 2.

(** [#define NETLINK_ALIGN(len) (((len) + 3) & ~(3))], on the integers: the
    wrap-around of the C type the macro is computed in is written at the
    call sites ([u32] for a [__u32], [u16] for a [uint16_t], the width of
    the field for a value that is stored). *)
Definition NETLINK_ALIGN (l : Z) : Z := Z.land (l + 3) (Z.lnot 3).

Definition u16 (v : Z) : Z := v mod 65536.
Definition u32 (v : Z) : Z := v mod 4294967296.

(* ================================================================= *)
(** ** [struct nlmsghdr] accessors *)

Definition get_nlmsg_len (p : platform) (buf : buffer) : Z :=
  host_value p (load nlmsg_len_off 4 buf).

Definition set_nlmsg_len (p : platform) (v : Z) (buf : buffer) : option buffer :=
  store nlmsg_len_off (host_bytes p 4 v) buf.

(* ================================================================= *)
(** ** [_ipset_add_attr] *)

(** [util.c], lines 226-234.  [attr] is the offset of the new header from
    the start of the buffer ([nlmsg_len] is a 32-bit unsigned field);
    [payload_len] is a [uint16_t]; the four assignments are made in the
    order of the source. *)
Definition _ipset_add_attr (p : platform) (buf : buffer)
    (type : Z) (n : Z) (data : list byte) : option buffer :=
  let attr := u32 (NETLINK_ALIGN (get_nlmsg_len p buf)) in
  let payload_len := u16 (NETLINK_ALIGN sizeof_ipset_netlink_attr + n) in
  buf <- store (attr + attr_type_off) (host_bytes p 2 type) buf ;;
  buf <- store (attr + attr_len_off) (host_bytes p 2 payload_len) buf ;;
  buf <- memcpy (attr + NETLINK_ALIGN sizeof_ipset_netlink_attr) data n buf ;;
  set_nlmsg_len p (get_nlmsg_len p buf + NETLINK_ALIGN payload_len) buf.

(* ================================================================= *)
(** ** [_ipset_support_timeout] *)

(** [util.c], lines 251-258.  [conf] is the global
    [dns_conf_ipset_timeout_enable] of [dns_conf.h]; the name is not read. *)
Definition _ipset_support_timeout (conf : Z) (ipsetname : list byte) : Z :=
  if negb (conf =? 0) then 0 else -1.

(* ================================================================= *)
(** ** The message of [_ipset_operate] (from [memset] to the last
       [nested[0]->len] assignment) *)

(** Lines 311-313 and 314-316: [nested[i] = buffer +
    NETLINK_ALIGN(nlmsg_len); nlmsg_len += ...; nested[i]->type =
    NLA_F_NESTED | type].  The result is the offset of the header. *)
Definition nested_open (p : platform) (buf : buffer) (type : Z)
  : option (Z * buffer) :=
  let nested := u32 (NETLINK_ALIGN (get_nlmsg_len p buf)) in
  buf <- set_nlmsg_len p
           (get_nlmsg_len p buf + NETLINK_ALIGN sizeof_ipset_netlink_attr) buf ;;
  buf <- store (nested + attr_type_off)
           (host_bytes p 2 (Z.lor NLA_F_NESTED type)) buf ;;
  Some (nested, buf).

(** Lines 319 and 326: [nested[i]->len = buffer + NETLINK_ALIGN(nlmsg_len)
    - nested[i]]. *)
Definition nested_close (p : platform) (buf : buffer) (nested : Z)
  : option buffer :=
  store (nested + attr_len_off)
    (host_bytes p 2 (u32 (NETLINK_ALIGN (get_nlmsg_len p buf)) - nested)) buf.

(** Lines 294-305: [memset], the netlink header and the protocol header. *)
Definition init_headers (p : platform) (operate : Z) (af : Z)
  : option buffer :=
  let buf := zeros (Z.to_nat BUFF_SZ) in
  buf <- set_nlmsg_len p (NETLINK_ALIGN sizeof_nlmsghdr) buf ;;
  buf <- store nlmsg_type_off
           (host_bytes p 2 (Z.lor operate (Z.shiftl NFNL_SUBSYS_IPSET 8))) buf ;;
  buf <- store nlmsg_flags_off
           (host_bytes p 2 (Z.lor NLM_F_REQUEST NLM_F_REPLACE)) buf ;;
  let netlink_msg := get_nlmsg_len p buf in
  buf <- set_nlmsg_len p
           (get_nlmsg_len p buf + NETLINK_ALIGN sizeof_ipset_netlink_msg) buf ;;
  buf <- store (netlink_msg + family_off) [byte_of_Z af] buf ;;
  buf <- store (netlink_msg + version_off) [byte_of_Z NFNETLINK_V0] buf ;;
  store (netlink_msg + res_id_off) (host_bytes p 2 (htons p 0)) buf.

(** Lines 294-326.  [timeout] is the [unsigned long] parameter: it is given
    the value of [htonl(timeout)], and [sizeof(timeout)] bytes of it are
    copied. *)
Definition build_message (p : platform) (conf : Z) (ipsetname : list byte)
    (addr : list byte) (addr_len : Z) (timeout : Z) (operate : Z) (af : Z)
  : option buffer :=
  buf <- init_headers p operate af ;;
  buf <- _ipset_add_attr p buf IPSET_ATTR_PROTOCOL 1 [byte_of_Z IPSET_PROTOCOL] ;;
  buf <- _ipset_add_attr p buf IPSET_ATTR_SETNAME (strlen ipsetname + 1)
           (c_mem ipsetname) ;;
  '(nested0, buf) <- nested_open p buf IPSET_ATTR_DATA ;;
  '(nested1, buf) <- nested_open p buf IPSET_ATTR_IP ;;
  buf <- _ipset_add_attr p buf
           (Z.lor (if af =? AF_INET then IPSET_ATTR_IPADDR_IPV4
                   else IPSET_ATTR_IPADDR_IPV6) NLA_F_NET_BYTEORDER)
           addr_len addr ;;
  buf <- nested_close p buf nested1 ;;
  buf <- (if (0 <? timeout) && (_ipset_support_timeout conf ipsetname =? 0)
          then
            let timeout := htonl p timeout in
            _ipset_add_attr p buf (Z.lor IPSET_ATTR_TIMEOUT NLA_F_NET_BYTEORDER)
              (sizeof_ulong p)
              (host_bytes p (Z.to_nat (sizeof_ulong p)) timeout)
          else Some buf) ;;
  nested_close p buf nested0.

(** What [sendto] is given: the first [nlmsg_len] bytes of the buffer. *)
Definition datagram (p : platform) (buf : buffer) : list byte :=
  firstn (Z.to_nat (get_nlmsg_len p buf)) buf.

(* ================================================================= *)
(** ** The process state and the kernel *)

(** What a system call answers: a non-negative result, or -1 with [errno]. *)
Inductive sysret := SysOk (n : N) | SysErr (code : Z).

Inductive event :=
| EvSocket
| EvSendto (fd : Z) (msg : list byte)
| EvNanosleep (nsec : Z).

(** The kernel's answers, by the number of earlier calls of the same kind. *)
Record env := Env {
  socket_reply : nat -> sysret;
  sendto_reply : nat -> sysret
}.

(** The globals [ipset_fd], [errno] and [dns_conf_ipset_timeout_enable], and
    the system calls made so far, oldest first. *)
Record world := World {
  ipset_fd : Z;
  errno : Z;
  dns_conf_ipset_timeout_enable : Z;
  events : list event
}.

Definition set_errno (c : Z) (w : world) : world :=
  World (ipset_fd w) c (dns_conf_ipset_timeout_enable w) (events w).

Definition set_ipset_fd (fd : Z) (w : world) : world :=
  World fd (errno w) (dns_conf_ipset_timeout_enable w) (events w).

Definition log (e : event) (w : world) : world :=
  World (ipset_fd w) (errno w) (dns_conf_ipset_timeout_enable w)
        (events w ++ [e]).

Definition is_socket (e : event) : bool :=
  match e with EvSocket => true | _ => false end.

Definition is_sendto (e : event) : bool :=
  match e with EvSendto _ _ => true | _ => false end.

Definition is_nanosleep (e : event) : bool :=
  match e with EvNanosleep _ => true | _ => false end.

Definition calls (k : event -> bool) (w : world) : nat :=
  length (filter k (events w)).

Definition answer (r : sysret) (w : world) : Z * world :=
  match r with
  | SysOk n => (Z.of_N n, w)
  | SysErr c => (-1, set_errno c w)
  end.

Definition sys_socket (e : env) (w : world) : Z * world :=
  answer (socket_reply e (calls is_socket w)) (log EvSocket w).

Definition sys_sendto (e : env) (w : world) (fd : Z) (msg : list byte)
  : Z * world :=
  answer (sendto_reply e (calls is_sendto w)) (log (EvSendto fd msg) w).

Definition sys_nanosleep (nsec : Z) (w : world) : world :=
  log (EvNanosleep nsec) w.

(* ================================================================= *)
(** ** [_ipset_socket_init] *)

(** [util.c], lines 236-249. *)
Definition _ipset_socket_init (e : env) (w : world) : Z * world :=
  if 0 <? ipset_fd w then (0, w)
  else
    let '(fd, w) := sys_socket e w in
    let w := set_ipset_fd fd w in
    if ipset_fd w <? 0 then (-1, w) else (0, w).

(* ================================================================= *)
(** ** The send loop of [_ipset_operate] *)

Definition transient (c : Z) : bool :=
  (c =? EAGAIN) || (c =? EWOULDBLOCK) || (c =? EINTR).

(** Lines 328-341: [for (;;) { rc = sendto(...); if (rc >= 0) break;
    if (errno == ...) { nanosleep(10000ns); continue; } }]: each unit of [fuel] is one turn of
    the loop, and [None] means the loop is still running when it is spent. *)
Fixpoint send_loop (fuel : nat) (e : env) (w : world) (msg : list byte)
  : option (Z * world) :=
  match fuel with
  | O => None
  | S fuel =>
      let '(rc, w) := sys_sendto e w (ipset_fd w) msg in
      if 0 <=? rc then Some (rc, w)
      else if transient (errno w)
           then send_loop fuel e (sys_nanosleep 10000 w) msg
           else send_loop fuel e w msg
  end.

(* ================================================================= *)
(** ** [_ipset_operate], [ipset_add], [ipset_del] *)

(** The [return] statement a call leaves through. *)
Inductive outcome :=
| InvalidAddress      (** [errno = EINVAL; return -1] *)
| SocketError         (** [_ipset_socket_init() != 0]: [return -1] *)
| NameTooLong         (** [errno = ENAMETOOLONG; return -1] *)
| Overrun             (** a write outside [buffer]: undefined behaviour *)
| Sent (rc : Z).      (** [return rc] after the send loop, as an [int] *)

Definition return_value (o : outcome) : Z :=
  match o with Sent rc => rc | _ => -1 end.

(** [_ipset_operate] up to its [for (;;)] (lines 271-326): the checks, the
    socket and the message.  It ends in an early [return] or with the
    finished buffer.  The second [else] on the address length (lines
    280-283) is kept as the source has it. *)
Definition _ipset_operate_build (p : platform) (e : env) (w : world)
    (ipsetname : list byte) (addr : list byte) (addr_len : Z)
    (timeout : Z) (operate : Z) : (outcome + buffer) * world :=
  if negb (addr_len =? IPV4_ADDR_LEN) && negb (addr_len =? IPV6_ADDR_LEN)
  then (inl InvalidAddress, set_errno EINVAL w)
  else
    match (if addr_len =? IPV4_ADDR_LEN then Some AF_INET
           else if addr_len =? IPV6_ADDR_LEN then Some AF_INET6
           else None) with
    | None => (inl InvalidAddress, set_errno EINVAL w)
    | Some af =>
        let '(r, w) := _ipset_socket_init e w in
        if negb (r =? 0) then (inl SocketError, w)
        else if IPSET_MAXNAMELEN <=? strlen ipsetname
        then (inl NameTooLong, set_errno ENAMETOOLONG w)
        else
          match build_message p (dns_conf_ipset_timeout_enable w) ipsetname
                  addr addr_len timeout operate af with
          | None => (inl Overrun, w)
          | Some buf => (inr buf, w)
          end
    end.

(** [return rc;] (line 343): [rc] is an [ssize_t] and [_ipset_operate]
    returns [int].  A value that an [int] cannot hold is reduced modulo 2^32
    (the conversion gcc and clang define); on a platform where [ssize_t] has
    32 bits every value is kept. *)
Definition int_of_ssize (rc : Z) : Z :=
  (rc + 2147483648) mod 4294967296 - 2147483648.

(** The loop and the final [return rc]. *)
Definition transmit (fuel : nat) (e : env) (w : world) (msg : list byte)
  : option (outcome * world) :=
  match send_loop fuel e w msg with
  | None => None
  | Some (rc, w) => Some (Sent (int_of_ssize rc), w)
  end.

Definition _ipset_operate (p : platform) (e : env) (fuel : nat) (w : world)
    (ipsetname : list byte) (addr : list byte) (addr_len : Z)
    (timeout : Z) (operate : Z) : option (outcome * world) :=
  match _ipset_operate_build p e w ipsetname addr addr_len timeout operate with
  | (inl o, w) => Some (o, w)
  | (inr buf, w) => transmit fuel e w (datagram p buf)
  end.

Definition ipset_add (p : platform) (e : env) (fuel : nat) (w : world)
    (ipsetname addr : list byte) (addr_len : Z) (timeout : Z) :=
  _ipset_operate p e fuel w ipsetname addr addr_len timeout IPSET_ADD.

Definition ipset_del (p : platform) (e : env) (fuel : nat) (w : world)
    (ipsetname addr : list byte) (addr_len : Z) :=
  _ipset_operate p e fuel w ipsetname addr addr_len 0 IPSET_DEL.

(* ================================================================= *)
(** ** Reading a message back

    The receiving side of the wire format, as the kernel walks it
    ([nla_ok]/[nla_next]): attributes are read at their declared lengths, the
    next one starts at the 4-byte aligned end of the previous one, and a
    nested attribute's payload is walked the same way.  None of this is in
    [util.c]; it is what the properties of the encoder are stated against. *)

Record attr := Attr {
  a_off : Z;                 (** offset of the header in the buffer *)
  a_type : Z;                (** the 16-bit type field, flags included *)
  a_len : Z;                 (** the declared length *)
  a_payload : list byte
}.

Fixpoint walk (p : platform) (fuel : nat) (base : Z) (l : list byte)
  : list attr :=
  match fuel with
  | O => []
  | S fuel =>
      let n := host_value p (firstn 2 l) in
      let t := host_value p (firstn 2 (skipn 2 l)) in
      if (4 <=? n) && (n <=? len l)
      then Attr base t n (firstn (Z.to_nat (n - 4)) (skipn 4 l))
           :: walk p fuel (base + NETLINK_ALIGN n)
                (skipn (Z.to_nat (NETLINK_ALIGN n)) l)
      else []
  end.

Definition attrs_offset : Z :=
  NETLINK_ALIGN sizeof_nlmsghdr + NETLINK_ALIGN sizeof_ipset_netlink_msg.

(** The attributes at the top level of a message. *)
Definition attributes (p : platform) (buf : buffer) : list attr :=
  walk p (length buf) attrs_offset
    (skipn (Z.to_nat attrs_offset) (datagram p buf)).

(** The attributes a nested attribute contains. *)
Definition children (p : platform) (a : attr) : list attr :=
  walk p (length (a_payload a)) (a_off a + sizeof_ipset_netlink_attr)
    (a_payload a).

Definition is_nested (a : attr) : bool := Z.testbit (a_type a) 15.
Definition is_net_byteorder (a : attr) : bool := Z.testbit (a_type a) 14.

(** The type without its two flag bits ([NLA_TYPE_MASK]). *)
Definition attr_kind (a : attr) : Z :=
  Z.land (a_type a) (Z.lnot (Z.lor NLA_F_NESTED NLA_F_NET_BYTEORDER)).

(** Every attribute of a list, nested ones followed by their contents, to
    nesting depth [depth]. *)
Fixpoint flatten (p : platform) (depth : nat) (l : list attr) : list attr :=
  match depth with
  | O => l
  | S depth =>
      flat_map (fun a => a :: (if is_nested a
                               then flatten p depth (children p a)
                               else [])) l
  end.

Definition all_attributes (p : platform) (buf : buffer) : list attr :=
  flatten p 2 (attributes p buf).

Definition find_attr (kind : Z) (l : list attr) : option attr :=
  find (fun a => attr_kind a =? kind) l.

Record request := Request {
  r_operation : Z;
  r_family : Z;
  r_setname : list byte;
  r_addr_type : Z;
  r_addr : list byte;
  r_timeout : option Z
}.

Definition parse_message (p : platform) (buf : buffer) : option request :=
  let top := attributes p buf in
  name <- find_attr IPSET_ATTR_SETNAME top ;;
  data <- find_attr IPSET_ATTR_DATA top ;;
  ip <- find_attr IPSET_ATTR_IP (children p data) ;;
  ipaddr <- hd_error (children p ip) ;;
  Some (Request
          (Z.land (host_value p (load nlmsg_type_off 2 buf)) 255)
          (Z_of_byte (hd x00 (load (NETLINK_ALIGN sizeof_nlmsghdr) 1 buf)))
          (c_str (a_payload name))
          (a_type ipaddr)
          (a_payload ipaddr)
          (option_map (fun a => be_value (firstn 4 (a_payload a)))
             (find_attr IPSET_ATTR_TIMEOUT (children p data)))).

(* ================================================================= *)
(** ** Concrete platforms, arguments and kernels *)

Definition le32 := Platform LittleEndian ILP32.
Definition be32 := Platform BigEndian ILP32.
Definition le64 := Platform LittleEndian LP64.
Definition be64 := Platform BigEndian LP64.

(** The nine characters of the name blocklist. *)
Definition blocklist : list byte :=
  [x62; x6c; x6f; x63; x6b; x6c; x69; x73; x74].

(** 192.168.1.1 and 2001:db8::1. *)
Definition ipv4_example : list byte := [xc0; xa8; x01; x01].
Definition ipv6_example : list byte :=
  [x20; x01; x0d; xb8; x00; x00; x00; x00;
   x00; x00; x00; x00; x00; x00; x00; x01].

(** Names of 31, 32 and 33 characters. *)
Definition name31 : list byte := repeat x61 31.
Definition name33 : list byte := repeat x61 33.

(** A process whose socket is open as descriptor 3, and one that has not
    made it yet; [conf] is [dns_conf_ipset_timeout_enable]. *)
Definition world_open (conf : Z) : world := World 3 0 conf [].
Definition world_fresh (conf : Z) : world := World 0 0 conf [].

(** A kernel that gives descriptor 3 and takes every datagram, one that
    refuses the socket with [EMFILE], and one whose first [busy] [sendto]
    calls fail with [EAGAIN]. *)
Definition kernel_ok : env := Env (fun _ => SysOk 3) (fun _ => SysOk 60).
Definition kernel_no_socket : env :=
  Env (fun _ => SysErr 24) (fun _ => SysOk 60).
Definition kernel_busy (busy : nat) : env :=
  Env (fun _ => SysOk 3)
      (fun i => if (i <? busy)%nat then SysErr EAGAIN else SysOk 60).

(* ================================================================= *)
(** ** The wire format written out

    The bytes [build_message] is proved to produce
    ([build_message_image]) and the attributes a reader is proved to find
    in them ([attributes_image], [children_data], [children_ip]), with the
    words the properties are stated in.  None of these definitions stands
    for the code: the theorems relate them to it. *)

(** A buffer whose length field holds [L], followed by the [L - 4] bytes
    [body] and by zeros up to [BUFF_SZ]. *)
Definition image (p : platform) (L : Z) (body : list byte) : buffer :=
  host_bytes p 4 L ++ body ++ zeros (Z.to_nat (BUFF_SZ - L)).

(** The length field is a multiple of 4 inside the buffer and counts the
    bytes written. *)
Definition shaped (L : Z) (body : list byte) : Prop :=
  4 <= L <= BUFF_SZ /\ L mod 4 = 0 /\ len body = L - 4.

(** One attribute on the wire: header, payload, padding. *)
Definition attr_bytes (p : platform) (type : Z) (payload : list byte)
  : list byte :=
  host_bytes p 2 (sizeof_ipset_netlink_attr + len payload)
  ++ host_bytes p 2 type ++ payload
  ++ zeros (Z.to_nat (NETLINK_ALIGN (len payload) - len payload)).

(** The bytes of the two headers behind the length field. *)
Definition header_bytes (p : platform) (operate af : Z) : list byte :=
  host_bytes p 2 (Z.lor operate (Z.shiftl NFNL_SUBSYS_IPSET 8))
  ++ host_bytes p 2 (Z.lor NLM_F_REQUEST NLM_F_REPLACE)
  ++ zeros 8
  ++ [byte_of_Z af; x00; x00; x00].

(** The condition under which [_ipset_operate] adds the TIMEOUT attribute. *)
Definition emits_timeout (conf : Z) (ipsetname : list byte) (timeout : Z)
  : bool :=
  (0 <? timeout) && (_ipset_support_timeout conf ipsetname =? 0).

(** The object [&timeout] after [timeout = htonl(timeout)]. *)
Definition timeout_object (p : platform) (timeout : Z) : list byte :=
  host_bytes p (Z.to_nat (sizeof_ulong p)) (htonl p timeout).

Definition ipaddr_type (af : Z) : Z :=
  Z.lor (if af =? AF_INET then IPSET_ATTR_IPADDR_IPV4
         else IPSET_ATTR_IPADDR_IPV6) NLA_F_NET_BYTEORDER.

Definition timeout_bytes (p : platform) (conf : Z) (ipsetname : list byte)
    (timeout : Z) : list byte :=
  if emits_timeout conf ipsetname timeout
  then attr_bytes p (Z.lor IPSET_ATTR_TIMEOUT NLA_F_NET_BYTEORDER)
         (timeout_object p timeout)
  else [].

Definition ip_bytes (p : platform) (af : Z) (addr : list byte) : list byte :=
  host_bytes p 2 (4 + len (attr_bytes p (ipaddr_type af) addr))
  ++ host_bytes p 2 (Z.lor NLA_F_NESTED IPSET_ATTR_IP)
  ++ attr_bytes p (ipaddr_type af) addr.

Definition data_bytes (p : platform) (conf : Z) (ipsetname addr : list byte)
    (timeout af : Z) : list byte :=
  host_bytes p 2 (4 + len (ip_bytes p af addr)
                  + len (timeout_bytes p conf ipsetname timeout))
  ++ host_bytes p 2 (Z.lor NLA_F_NESTED IPSET_ATTR_DATA)
  ++ ip_bytes p af addr
  ++ timeout_bytes p conf ipsetname timeout.

Definition attrs_bytes (p : platform) (conf : Z) (ipsetname addr : list byte)
    (timeout af : Z) : list byte :=
  attr_bytes p IPSET_ATTR_PROTOCOL [byte_of_Z IPSET_PROTOCOL]
  ++ attr_bytes p IPSET_ATTR_SETNAME (c_str ipsetname ++ [x00])
  ++ data_bytes p conf ipsetname addr timeout af.

Definition message_body (p : platform) (conf : Z) (ipsetname addr : list byte)
    (timeout operate af : Z) : list byte :=
  header_bytes p operate af ++ attrs_bytes p conf ipsetname addr timeout af.

Definition message_length (p : platform) (conf : Z)
    (ipsetname addr : list byte) (timeout : Z) : Z :=
  20 + 8 + NETLINK_ALIGN (4 + (strlen ipsetname + 1))
  + 4 + 4 + NETLINK_ALIGN (4 + len addr)
  + (if emits_timeout conf ipsetname timeout
     then NETLINK_ALIGN (4 + sizeof_ulong p) else 0).

(** The attributes one request is made of, at the offsets they are found. *)
Definition protocol_attr : attr :=
  Attr 20 IPSET_ATTR_PROTOCOL 5 [byte_of_Z IPSET_PROTOCOL].

Definition setname_attr (ipsetname : list byte) : attr :=
  Attr 28 IPSET_ATTR_SETNAME (4 + (strlen ipsetname + 1))
    (c_str ipsetname ++ [x00]).

Definition data_attr (p : platform) (conf : Z) (ipsetname addr : list byte)
    (timeout af : Z) : attr :=
  Attr (28 + NETLINK_ALIGN (4 + (strlen ipsetname + 1)))
    (Z.lor NLA_F_NESTED IPSET_ATTR_DATA)
    (4 + len (ip_bytes p af addr ++ timeout_bytes p conf ipsetname timeout))
    (ip_bytes p af addr ++ timeout_bytes p conf ipsetname timeout).

Definition ip_attr (p : platform) (ipsetname addr : list byte) (af : Z)
  : attr :=
  Attr (28 + NETLINK_ALIGN (4 + (strlen ipsetname + 1)) + 4)
    (Z.lor NLA_F_NESTED IPSET_ATTR_IP)
    (4 + len (attr_bytes p (ipaddr_type af) addr))
    (attr_bytes p (ipaddr_type af) addr).

Definition ipaddr_attr (ipsetname addr : list byte) (af : Z) : attr :=
  Attr (28 + NETLINK_ALIGN (4 + (strlen ipsetname + 1)) + 8)
    (ipaddr_type af) (4 + len addr) addr.

Definition timeout_attr (p : platform) (ipsetname addr : list byte)
    (timeout : Z) : attr :=
  Attr (28 + NETLINK_ALIGN (4 + (strlen ipsetname + 1)) + 8
        + NETLINK_ALIGN (4 + len addr))
    (Z.lor IPSET_ATTR_TIMEOUT NLA_F_NET_BYTEORDER)
    (4 + sizeof_ulong p) (timeout_object p timeout).

Definition timeout_attrs (p : platform) (conf : Z)
    (ipsetname addr : list byte) (timeout : Z) : list attr :=
  if emits_timeout conf ipsetname timeout
  then [timeout_attr p ipsetname addr timeout] else [].

Definition valid_address (addr : list byte) : Prop :=
  len addr = IPV4_ADDR_LEN \/ len addr = IPV6_ADDR_LEN.

Definition valid_name (ipsetname : list byte) : Prop :=
  strlen ipsetname < IPSET_MAXNAMELEN.

(** The family [_ipset_operate] derives from the length. *)
Definition family_of (addr_len : Z) : Z :=
  if addr_len =? IPV4_ADDR_LEN then AF_INET else AF_INET6.

(** The buffer of a request, in closed form. *)
Definition request_buffer (p : platform) (conf : Z)
    (ipsetname addr : list byte) (timeout operate : Z) : buffer :=
  image p (message_length p conf ipsetname addr timeout)
    (message_body p conf ipsetname addr timeout operate
       (family_of (len addr))).

(** The socket is there, or can be made. *)
Definition socket_ready (e : env) (w : world) : Prop :=
  fst (_ipset_socket_init e w) = 0.

(** The seconds a reader takes from the attribute: a 32-bit big-endian
    integer at the start of the payload. *)
Definition wire_timeout (p : platform) (timeout : Z) : Z :=
  be_value (firstn 4 (timeout_object p timeout)).

Definition operation_code (operate : Z) : Prop :=
  operate = IPSET_ADD \/ operate = IPSET_DEL.

(** The three numbers a reader sees in an attribute header. *)
Definition attr_header (a : attr) : Z * Z * Z := (a_off a, a_type a, a_len a).

(** The datagram of a request: length, type, and the rest. *)
Definition after_type (p : platform) (conf : Z) (ipsetname addr : list byte)
    (timeout : Z) : list byte :=
  host_bytes p 2 (Z.lor NLM_F_REQUEST NLM_F_REPLACE)
  ++ zeros 8
  ++ [byte_of_Z (family_of (len addr)); x00; x00; x00]
  ++ attrs_bytes p conf ipsetname addr timeout (family_of (len addr)).

(** The datagrams handed to [sendto] so far. *)
Definition sent (w : world) : list event := filter is_sendto (events w).

(** The world after a [sendto] that failed with [c]: [errno] is set, and the
    loop has slept if [c] is one of the three transient codes. *)
Definition after_failure (c : Z) (w : world) (msg : list byte) : world :=
  let w1 := set_errno c (log (EvSendto (ipset_fd w) msg) w) in
  if transient c then sys_nanosleep 10000 w1 else w1.

(** Whether a message carries a TIMEOUT attribute inside DATA. *)
Definition has_timeout (p : platform) (buf : buffer) : bool :=
  match find_attr IPSET_ATTR_DATA (attributes p buf) with
  | Some data =>
      match find_attr IPSET_ATTR_TIMEOUT (children p data) with
      | Some _ => true
      | None => false
      end
  | None => false
  end.

(* ================================================================= *)
(** ** [reverse_string] *)

(** [util.c], lines 214-219: the loop [while (len >= 0)], entered with
    [len = k - 1]; [pos] is the distance of [output] from [begin].  Each
    round reads [input[len]] and writes it at [output]; [input] and the
    output buffer are distinct objects. *)
Fixpoint reverse_loop (k : nat) (input : list byte) (output : buffer)
    (pos : Z) : option (buffer * Z) :=
  match k with
  | O => Some (output, pos)
  | S k' =>
      c <- nth_error input k' ;;
      output <- store pos [c] output ;;
      reverse_loop k' input output (pos + 1)
  end.

(** [util.c], lines 206-224.  The result is the output buffer ([begin] is
    its start). *)
Definition reverse_string (output : buffer) (input : list byte) (n : Z)
  : option buffer :=
  if n <=? 0 then store 0 [x00] output
  else
    '(output, pos) <- reverse_loop (Z.to_nat n) input output 0 ;;
    store pos [x00] output.

(* ================================================================= *)
(** ** The libc functions used by [parse_ip] *)

Definition char_colon : byte := x3a.
Definition char_lbracket : byte := x5b.
Definition char_rbracket : byte := x5d.
Definition char_equals : byte := x3d.
Definition char_minus : byte := x2d.
Definition char_plus : byte := x2b.

Fixpoint prefixb (a s : list byte) : bool :=
  match a, s with
  | [], _ => true
  | _ :: _, [] => false
  | x :: a', y :: s' => Byte.eqb x y && prefixb a' s'
  end.

Fixpoint find_sub (needle s : list byte) : option nat :=
  match s with
  | [] => if prefixb needle [] then Some O else None
  | c :: t =>
      if prefixb needle (c :: t) then Some O
      else option_map S (find_sub needle t)
  end.

(** [strstr(haystack, needle)]: the offset of the first occurrence of
    [needle] in the string at [haystack], [None] for [NULL]. *)
Definition strstr (haystack needle : list byte) : option nat :=
  find_sub needle (c_str haystack).

(** [strncpy(dst, src, n)]: exactly [n] bytes are written, the string and
    then NUL bytes. *)
Definition strncpy (src : list byte) (n : Z) (dst : buffer) : option buffer :=
  if 0 <=? n
  then store 0 (firstn (Z.to_nat n) (c_str src ++ zeros (Z.to_nat n))) dst
  else None.

Definition isspace (c : byte) : bool :=
  let v := Z_of_byte c in (v =? 32) || ((9 <=? v) && (v <=? 13)).

Definition isdigit (c : byte) : bool :=
  let v := Z_of_byte c in (48 <=? v) && (v <=? 57).

Fixpoint skip_space (s : list byte) : list byte :=
  match s with
  | [] => []
  | c :: t => if isspace c then skip_space t else s
  end.

Fixpoint digits_value (acc : Z) (s : list byte) : Z :=
  match s with
  | [] => acc
  | c :: t =>
      if isdigit c then digits_value (10 * acc + (Z_of_byte c - 48)) t
      else acc
  end.

Definition INT_MAX := 2147483647.
Definition INT_MIN := -2147483648.

(** [atoi]: white space, an optional sign, decimal digits.  A value that an
    [int] cannot hold is undefined. *)
Definition atoi (s : list byte) : option Z :=
  let s := skip_space s in
  let v :=
    match s with
    | c :: t =>
        if Byte.eqb c char_minus then - digits_value 0 t
        else if Byte.eqb c char_plus then digits_value 0 t
        else digits_value 0 s
    | [] => 0
    end in
  if (INT_MIN <=? v) && (v <=? INT_MAX) then Some v else None.

(* ================================================================= *)
(** ** [parse_ip] *)

(** [util.c], lines 174-185: the port is stored, then [ip[0]] is looked at.
    [colon] is the offset into [value] of the text [atoi] is given. *)
Definition parse_ip_port (PORT_NOT_DEFINED : Z) (value : list byte)
    (colon : option nat) (ip : buffer) : option (Z * buffer * Z) :=
  port <- match colon with
          | Some c => atoi (skipn c value)
          | None => Some PORT_NOT_DEFINED
          end ;;
  c <- nth_error ip 0 ;;
  Some (if Byte.eqb c x00 then -1 else 0, ip, port).

(** [util.c], lines 133-186.  [MAX_IP_LEN] and [PORT_NOT_DEFINED] are macros
    of [util.h].  [value] is the memory at the argument, [ip] the caller's
    buffer (an object of its own) and [port] the value of [*port] on entry;
    the result is the return value with the buffer and [*port] on return. *)
Definition parse_ip (MAX_IP_LEN PORT_NOT_DEFINED : Z) (value : list byte)
    (ip : buffer) (port : Z) : option (Z * buffer * Z) :=
  let colon := strstr value [char_colon] in
  match strstr value [char_lbracket] with
  | Some _ =>
      (* ipv6 with port *)
      match strstr value [char_rbracket] with
      | None => Some (-1, ip, port)
      | Some bracket_end =>
          let offset := Z.of_nat bracket_end - 1 in
          ip <- memcpy 0 (skipn 1 value) offset ip ;;
          ip <- store offset [x00] ip ;;
          let colon :=
            match strstr (skipn bracket_end value) [char_colon] with
            | Some c => Some (bracket_end + c + 1)%nat
            | None => None
            end in
          parse_ip_port PORT_NOT_DEFINED value colon ip
      end
  | None =>
      if match colon with
         | Some c =>
             match strstr (skipn (c + 1) value) [char_colon] with
             | Some _ => true
             | None => false
             end
         | None => false
         end
      then
        (* ipv6 without port *)
        ip <- strncpy value MAX_IP_LEN ip ;;
        parse_ip_port PORT_NOT_DEFINED value None ip
      else
        (* ipv4 *)
        match strstr value [char_colon] with
        | None =>
            ip <- strncpy value MAX_IP_LEN ip ;;
            parse_ip_port PORT_NOT_DEFINED value None ip
        | Some colon =>
            let offset := Z.of_nat colon in
            ip <- memcpy 0 value offset ip ;;
            ip <- store offset [x00] ip ;;
            parse_ip_port PORT_NOT_DEFINED value (Some (colon + 1)%nat) ip
        end
  end.

(* ================================================================= *)
(** ** [SSL_base64_decode] *)

(** [util.c], lines 385-387: [while (in[--inlen] == '=') --outlen;] entered
    with [inlen = k].  [inlen] is a [size_t]: decremented at 0 it wraps, and
    the byte read then lies outside the string. *)
Fixpoint strip_padding (k : nat) (input : list byte) (outlen : Z)
  : option Z :=
  match k with
  | O => None
  | S k' =>
      c <- nth_error input k' ;;
      if Byte.eqb c char_equals then strip_padding k' input (outlen - 1)
      else Some outlen
  end.

(** [util.c], lines 370-392.  [EVP_DecodeBlock] of OpenSSL is a parameter:
    given the input and its length it yields its return value and the bytes
    it has written to [out]. *)
Definition SSL_base64_decode
    (EVP_DecodeBlock : list byte -> Z -> Z * list byte)
    (input : list byte) (out : buffer) : option (Z * buffer) :=
  let inlen := strlen input in
  if inlen =? 0 then Some (0, out)
  else
    let '(outlen, written) := EVP_DecodeBlock (c_str input) inlen in
    out <- store 0 written out ;;
    if outlen <? 0 then Some (-1, out)
    else
      outlen <- strip_padding (Z.to_nat inlen) input outlen ;;
      Some (outlen, out).

(* ================================================================= *)
(** ** [set_fd_nonblock] *)

Inductive fcntl_call :=
| F_GETFL (fd : Z)
| F_SETFL (fd flags : Z).

(** What [fcntl] returns for each of the two commands. *)
Record fcntl_env := FcntlEnv {
  getfl_reply : Z -> Z;
  setfl_reply : Z -> Z -> Z
}.

(** [util.c], lines 188-204.  [O_NONBLOCK] comes from [<fcntl.h>]; the
    result is the return value with the [fcntl] calls made, in order. *)
Definition set_fd_nonblock (O_NONBLOCK : Z) (k : fcntl_env) (fd nonblock : Z)
  : Z * list fcntl_call :=
  let flags := getfl_reply k fd in
  if flags =? -1 then (-1, [F_GETFL fd])
  else
    let flags :=
      if negb (nonblock =? 0) then Z.lor flags O_NONBLOCK
      else Z.land flags (Z.lnot O_NONBLOCK) in
    let ret := setfl_reply k fd flags in
    if ret =? -1 then (-1, [F_GETFL fd; F_SETFL fd flags])
    else (0, [F_GETFL fd; F_SETFL fd flags]).

(* ================================================================= *)
(** ** [getaddr_by_host] *)

(** [util.c], lines 101-131.  [getaddrinfo] is a parameter: for a host name
    it yields its return value and the [ai_addr] object of the first result
    ([ai_addrlen] is its size).  [addr_len] is [*addr_len] on entry, a
    [socklen_t]; the result carries [*addr_len] on return. *)
Definition getaddr_by_host (getaddrinfo : list byte -> Z * list byte)
    (host : list byte) (addr : buffer) (addr_len : Z)
  : option (Z * buffer * Z) :=
  let '(ret, ai_addr) := getaddrinfo (c_str host) in
  if negb (ret =? 0) then Some (-1, addr, addr_len)
  else
    let ai_addrlen := len ai_addr in
    let ai_addrlen := if addr_len <? ai_addrlen then addr_len else ai_addrlen in
    addr <- memcpy 0 ai_addr ai_addrlen addr ;;
    Some (0, addr, ai_addrlen).

(* ================================================================= *)
(** * Properties *)

(* ================================================================= *)
(** ** Bytes and integers *)

Lemma Z_of_byte_range (b : byte) : 0 <= Z_of_byte b < 256.
Proof.
  unfold Z_of_byte. pose proof (Byte.to_N_bounded b). lia.
Qed.

Lemma Z_of_byte_of_Z (z : Z) : Z_of_byte (byte_of_Z z) = z mod 256.
Proof.
  unfold Z_of_byte, byte_of_Z.
  pose proof (Z.mod_pos_bound z 256 ltac:(lia)) as Hz.
  destruct (Byte.of_N (Z.to_N (z mod 256))) as [b|] eqn:E.
  - apply Byte.to_of_N in E. rewrite E. lia.
  - apply Byte.of_N_None_iff in E. lia.
Qed.

Lemma byte_of_Z_of_byte (b : byte) : byte_of_Z (Z_of_byte b) = b.
Proof.
  unfold byte_of_Z. pose proof (Z_of_byte_range b) as Hb.
  rewrite Z.mod_small by lia. unfold Z_of_byte.
  rewrite N2Z.id, Byte.of_to_N. reflexivity.
Qed.

Lemma byte_of_Z_mod (z : Z) : byte_of_Z (z mod 256) = byte_of_Z z.
Proof.
  unfold byte_of_Z. rewrite Z.mod_mod by lia. reflexivity.
Qed.

Lemma length_le_bytes (n : nat) (v : Z) : length (le_bytes n v) = n.
Proof.
  revert v. induction n as [|n IH]; intro v; simpl; [reflexivity|].
  now rewrite IH.
Qed.

Lemma length_be_bytes (n : nat) (v : Z) : length (be_bytes n v) = n.
Proof. unfold be_bytes. now rewrite length_rev, length_le_bytes. Qed.

Lemma length_host_bytes (p : platform) (n : nat) (v : Z) :
  length (host_bytes p n v) = n.
Proof.
  unfold host_bytes. destruct (endian p);
    [apply length_le_bytes | apply length_be_bytes].
Qed.

Lemma le_value_range (l : list byte) : 0 <= le_value l < 256 ^ len l.
Proof.
  unfold len. induction l as [|b t IH]; cbn [le_value].
  - simpl. lia.
  - pose proof (Z_of_byte_range b).
    replace (Z.of_nat (length (b :: t))) with (Z.succ (Z.of_nat (length t)))
      by (cbn [length]; lia).
    rewrite Z.pow_succ_r by lia. nia.
Qed.

Lemma le_value_le_bytes (n : nat) (v : Z) :
  le_value (le_bytes n v) = v mod 256 ^ Z.of_nat n.
Proof.
  revert v. induction n as [|n IH]; intro v.
  - simpl. now rewrite Z.mod_1_r.
  - cbn [le_bytes le_value]. rewrite IH, Z_of_byte_of_Z.
    rewrite Nat2Z.inj_succ, Z.pow_succ_r by lia.
    rewrite (Z.rem_mul_r v 256 (256 ^ Z.of_nat n)) by lia. reflexivity.
Qed.

Lemma le_bytes_le_value (l : list byte) :
  le_bytes (length l) (le_value l) = l.
Proof.
  induction l as [|b t IH]; [reflexivity|].
  cbn [length le_bytes le_value]. pose proof (Z_of_byte_range b) as Hb.
  f_equal.
  - rewrite <- byte_of_Z_mod.
    replace ((Z_of_byte b + 256 * le_value t) mod 256) with (Z_of_byte b).
    + apply byte_of_Z_of_byte.
    + apply (Z.mod_unique _ _ (le_value t)); lia.
  - replace ((Z_of_byte b + 256 * le_value t) / 256) with (le_value t);
      [exact IH|].
    apply (Z.div_unique _ _ _ (Z_of_byte b)); lia.
Qed.

Lemma host_value_bytes (p : platform) (n : nat) (v : Z) :
  host_value p (host_bytes p n v) = v mod 256 ^ Z.of_nat n.
Proof.
  unfold host_value, host_bytes, be_value, be_bytes.
  destruct (endian p); [|rewrite rev_involutive]; apply le_value_le_bytes.
Qed.

Lemma host_bytes_value (p : platform) (l : list byte) :
  host_bytes p (length l) (host_value p l) = l.
Proof.
  unfold host_value, host_bytes, be_value, be_bytes.
  destruct (endian p).
  - apply le_bytes_le_value.
  - rewrite <- (length_rev l), le_bytes_le_value. apply rev_involutive.
Qed.

Lemma host_value_small (p : platform) (n : nat) (v : Z) :
  0 <= v < 256 ^ Z.of_nat n -> host_value p (host_bytes p n v) = v.
Proof. intro H. rewrite host_value_bytes. now apply Z.mod_small. Qed.

(** What [htonl] leaves in a 4-byte object is the big-endian encoding. *)
Lemma host_bytes_htonl (p : platform) (x : Z) :
  host_bytes p 4 (htonl p x) = be_bytes 4 x.
Proof.
  unfold htonl.
  rewrite <- (length_be_bytes 4 x) at 1. apply host_bytes_value.
Qed.

Lemma be_value_be_bytes (n : nat) (v : Z) :
  be_value (be_bytes n v) = v mod 256 ^ Z.of_nat n.
Proof.
  unfold be_value, be_bytes. rewrite rev_involutive. apply le_value_le_bytes.
Qed.

(* ================================================================= *)
(** ** [NETLINK_ALIGN] *)

Lemma NETLINK_ALIGN_eq (x : Z) : NETLINK_ALIGN x = 4 * ((x + 3) / 4).
Proof.
  unfold NETLINK_ALIGN.
  rewrite <- Z.ldiff_land. change 3 with (Z.ones 2) at 2.
  rewrite Z.ldiff_ones_r by lia.
  rewrite Z.shiftr_div_pow2, Z.shiftl_mul_pow2 by lia.
  change (2 ^ 2) with 4. lia.
Qed.

Lemma NETLINK_ALIGN_aligned (x : Z) : x mod 4 = 0 -> NETLINK_ALIGN x = x.
Proof.
  intro H. rewrite NETLINK_ALIGN_eq.
  pose proof (Z.div_mod x 4 ltac:(lia)). 
  pose proof (Z.div_mod (x + 3) 4 ltac:(lia)).
  pose proof (Z.mod_pos_bound (x + 3) 4 ltac:(lia)). lia.
Qed.

Lemma NETLINK_ALIGN_mod (x : Z) : NETLINK_ALIGN x mod 4 = 0.
Proof.
  rewrite NETLINK_ALIGN_eq, Z.mul_comm. apply Z.mod_mul. lia.
Qed.

Lemma NETLINK_ALIGN_bounds (x : Z) : x <= NETLINK_ALIGN x < x + 4.
Proof.
  rewrite NETLINK_ALIGN_eq.
  pose proof (Z.div_mod (x + 3) 4 ltac:(lia)).
  pose proof (Z.mod_pos_bound (x + 3) 4 ltac:(lia)). lia.
Qed.

Lemma NETLINK_ALIGN_add (x y : Z) :
  x mod 4 = 0 -> NETLINK_ALIGN (x + y) = x + NETLINK_ALIGN y.
Proof.
  intro H. rewrite !NETLINK_ALIGN_eq.
  pose proof (Z.div_mod x 4 ltac:(lia)) as Hx. rewrite H in Hx.
  replace (x + y + 3) with ((y + 3) + (x / 4) * 4) by lia.
  rewrite Z.div_add by lia. lia.
Qed.

(* ================================================================= *)
(** ** Writes into the buffer *)

Lemma len_app (a b : list byte) : len (a ++ b) = len a + len b.
Proof. unfold len. rewrite length_app. lia. Qed.

Lemma len_nonneg (a : list byte) : 0 <= len a.
Proof. unfold len. lia. Qed.

Lemma len_zeros (n : nat) : len (zeros n) = Z.of_nat n.
Proof. unfold len, zeros. now rewrite repeat_length. Qed.

Lemma len_host_bytes (p : platform) (n : nat) (v : Z) :
  len (host_bytes p n v) = Z.of_nat n.
Proof. unfold len. now rewrite length_host_bytes. Qed.

Lemma zeros_app (n m : nat) : zeros (n + m) = zeros n ++ zeros m.
Proof. apply repeat_app. Qed.

Lemma zeros_split (n k : nat) :
  (k <= n)%nat -> zeros n = zeros k ++ zeros (n - k).
Proof. intro H. rewrite <- zeros_app. f_equal. lia. Qed.

(** Overwriting the segment [o] that follows [a]. *)
Lemma store_at (a o c d : list byte) (off : Z) :
  off = len a -> len o = len d ->
  store off d (a ++ o ++ c) = Some (a ++ d ++ c).
Proof.
  unfold store, len. intros -> Hod.
  rewrite !length_app.
  replace ((0 <=? Z.of_nat (length a))
           && (Z.of_nat (length a) + Z.of_nat (length d)
               <=? Z.of_nat (length a + (length o + length c)))) with true
    by (symmetry; apply andb_true_intro; split; apply Z.leb_le; lia).
  rewrite Nat2Z.id.
  rewrite firstn_app, Nat.sub_diag, firstn_all, firstn_O, app_nil_r.
  rewrite skipn_app, skipn_all2 by lia.
  replace (length a + length d - length a)%nat with (length o) by lia.
  rewrite skipn_app, skipn_all, Nat.sub_diag, skipn_O. reflexivity.
Qed.

(** The same at the very start of the buffer. *)
Lemma store_front (o c d : list byte) :
  len o = len d -> store 0 d (o ++ c) = Some (d ++ c).
Proof. intro H. now apply (store_at [] o c d 0). Qed.

(** A write into the part of the buffer that is still zero. *)
Lemma store_zeros (a d : list byte) (n : nat) (off : Z) :
  len a <= off -> off + len d <= len a + Z.of_nat n ->
  store off d (a ++ zeros n)
  = Some (a ++ zeros (Z.to_nat (off - len a)) ++ d
            ++ zeros (n - Z.to_nat (off - len a) - length d)).
Proof.
  intros Hlo Hhi. unfold len in *.
  set (k := Z.to_nat (off - Z.of_nat (length a))).
  rewrite (zeros_split n k) by lia.
  rewrite (zeros_split (n - k) (length d)) by lia.
  rewrite (app_assoc a (zeros k)).
  rewrite (store_at (a ++ zeros k) (zeros (length d)) _ d).
  - now rewrite <- app_assoc.
  - rewrite len_app, len_zeros. unfold len. lia.
  - now rewrite len_zeros.
Qed.

(** Writes that land right behind [a]. *)
Lemma store_zeros_next (a d : list byte) (n : nat) :
  len d <= Z.of_nat n ->
  store (len a) d (a ++ zeros n) = Some (a ++ d ++ zeros (n - length d)).
Proof.
  intro H. rewrite store_zeros by lia.
  rewrite Z.sub_diag. simpl. now rewrite Nat.sub_0_r.
Qed.

Lemma load_front (n : nat) (a c : list byte) :
  length a = n -> load 0 n (a ++ c) = a.
Proof.
  intros <-. unfold load. simpl.
  now rewrite firstn_app, Nat.sub_diag, firstn_all, firstn_O, app_nil_r.
Qed.

(* ================================================================= *)
(** ** C strings *)

Lemma strlen_range (s : list byte) : 0 <= strlen s <= len s.
Proof.
  unfold len. induction s as [|c t IH]; cbn [strlen length]; [lia|].
  destruct (Byte.eqb c x00); lia.
Qed.

Lemma len_c_str (s : list byte) : len (c_str s) = strlen s.
Proof.
  unfold c_str, len. pose proof (strlen_range s) as H. unfold len in H.
  rewrite length_firstn. lia.
Qed.

(** [memcpy] of [strlen + 1] bytes takes the string and its terminator. *)
Lemma firstn_c_mem (s : list byte) :
  firstn (Z.to_nat (strlen s + 1)) (c_mem s) = c_str s ++ [x00].
Proof.
  unfold c_mem, c_str. induction s as [|c t IH]; [reflexivity|].
  cbn [strlen]. destruct (Byte.eqb c x00) eqn:E.
  - apply Byte.byte_dec_bl in E. subst c. reflexivity.
  - pose proof (strlen_range t) as Ht.
    replace (Z.to_nat (1 + strlen t + 1)) with (S (Z.to_nat (strlen t + 1)))
      by lia.
    replace (Z.to_nat (1 + strlen t)) with (S (Z.to_nat (strlen t))) by lia.
    cbn [app firstn]. now rewrite IH.
Qed.

Lemma strlen_no_nul (s : list byte) : ~ In x00 s -> strlen s = len s.
Proof.
  unfold len. induction s as [|c t IH]; intro H; [reflexivity|].
  cbn [strlen length]. destruct (Byte.eqb c x00) eqn:E.
  - apply Byte.byte_dec_bl in E. subst c. exfalso. apply H. now left.
  - rewrite IH by (intro; apply H; now right). lia.
Qed.

Lemma c_str_no_nul (s : list byte) : ~ In x00 s -> c_str s = s.
Proof.
  intro H. unfold c_str. rewrite strlen_no_nul by assumption.
  unfold len. rewrite Nat2Z.id. apply firstn_all.
Qed.

Lemma c_str_app_nul (s r : list byte) :
  ~ In x00 s -> c_str (s ++ x00 :: r) = s.
Proof.
  unfold c_str. induction s as [|c t IH]; intro H; [reflexivity|].
  cbn [app strlen]. destruct (Byte.eqb c x00) eqn:E.
  - apply Byte.byte_dec_bl in E. subst c. exfalso. apply H. now left.
  - pose proof (strlen_range (t ++ x00 :: r)).
    replace (Z.to_nat (1 + strlen (t ++ x00 :: r)))
      with (S (Z.to_nat (strlen (t ++ x00 :: r)))) by lia.
    cbn [firstn]. rewrite IH; [reflexivity|]. intro; apply H; now right.
Qed.

Lemma c_str_nul_free (s : list byte) : ~ In x00 (c_str s).
Proof.
  unfold c_str. induction s as [|c t IH]; [simpl; tauto|].
  cbn [strlen]. destruct (Byte.eqb c x00) eqn:E; [simpl; tauto|].
  pose proof (strlen_range t).
  replace (Z.to_nat (1 + strlen t)) with (S (Z.to_nat (strlen t))) by lia.
  cbn [firstn]. intros [->|H']; [discriminate E | now apply IH].
Qed.

(* ================================================================= *)
(** ** The shape of the buffer while a message is built

    At every point of [_ipset_operate] the buffer is the length field, the
    [L - 4] bytes written so far, and zeros up to [BUFF_SZ]. *)

Lemma len_attr_bytes (p : platform) (type : Z) (payload : list byte) :
  len (attr_bytes p type payload)
  = NETLINK_ALIGN (sizeof_ipset_netlink_attr + len payload).
Proof.
  unfold attr_bytes, sizeof_ipset_netlink_attr.
  rewrite !len_app, !len_host_bytes, len_zeros.
  pose proof (NETLINK_ALIGN_bounds (len payload)).
  rewrite (NETLINK_ALIGN_add 4) by reflexivity. lia.
Qed.

Lemma length_image (p : platform) (L : Z) (body : list byte) :
  shaped L body -> len (image p L body) = BUFF_SZ.
Proof.
  intros (HL & _ & Hb). unfold image.
  rewrite !len_app, len_host_bytes, len_zeros, Hb. lia.
Qed.

Lemma get_nlmsg_len_image (p : platform) (L : Z) (body : list byte) :
  shaped L body -> get_nlmsg_len p (image p L body) = L.
Proof.
  intros (HL & _). unfold get_nlmsg_len, image, nlmsg_len_off.
  rewrite load_front by apply length_host_bytes.
  apply host_value_small. unfold BUFF_SZ in HL. simpl. lia.
Qed.

Lemma set_nlmsg_len_image (p : platform) (L L' : Z) (rest : list byte) :
  set_nlmsg_len p L' (host_bytes p 4 L ++ rest)
  = Some (host_bytes p 4 L' ++ rest).
Proof.
  unfold set_nlmsg_len, nlmsg_len_off. apply store_front.
  now rewrite !len_host_bytes.
Qed.

Lemma datagram_image (p : platform) (L : Z) (body : list byte) :
  shaped L body -> datagram p (image p L body) = host_bytes p 4 L ++ body.
Proof.
  intro H. unfold datagram. rewrite get_nlmsg_len_image by assumption.
  destruct H as (HL & _ & Hb). unfold image. rewrite app_assoc.
  rewrite firstn_app.
  assert (Hlen : length (host_bytes p 4 L ++ body) = Z.to_nat L).
  { rewrite length_app, length_host_bytes. unfold len in Hb. lia. }
  rewrite <- Hlen, firstn_all, Nat.sub_diag, firstn_O. apply app_nil_r.
Qed.

Lemma get_nlmsg_len_image_raw (p : platform) (L : Z) (rest : list byte) :
  0 <= L < 4294967296 ->
  get_nlmsg_len p (host_bytes p 4 L ++ rest) = L.
Proof.
  intro HL. unfold get_nlmsg_len, nlmsg_len_off.
  rewrite load_front by apply length_host_bytes.
  apply host_value_small. simpl. lia.
Qed.

(** [_ipset_add_attr] appends one attribute behind what is written and moves
    the length to its aligned end. *)
Lemma add_attr_image (p : platform) (L : Z) (body : list byte)
    (type n : Z) (data : list byte) :
  shaped L body -> 0 <= n <= len data ->
  L + NETLINK_ALIGN (sizeof_ipset_netlink_attr + n) <= BUFF_SZ ->
  _ipset_add_attr p (image p L body) type n data
  = Some (image p (L + NETLINK_ALIGN (sizeof_ipset_netlink_attr + n))
            (body ++ attr_bytes p type (firstn (Z.to_nat n) data))).
Proof.
  intros Hs Hn Hfit. pose proof Hs as (HL & Hal & Hb).
  unfold BUFF_SZ, sizeof_ipset_netlink_attr in *.
  pose proof (NETLINK_ALIGN_bounds (4 + n)) as Hpad.
  set (payload := firstn (Z.to_nat n) data).
  assert (Hpl : len payload = n).
  { unfold payload, len in *. rewrite length_firstn. lia. }
  unfold _ipset_add_attr.
  rewrite get_nlmsg_len_image by assumption.
  rewrite (NETLINK_ALIGN_aligned L) by assumption.
  unfold u32, u16, sizeof_ipset_netlink_attr, attr_type_off, attr_len_off.
  change (NETLINK_ALIGN 4) with 4.
  rewrite (Z.mod_small L) by lia. rewrite (Z.mod_small (4 + n)) by lia.
  rewrite Z.add_0_r.
  (* the type field *)
  unfold image at 1. rewrite (app_assoc (host_bytes p 4 L) body).
  set (pre := host_bytes p 4 L ++ body).
  assert (Hpre : len pre = L).
  { unfold pre. rewrite len_app, len_host_bytes. lia. }
  rewrite store_zeros
    by (rewrite ?Hpre, ?len_host_bytes; unfold BUFF_SZ; lia).
  rewrite Hpre. replace (L + 2 - L) with 2 by lia.
  (* the length field *)
  rewrite (store_at pre (zeros (Z.to_nat 2)) _ (host_bytes p 2 (4 + n)))
    by (rewrite ?len_zeros, ?len_host_bytes; lia).
  (* the payload *)
  unfold memcpy.
  replace ((0 <=? n) && (n <=? len data)) with true
    by (symmetry; apply andb_true_intro; split; apply Z.leb_le; lia).
  fold payload.
  rewrite (app_assoc pre), (app_assoc (pre ++ _)).
  set (pre' := (pre ++ host_bytes p 2 (4 + n)) ++ host_bytes p 2 type).
  assert (Hpre' : len pre' = L + 4).
  { unfold pre'. rewrite !len_app, !len_host_bytes. lia. }
  rewrite <- Hpre'.
  rewrite store_zeros_next
    by (rewrite length_host_bytes, Hpl; unfold BUFF_SZ; lia).
  (* the new length *)
  unfold pre', pre. rewrite <- !app_assoc.
  rewrite get_nlmsg_len_image_raw, set_nlmsg_len_image.
  2: lia.
  unfold image, attr_bytes, sizeof_ipset_netlink_attr. fold payload.
  rewrite <- !app_assoc. rewrite Hpl.
  do 5 f_equal.
  rewrite <- zeros_app. f_equal.
  rewrite length_host_bytes.
  rewrite (NETLINK_ALIGN_add 4) in * by reflexivity.
  unfold len in Hpl. unfold BUFF_SZ. apply (f_equal zeros). lia.
Qed.

(** Opening a nested attribute reserves a header whose length is still 0. *)
Lemma nested_open_image (p : platform) (L : Z) (body : list byte) (type : Z) :
  shaped L body -> L + 4 <= BUFF_SZ ->
  nested_open p (image p L body) type
  = Some (L, image p (L + 4)
               (body ++ zeros 2
                  ++ host_bytes p 2 (Z.lor NLA_F_NESTED type))).
Proof.
  intros Hs Hfit. pose proof Hs as (HL & Hal & Hb).
  unfold BUFF_SZ in *. unfold nested_open.
  rewrite get_nlmsg_len_image by assumption.
  rewrite (NETLINK_ALIGN_aligned L) by assumption.
  unfold u32, sizeof_ipset_netlink_attr, attr_type_off.
  change (NETLINK_ALIGN 4) with 4. rewrite (Z.mod_small L) by lia.
  unfold image at 1. rewrite set_nlmsg_len_image.
  rewrite (app_assoc (host_bytes p 4 (L + 4)) body).
  set (pre := host_bytes p 4 (L + 4) ++ body).
  assert (Hpre : len pre = L).
  { unfold pre. rewrite len_app, len_host_bytes. lia. }
  rewrite store_zeros
    by (rewrite ?Hpre, ?len_host_bytes; unfold BUFF_SZ; lia).
  rewrite Hpre. replace (L + 2 - L) with 2 by lia.
  unfold pre, image. rewrite <- !app_assoc, length_host_bytes.
  do 6 f_equal. unfold BUFF_SZ. apply (f_equal zeros). lia.
Qed.

(** Closing it writes the distance from its header to the end of what is
    written. *)
Lemma nested_close_image (p : platform) (L : Z) (before rest : list byte)
    (nested : Z) :
  shaped L (before ++ zeros 2 ++ rest) -> nested = 4 + len before ->
  nested_close p (image p L (before ++ zeros 2 ++ rest)) nested
  = Some (image p L (before ++ host_bytes p 2 (L - nested) ++ rest)).
Proof.
  intros Hs ->. pose proof Hs as (HL & Hal & Hb).
  unfold BUFF_SZ in *. unfold nested_close.
  rewrite get_nlmsg_len_image by assumption.
  rewrite (NETLINK_ALIGN_aligned L) by assumption.
  unfold u32, attr_len_off. rewrite (Z.mod_small L) by lia.
  rewrite Z.add_0_r. unfold image.
  rewrite <- !app_assoc.
  rewrite (app_assoc (host_bytes p 4 L) before).
  rewrite store_at; [now rewrite <- !app_assoc| |].
  - rewrite len_app, len_host_bytes. lia.
  - now rewrite len_zeros, len_host_bytes.
Qed.

Lemma shaped_app (L : Z) (body more : list byte) :
  shaped L body -> len more mod 4 = 0 -> L + len more <= BUFF_SZ ->
  shaped (L + len more) (body ++ more).
Proof.
  intros (HL & Hal & Hb) Hm Hfit. pose proof (len_nonneg more).
  repeat split; try lia.
  - rewrite Z.add_mod, Hal, Hm by lia. reflexivity.
  - rewrite len_app. lia.
Qed.

Lemma init_headers_image (p : platform) (operate af : Z) :
  init_headers p operate af = Some (image p 20 (header_bytes p operate af)).
Proof.
  unfold init_headers, image, header_bytes, set_nlmsg_len, get_nlmsg_len,
    htons, host_bytes, host_value.
  destruct (endian p); cbn [le_bytes be_bytes rev app];
    generalize (byte_of_Z (Z.lor operate (Z.shiftl NFNL_SUBSYS_IPSET 8)));
    generalize (byte_of_Z (Z.lor operate (Z.shiftl NFNL_SUBSYS_IPSET 8) / 256));
    generalize (byte_of_Z af); intros; reflexivity.
Qed.

Lemma shaped_headers (p : platform) (operate af : Z) :
  shaped 20 (header_bytes p operate af).
Proof.
  unfold shaped, header_bytes, BUFF_SZ.
  rewrite !len_app, !len_host_bytes. repeat split; try lia; reflexivity.
Qed.

(* ================================================================= *)
(** ** The message in closed form *)

Lemma sizeof_ulong_cases (p : platform) :
  sizeof_ulong p = 4 \/ sizeof_ulong p = 8.
Proof. unfold sizeof_ulong. destruct (model p); auto. Qed.

Lemma len_timeout_object (p : platform) (timeout : Z) :
  len (timeout_object p timeout) = sizeof_ulong p.
Proof.
  unfold timeout_object. rewrite len_host_bytes.
  destruct (sizeof_ulong_cases p) as [-> | ->]; reflexivity.
Qed.

Lemma len_timeout_bytes (p : platform) (conf : Z) (ipsetname : list byte)
    (timeout : Z) :
  len (timeout_bytes p conf ipsetname timeout)
  = if emits_timeout conf ipsetname timeout
    then NETLINK_ALIGN (4 + sizeof_ulong p) else 0.
Proof.
  unfold timeout_bytes. destruct (emits_timeout conf ipsetname timeout).
  - now rewrite len_attr_bytes, len_timeout_object.
  - reflexivity.
Qed.

(** Arithmetic on aligned sizes: [NETLINK_ALIGN] is turned into a quotient
    and the quotients into linear constraints. *)
Ltac align_arith :=
  unfold shaped, BUFF_SZ, sizeof_ipset_netlink_attr in *;
  rewrite ?len_app, ?len_attr_bytes, ?len_host_bytes, ?len_zeros in *;
  unfold sizeof_ipset_netlink_attr in *;
  rewrite ?NETLINK_ALIGN_eq in *;
  repeat split;
  Z.div_mod_to_equations; lia.

Lemma len_header_bytes (p : platform) (operate af : Z) :
  len (header_bytes p operate af) = 16.
Proof.
  unfold header_bytes. rewrite !len_app, !len_host_bytes. reflexivity.
Qed.

Lemma len_setname_payload (s : list byte) :
  len (c_str s ++ [x00]) = strlen s + 1.
Proof. rewrite len_app, len_c_str. reflexivity. Qed.

(** The buffer [_ipset_operate] hands to [sendto], written out. *)
Theorem build_message_image (p : platform) (conf : Z)
    (ipsetname addr : list byte) (timeout operate af : Z) :
  strlen ipsetname < IPSET_MAXNAMELEN -> len addr <= IPV6_ADDR_LEN ->
  build_message p conf ipsetname addr (len addr) timeout operate af
  = Some (image p (message_length p conf ipsetname addr timeout)
            (message_body p conf ipsetname addr timeout operate af)).
Proof.
  unfold IPSET_MAXNAMELEN, IPV6_ADDR_LEN. intros Hname Haddr.
  pose proof (strlen_range ipsetname) as Hn.
  pose proof (len_nonneg addr) as Ha.
  pose proof (sizeof_ulong_cases p) as Hsz.
  unfold build_message.
  (* headers *)
  rewrite init_headers_image.
  set (H := header_bytes p operate af).
  assert (S0 : shaped 20 H) by apply shaped_headers.
  (* PROTOCOL *)
  set (A1 := attr_bytes p IPSET_ATTR_PROTOCOL [byte_of_Z IPSET_PROTOCOL]).
  rewrite (add_attr_image p 20 H)
    by first [assumption | unfold len; cbn [length]; lia
             | vm_compute; discriminate].
  change (firstn (Z.to_nat 1) [byte_of_Z IPSET_PROTOCOL])
    with [byte_of_Z IPSET_PROTOCOL].
  fold A1. change (20 + NETLINK_ALIGN (sizeof_ipset_netlink_attr + 1)) with 28.
  assert (S1 : shaped 28 (H ++ A1)).
  { unfold A1. pose proof (len_header_bytes p operate af). fold H in H0.
    unfold shaped, BUFF_SZ. rewrite len_app, len_attr_bytes, H0.
    repeat split; try lia; reflexivity. }
  (* SETNAME *)
  set (A2 := attr_bytes p IPSET_ATTR_SETNAME (c_str ipsetname ++ [x00])).
  assert (Hmem : 0 <= strlen ipsetname + 1 <= len (c_mem ipsetname)).
  { unfold c_mem. rewrite len_app. change (len [x00]) with 1. lia. }
  assert (Hfit2 : 28 + NETLINK_ALIGN (sizeof_ipset_netlink_attr
                                      + (strlen ipsetname + 1)) <= BUFF_SZ).
  { clear - Hname Hn. align_arith. }
  rewrite (add_attr_image p 28 (H ++ A1)) by assumption.
  rewrite firstn_c_mem. fold A2.
  set (l2 := NETLINK_ALIGN (sizeof_ipset_netlink_attr
                            + (strlen ipsetname + 1))).
  assert (Hl2 : len A2 = l2).
  { unfold A2, l2. now rewrite len_attr_bytes, len_setname_payload. }
  assert (Bl2 : 4 <= l2 <= 36 /\ l2 mod 4 = 0).
  { unfold l2. clear - Hname Hn. align_arith. }
  assert (S2 : shaped (28 + l2) ((H ++ A1) ++ A2)).
  { rewrite <- Hl2. apply shaped_app; [assumption| |]; rewrite Hl2;
      unfold BUFF_SZ; lia. }
  (* DATA and IP are opened *)
  rewrite nested_open_image by (try assumption; unfold BUFF_SZ; lia).
  set (B3 := (H ++ A1) ++ A2).
  set (D := host_bytes p 2 (Z.lor NLA_F_NESTED IPSET_ATTR_DATA)).
  assert (S3 : shaped (28 + l2 + 4) (B3 ++ zeros 2 ++ D)).
  { destruct S2 as (? & ? & Hb). unfold shaped, BUFF_SZ, D.
    rewrite !len_app, len_host_bytes, len_zeros. fold B3 in Hb.
    rewrite Hb. repeat split; try lia.
    rewrite Z.add_mod by lia. replace ((28 + l2) mod 4) with 0 by lia.
    reflexivity. }
  rewrite nested_open_image by (try assumption; unfold BUFF_SZ; lia).
  set (I := host_bytes p 2 (Z.lor NLA_F_NESTED IPSET_ATTR_IP)).
  set (B4 := B3 ++ zeros 2 ++ D).
  assert (S4 : shaped (28 + l2 + 4 + 4) (B4 ++ zeros 2 ++ I)).
  { destruct S3 as (? & ? & Hb). unfold shaped, BUFF_SZ, I.
    rewrite !len_app, len_host_bytes, len_zeros. fold B4 in Hb.
    rewrite Hb. repeat split; try lia.
    rewrite Z.add_mod by lia. replace ((28 + l2 + 4) mod 4) with 0 by lia.
    reflexivity. }
  (* the address *)
  fold (ipaddr_type af).
  set (A3 := attr_bytes p (ipaddr_type af) addr).
  set (l3 := NETLINK_ALIGN (sizeof_ipset_netlink_attr + len addr)).
  assert (Hl3 : len A3 = l3).
  { unfold A3, l3. now rewrite len_attr_bytes. }
  assert (Bl3 : 4 <= l3 <= 20 /\ l3 mod 4 = 0).
  { unfold l3. clear - Haddr Ha. align_arith. }
  rewrite add_attr_image by (try assumption; fold l3; unfold BUFF_SZ; lia).
  replace (firstn (Z.to_nat (len addr)) addr) with addr
    by (unfold len; rewrite Nat2Z.id; symmetry; apply firstn_all).
  fold A3 l3.
  (* IP is closed *)
  replace ((B4 ++ zeros 2 ++ I) ++ A3) with (B4 ++ zeros 2 ++ I ++ A3)
    by (now rewrite <- !app_assoc).
  assert (S5 : shaped (28 + l2 + 4 + 4 + l3) (B4 ++ zeros 2 ++ I ++ A3)).
  { replace (B4 ++ zeros 2 ++ I ++ A3) with ((B4 ++ zeros 2 ++ I) ++ A3)
      by (now rewrite <- !app_assoc).
    rewrite <- Hl3. apply shaped_app; [assumption| |]; rewrite Hl3;
      unfold BUFF_SZ; lia. }
  assert (HB4 : len B4 = 28 + l2).
  { destruct S3 as (_ & _ & Hb). fold B4 in Hb. lia. }
  rewrite nested_close_image by (try assumption; lia).
  replace (28 + l2 + 4 + 4 + l3 - (28 + l2 + 4)) with (4 + l3) by lia.
  set (IP := host_bytes p 2 (4 + l3) ++ I ++ A3).
  assert (S6 : shaped (28 + l2 + 4 + 4 + l3) (B4 ++ IP)).
  { destruct S5 as (? & ? & Hb). unfold shaped, IP.
    rewrite !len_app, ?len_host_bytes, ?len_zeros in *.
    repeat split; try assumption; lia. }
  (* TIMEOUT *)
  fold (emits_timeout conf ipsetname timeout).
  set (T := timeout_bytes p conf ipsetname timeout).
  set (l4 := if emits_timeout conf ipsetname timeout
             then NETLINK_ALIGN (4 + sizeof_ulong p) else 0).
  assert (Hl4 : len T = l4) by apply len_timeout_bytes.
  assert (Bl4 : 0 <= l4 <= 12 /\ l4 mod 4 = 0).
  { unfold l4. destruct (emits_timeout conf ipsetname timeout);
      [destruct Hsz as [-> | ->]; vm_compute; intuition congruence
      | vm_compute; intuition congruence]. }
  assert (ST : (if emits_timeout conf ipsetname timeout
                then
                  _ipset_add_attr p (image p (28 + l2 + 4 + 4 + l3) (B4 ++ IP))
                    (Z.lor IPSET_ATTR_TIMEOUT NLA_F_NET_BYTEORDER)
                    (sizeof_ulong p)
                    (host_bytes p (Z.to_nat (sizeof_ulong p)) (htonl p timeout))
                else Some (image p (28 + l2 + 4 + 4 + l3) (B4 ++ IP)))
               = Some (image p (28 + l2 + 4 + 4 + l3 + l4) ((B4 ++ IP) ++ T))).
  { unfold T, l4, timeout_bytes.
    destruct (emits_timeout conf ipsetname timeout).
    - fold (timeout_object p timeout).
      pose proof (len_timeout_object p timeout) as Hto.
      rewrite add_attr_image; try assumption.
      + replace (firstn (Z.to_nat (sizeof_ulong p)) (timeout_object p timeout))
          with (timeout_object p timeout)
          by (rewrite <- Hto; unfold len; rewrite Nat2Z.id;
              symmetry; apply firstn_all).
        reflexivity.
      + rewrite Hto. lia.
      + destruct Hsz as [-> | ->];
          change (NETLINK_ALIGN (sizeof_ipset_netlink_attr + 4)) with 8;
          change (NETLINK_ALIGN (sizeof_ipset_netlink_attr + 8)) with 12;
          unfold BUFF_SZ; lia.
    - now rewrite Z.add_0_r, app_nil_r. }
  rewrite ST. clear ST.
  (* DATA is closed *)
  unfold B4 at 1.
  replace (((B3 ++ zeros 2 ++ D) ++ IP) ++ T)
    with (B3 ++ zeros 2 ++ D ++ IP ++ T) by (now rewrite <- !app_assoc).
  assert (S7 : shaped (28 + l2 + 4 + 4 + l3 + l4)
                 (B3 ++ zeros 2 ++ D ++ IP ++ T)).
  { replace (B3 ++ zeros 2 ++ D ++ IP ++ T) with ((B4 ++ IP) ++ T)
      by (unfold B4; now rewrite <- !app_assoc).
    rewrite <- Hl4. apply shaped_app; [assumption| |]; rewrite Hl4;
      unfold BUFF_SZ; lia. }
  assert (HB3 : len B3 = 24 + l2).
  { destruct S2 as (_ & _ & Hb). fold B3 in Hb. lia. }
  rewrite nested_close_image by (try assumption; lia).
  (* both sides are the same bytes *)
  f_equal. unfold message_length, message_body, attrs_bytes, data_bytes,
    ip_bytes.
  fold A1 A2 A3 T I D H l4. unfold sizeof_ipset_netlink_attr in l2, l3.
  fold l2 l3. rewrite !len_app, !len_host_bytes, Hl3, Hl4.
  unfold B3, IP. rewrite <- !app_assoc.
  assert (HI : len I = 2) by (unfold I; now rewrite len_host_bytes).
  replace (20 + 8 + l2 + 4 + 4 + l3 + l4) with (28 + l2 + 4 + 4 + l3 + l4)
    by lia.
  replace (4 + (Z.of_nat 2 + (len I + l3)) + l4)
    with (28 + l2 + 4 + 4 + l3 + l4 - (28 + l2)) by lia.
  reflexivity.
Qed.

(* ================================================================= *)
(** ** Walking the attributes of a message *)

Lemma firstn_exact (k : nat) (a c : list byte) :
  length a = k -> firstn k (a ++ c) = a.
Proof.
  intros <-. now rewrite firstn_app, Nat.sub_diag, firstn_all, firstn_O,
    app_nil_r.
Qed.

Lemma skipn_exact (k : nat) (a c : list byte) :
  length a = k -> skipn k (a ++ c) = c.
Proof.
  intros <-. now rewrite skipn_app, skipn_all, Nat.sub_diag, skipn_O.
Qed.

Lemma walk_nil (p : platform) (fuel : nat) (base : Z) :
  walk p fuel base [] = [].
Proof.
  destruct fuel; [reflexivity|]. cbn [walk firstn skipn].
  unfold host_value, be_value. destruct (endian p); reflexivity.
Qed.

(** The walk reads one encoded attribute and goes on behind its padding. *)
Lemma walk_attr (p : platform) (fuel : nat) (base type : Z)
    (payload rest : list byte) :
  (0 < fuel)%nat -> 0 <= type < 65536 -> len payload < 65532 ->
  walk p fuel base (attr_bytes p type payload ++ rest)
  = Attr base type (4 + len payload) payload
    :: walk p (pred fuel) (base + NETLINK_ALIGN (4 + len payload)) rest.
Proof.
  intros Hfuel Htype Hlen. destruct fuel as [|fuel]; [lia|].
  pose proof (len_nonneg payload) as Hp.
  pose proof (NETLINK_ALIGN_bounds (len payload)) as Hpad.
  cbn [walk pred]. unfold attr_bytes, sizeof_ipset_netlink_attr.
  rewrite <- !app_assoc.
  set (n := 4 + len payload).
  set (tail := zeros (Z.to_nat (NETLINK_ALIGN (len payload) - len payload))
               ++ rest).
  rewrite (firstn_exact 2 (host_bytes p 2 n)) by apply length_host_bytes.
  rewrite (skipn_exact 2 (host_bytes p 2 n)) by apply length_host_bytes.
  rewrite (firstn_exact 2 (host_bytes p 2 type)) by apply length_host_bytes.
  rewrite !host_value_small by (simpl; lia).
  replace ((4 <=? n)
           && (n <=? len (host_bytes p 2 n ++ host_bytes p 2 type
                          ++ payload ++ tail))) with true.
  2:{ symmetry. apply andb_true_intro. split; apply Z.leb_le; [lia|].
      rewrite !len_app, !len_host_bytes. pose proof (len_nonneg tail). lia. }
  f_equal.
  - f_equal.
    rewrite (app_assoc (host_bytes p 2 n)).
    rewrite skipn_exact by (rewrite length_app, !length_host_bytes; lia).
    apply firstn_exact. unfold n, len. lia.
  - f_equal. unfold tail.
    rewrite (app_assoc (host_bytes p 2 n)), (app_assoc _ payload),
      (app_assoc _ (zeros _)).
    apply skipn_exact.
    rewrite !length_app, !length_host_bytes. unfold zeros.
    rewrite repeat_length. unfold n.
    rewrite (NETLINK_ALIGN_add 4) by reflexivity. unfold len in *. lia.
Qed.

(** A nested attribute is an attribute whose payload is its contents: these
    are aligned, so no padding follows. *)
Lemma nested_attr_bytes (p : platform) (type : Z) (contents : list byte) :
  len contents mod 4 = 0 ->
  host_bytes p 2 (4 + len contents) ++ host_bytes p 2 type ++ contents
  = attr_bytes p type contents.
Proof.
  intro H. unfold attr_bytes, sizeof_ipset_netlink_attr.
  rewrite NETLINK_ALIGN_aligned by assumption.
  rewrite Z.sub_diag. simpl. now rewrite app_nil_r.
Qed.

Lemma len_attr_mod (p : platform) (type : Z) (payload : list byte) :
  len (attr_bytes p type payload) mod 4 = 0.
Proof. rewrite len_attr_bytes. apply NETLINK_ALIGN_mod. Qed.

Lemma len_timeout_mod (p : platform) (conf : Z) (ipsetname : list byte)
    (timeout : Z) :
  len (timeout_bytes p conf ipsetname timeout) mod 4 = 0.
Proof.
  unfold timeout_bytes. destruct (emits_timeout conf ipsetname timeout);
    [apply len_attr_mod | reflexivity].
Qed.

Lemma ip_bytes_attr (p : platform) (af : Z) (addr : list byte) :
  ip_bytes p af addr
  = attr_bytes p (Z.lor NLA_F_NESTED IPSET_ATTR_IP)
      (attr_bytes p (ipaddr_type af) addr).
Proof. unfold ip_bytes. apply nested_attr_bytes, len_attr_mod. Qed.

Lemma data_bytes_attr (p : platform) (conf : Z) (ipsetname addr : list byte)
    (timeout af : Z) :
  data_bytes p conf ipsetname addr timeout af
  = attr_bytes p (Z.lor NLA_F_NESTED IPSET_ATTR_DATA)
      (ip_bytes p af addr ++ timeout_bytes p conf ipsetname timeout).
Proof.
  unfold data_bytes.
  rewrite <- nested_attr_bytes.
  - rewrite len_app, Z.add_assoc. reflexivity.
  - rewrite len_app, Z.add_mod by lia.
    rewrite ip_bytes_attr, len_attr_mod, len_timeout_mod. reflexivity.
Qed.

(** The walk over a request finds the attributes of the layout. *)
Section Layout.

Variable p : platform.
Variable conf : Z.
Variables ipsetname addr : list byte.
Variables timeout operate af : Z.

Hypothesis Hname : strlen ipsetname < IPSET_MAXNAMELEN.
Hypothesis Haddr : len addr <= IPV6_ADDR_LEN.

Lemma ipaddr_type_range : 0 <= ipaddr_type af < 65536.
Proof.
  unfold ipaddr_type. destruct (af =? AF_INET); vm_compute;
    intuition congruence.
Qed.

Lemma walk_timeout (fuel : nat) (base : Z) :
  (0 < fuel)%nat ->
  walk p fuel base (timeout_bytes p conf ipsetname timeout)
  = if emits_timeout conf ipsetname timeout
    then [Attr base (Z.lor IPSET_ATTR_TIMEOUT NLA_F_NET_BYTEORDER)
            (4 + sizeof_ulong p) (timeout_object p timeout)]
    else [].
Proof.
  intro Hfuel. unfold timeout_bytes.
  destruct (emits_timeout conf ipsetname timeout); [|apply walk_nil].
  pose proof (len_timeout_object p timeout) as Hto.
  pose proof (sizeof_ulong_cases p) as Hsz.
  rewrite <- (app_nil_r (attr_bytes _ _ _)).
  rewrite walk_attr; [| assumption | vm_compute; intuition congruence | lia].
  now rewrite walk_nil, Hto.
Qed.

Lemma children_ip :
  children p (ip_attr p ipsetname addr af) = [ipaddr_attr ipsetname addr af].
Proof.
  unfold children, ip_attr, ipaddr_attr, IPV6_ADDR_LEN in *.
  cbn [a_payload a_off]. pose proof (len_nonneg addr) as Ha.
  pose proof (len_attr_bytes p (ipaddr_type af) addr) as Hl.
  pose proof (NETLINK_ALIGN_bounds (sizeof_ipset_netlink_attr + len addr)).
  unfold sizeof_ipset_netlink_attr in *.
  rewrite <- (app_nil_r (attr_bytes _ _ _)) at 2.
  rewrite walk_attr; [| unfold len in *; lia | apply ipaddr_type_range | lia].
  rewrite walk_nil. do 2 f_equal. lia.
Qed.

Lemma children_data :
  children p (data_attr p conf ipsetname addr timeout af)
  = ip_attr p ipsetname addr af :: timeout_attrs p conf ipsetname addr timeout.
Proof.
  unfold children, data_attr, ip_attr, timeout_attrs, timeout_attr,
    IPV6_ADDR_LEN in *.
  cbn [a_payload a_off]. pose proof (len_nonneg addr) as Ha.
  pose proof (len_attr_bytes p (ipaddr_type af) addr) as Hl.
  pose proof (NETLINK_ALIGN_bounds (sizeof_ipset_netlink_attr + len addr)).
  pose proof (len_nonneg (timeout_bytes p conf ipsetname timeout)).
  unfold sizeof_ipset_netlink_attr in *.
  rewrite ip_bytes_attr.
  assert (Hfuel : (1 < length (attr_bytes p (Z.lor NLA_F_NESTED IPSET_ATTR_IP)
                                 (attr_bytes p (ipaddr_type af) addr)
                               ++ timeout_bytes p conf ipsetname timeout))%nat).
  { rewrite length_app.
    pose proof (len_attr_bytes p (Z.lor NLA_F_NESTED IPSET_ATTR_IP)
                  (attr_bytes p (ipaddr_type af) addr)) as Hl'.
    pose proof (NETLINK_ALIGN_bounds
                  (sizeof_ipset_netlink_attr
                   + len (attr_bytes p (ipaddr_type af) addr))).
    unfold len, sizeof_ipset_netlink_attr in *. lia. }
  rewrite walk_attr; [| lia | vm_compute; intuition congruence | lia].
  f_equal. rewrite walk_timeout by lia.
  destruct (emits_timeout conf ipsetname timeout); [|reflexivity].
  do 2 f_equal. rewrite Hl.
  rewrite (NETLINK_ALIGN_add 4 (NETLINK_ALIGN (4 + len addr)))
    by reflexivity.
  rewrite (NETLINK_ALIGN_aligned (NETLINK_ALIGN (4 + len addr)))
    by apply NETLINK_ALIGN_mod.
  lia.
Qed.

Lemma shaped_message :
  shaped (message_length p conf ipsetname addr timeout)
    (message_body p conf ipsetname addr timeout operate af).
Proof.
  pose proof (strlen_range ipsetname). pose proof (len_nonneg addr).
  pose proof (sizeof_ulong_cases p) as Hsz.
  unfold shaped, message_length, message_body, attrs_bytes.
  rewrite data_bytes_attr, ip_bytes_attr.
  rewrite len_app, len_header_bytes.
  rewrite len_app, len_attr_bytes.
  rewrite len_app, len_attr_bytes, len_setname_payload.
  rewrite len_attr_bytes, len_app, !len_attr_bytes, len_timeout_bytes.
  change (len [byte_of_Z IPSET_PROTOCOL]) with 1.
  unfold IPSET_MAXNAMELEN, IPV6_ADDR_LEN in *.
  destruct (emits_timeout conf ipsetname timeout);
    [destruct Hsz as [-> | ->]|]; align_arith.
Qed.

Lemma attributes_image :
  attributes p (image p (message_length p conf ipsetname addr timeout)
                  (message_body p conf ipsetname addr timeout operate af))
  = [protocol_attr; setname_attr ipsetname;
     data_attr p conf ipsetname addr timeout af].
Proof.
  pose proof shaped_message as Hs.
  unfold attributes. rewrite datagram_image by assumption.
  unfold message_body. rewrite (app_assoc (host_bytes p 4 _)).
  change (Z.to_nat attrs_offset) with 20%nat.
  rewrite skipn_exact
    by (rewrite length_app, length_host_bytes;
        pose proof (len_header_bytes p operate af) as Hh;
        unfold len in Hh; lia).
  pose proof (length_image p _ _ Hs) as H256. unfold len, BUFF_SZ in H256.
  replace (length (image p (message_length p conf ipsetname addr timeout)
              (header_bytes p operate af
               ++ attrs_bytes p conf ipsetname addr timeout af)))
    with 256%nat by (unfold message_body in H256; lia).
  unfold attrs_bytes. rewrite data_bytes_attr.
  pose proof (strlen_range ipsetname) as Hn.
  unfold IPSET_MAXNAMELEN in *.
  rewrite walk_attr;
    [| lia | vm_compute; intuition congruence | vm_compute; reflexivity].
  rewrite walk_attr;
    [| simpl; lia | vm_compute; intuition congruence
     | rewrite len_setname_payload; lia].
  rewrite <- (app_nil_r (attr_bytes _ _ (_ ++ _))).
  rewrite walk_attr; [| simpl; lia | vm_compute; intuition congruence |].
  2:{ rewrite len_app, ip_bytes_attr, !len_attr_bytes, len_timeout_bytes.
      pose proof (len_nonneg addr). unfold IPV6_ADDR_LEN in *.
      pose proof (sizeof_ulong_cases p) as Hsz.
      destruct (emits_timeout conf ipsetname timeout);
        [destruct Hsz as [-> | ->]|]; clear Hs; align_arith. }
  rewrite walk_nil. unfold protocol_attr, setname_attr, data_attr.
  rewrite len_setname_payload.
  change (20 + NETLINK_ALIGN (4 + len [byte_of_Z IPSET_PROTOCOL])) with 28.
  change (4 + len [byte_of_Z IPSET_PROTOCOL]) with 5.
  reflexivity.
Qed.

End Layout.

(* ================================================================= *)
(** ** The request [_ipset_operate] builds *)

Lemma socket_init_conf (e : env) (w : world) :
  dns_conf_ipset_timeout_enable (snd (_ipset_socket_init e w))
  = dns_conf_ipset_timeout_enable w.
Proof.
  unfold _ipset_socket_init, sys_socket, answer.
  destruct (0 <? ipset_fd w); [reflexivity|].
  destruct (socket_reply e (calls is_socket w)) as [n|c];
    cbn [set_ipset_fd ipset_fd];
    [destruct (Z.of_N n <? 0) | destruct (-1 <? 0)]; reflexivity.
Qed.

Lemma socket_ready_open (e : env) (w : world) :
  0 < ipset_fd w -> _ipset_socket_init e w = (0, w).
Proof.
  intro H. unfold _ipset_socket_init.
  now replace (0 <? ipset_fd w) with true by (symmetry; now apply Z.ltb_lt).
Qed.

Lemma valid_address_len (addr : list byte) :
  valid_address addr -> len addr <= IPV6_ADDR_LEN.
Proof. unfold valid_address, IPV4_ADDR_LEN, IPV6_ADDR_LEN. lia. Qed.

(** With valid arguments and a socket, the part before the loop ends with
    the buffer of the request; nothing is written outside the buffer. *)
Theorem operate_build_request (p : platform) (e : env) (w : world)
    (ipsetname addr : list byte) (timeout operate : Z) :
  valid_address addr -> valid_name ipsetname -> socket_ready e w ->
  _ipset_operate_build p e w ipsetname addr (len addr) timeout operate
  = (inr (request_buffer p (dns_conf_ipset_timeout_enable w)
            ipsetname addr timeout operate),
     snd (_ipset_socket_init e w)).
Proof.
  intros Ha Hn Hs. unfold _ipset_operate_build, socket_ready in *.
  pose proof (socket_init_conf e w) as Hc.
  destruct (_ipset_socket_init e w) as [r w'] eqn:E. cbn [fst snd] in *.
  subst r. cbn [Z.eqb negb].
  replace (IPSET_MAXNAMELEN <=? strlen ipsetname) with false
    by (symmetry; apply Z.leb_gt; exact Hn).
  rewrite Hc. unfold request_buffer, family_of.
  pose proof (valid_address_len addr Ha) as Hl.
  destruct Ha as [Ha | Ha].
  - replace (len addr =? IPV4_ADDR_LEN) with true
      by (symmetry; apply Z.eqb_eq; exact Ha).
    cbn [negb andb]. now rewrite build_message_image by assumption.
  - replace (len addr =? IPV4_ADDR_LEN) with false
      by (rewrite Ha; reflexivity).
    replace (len addr =? IPV6_ADDR_LEN) with true
      by (symmetry; apply Z.eqb_eq; exact Ha).
    cbn [negb andb]. now rewrite build_message_image by assumption.
Qed.

(** Every attribute of a request, in the order of the buffer. *)
Lemma all_attributes_image (p : platform) (conf : Z)
    (ipsetname addr : list byte) (timeout operate af : Z) :
  strlen ipsetname < IPSET_MAXNAMELEN -> len addr <= IPV6_ADDR_LEN ->
  all_attributes p
    (image p (message_length p conf ipsetname addr timeout)
       (message_body p conf ipsetname addr timeout operate af))
  = [protocol_attr; setname_attr ipsetname;
     data_attr p conf ipsetname addr timeout af;
     ip_attr p ipsetname addr af; ipaddr_attr ipsetname addr af]
    ++ timeout_attrs p conf ipsetname addr timeout.
Proof.
  intros Hn Ha. unfold all_attributes.
  rewrite attributes_image by assumption.
  cbn [flatten flat_map app].
  change (is_nested protocol_attr) with false.
  change (is_nested (setname_attr ipsetname)) with false.
  change (is_nested (data_attr p conf ipsetname addr timeout af)) with true.
  cbv iota. rewrite children_data by assumption.
  cbn [flat_map app].
  change (is_nested (ip_attr p ipsetname addr af)) with true.
  cbv iota. rewrite children_ip by assumption.
  rewrite !app_nil_r. cbn [app]. do 5 f_equal.
  unfold timeout_attrs.
  destruct (emits_timeout conf ipsetname timeout); reflexivity.
Qed.

(* ================================================================= *)
(** ** What a reader finds in the TIMEOUT attribute *)

Lemma le_bytes_app (n m : nat) (v : Z) :
  le_bytes (n + m) v = le_bytes n v ++ le_bytes m (v / 256 ^ Z.of_nat n).
Proof.
  revert v. induction n as [|n IH]; intro v.
  - cbn [Nat.add le_bytes app]. now rewrite Z.pow_0_r, Z.div_1_r.
  - cbn [Nat.add le_bytes app]. rewrite IH. do 3 f_equal.
    rewrite Nat2Z.inj_succ, Z.pow_succ_r by lia.
    rewrite Z.div_div by lia. reflexivity.
Qed.

Lemma le_bytes_zero (n : nat) : le_bytes n 0 = zeros n.
Proof.
  induction n as [|n IH]; [reflexivity|].
  cbn [le_bytes]. change (0 / 256) with 0. rewrite IH. reflexivity.
Qed.

Lemma timeout_object_ILP32 (p : platform) (timeout : Z) :
  model p = ILP32 -> timeout_object p timeout = be_bytes 4 timeout.
Proof.
  intro H. unfold timeout_object, sizeof_ulong. rewrite H.
  apply host_bytes_htonl.
Qed.

Lemma timeout_object_LP64_LE (timeout : Z) :
  timeout_object (Platform LittleEndian LP64) timeout
  = be_bytes 4 timeout ++ zeros 4.
Proof.
  unfold timeout_object, sizeof_ulong, htonl, host_bytes, host_value.
  cbn [endian model].
  change (Z.to_nat 8) with (4 + 4)%nat. rewrite le_bytes_app.
  rewrite <- (length_be_bytes 4 timeout) at 1.
  rewrite le_bytes_le_value. f_equal.
  pose proof (le_value_range (be_bytes 4 timeout)) as Hr.
  unfold len in Hr. rewrite length_be_bytes in Hr.
  rewrite Z.div_small by exact Hr. apply le_bytes_zero.
Qed.

Lemma timeout_object_LP64_BE (timeout : Z) :
  timeout_object (Platform BigEndian LP64) timeout
  = zeros 4 ++ be_bytes 4 timeout.
Proof.
  unfold timeout_object, sizeof_ulong, htonl, host_bytes, host_value.
  cbn [endian model]. rewrite be_value_be_bytes.
  unfold be_bytes at 1.
  change (Z.to_nat 8) with (4 + 4)%nat. rewrite le_bytes_app.
  pose proof (Z.mod_pos_bound timeout (256 ^ Z.of_nat 4) ltac:(simpl; lia)).
  rewrite Z.div_small by assumption.
  rewrite le_bytes_zero, rev_app_distr. f_equal.
  unfold be_bytes. f_equal.
  rewrite <- (length_le_bytes 4 timeout) at 1.
  rewrite <- le_value_le_bytes. apply le_bytes_le_value.
Qed.

(** Where [unsigned long] has 4 bytes the reader finds the seconds. *)
Lemma wire_timeout_ILP32 (p : platform) (timeout : Z) :
  model p = ILP32 -> wire_timeout p timeout = timeout mod 2 ^ 32.
Proof.
  intro H. unfold wire_timeout. rewrite timeout_object_ILP32 by assumption.
  rewrite <- (length_be_bytes 4 timeout) at 1. rewrite firstn_all.
  apply be_value_be_bytes.
Qed.

(** Where it has 8 bytes and the host is little-endian, the seconds are
    followed by four bytes of zero. *)
Lemma wire_timeout_LP64_LE (timeout : Z) :
  wire_timeout (Platform LittleEndian LP64) timeout = timeout mod 2 ^ 32.
Proof.
  unfold wire_timeout. rewrite timeout_object_LP64_LE.
  rewrite firstn_exact by apply length_be_bytes.
  apply be_value_be_bytes.
Qed.

(** Where it has 8 bytes and the host is big-endian, the four bytes of zero
    come first. *)
Lemma wire_timeout_LP64_BE (timeout : Z) :
  wire_timeout (Platform BigEndian LP64) timeout = 0.
Proof.
  unfold wire_timeout. rewrite timeout_object_LP64_BE.
  now rewrite firstn_exact by reflexivity.
Qed.

(* ================================================================= *)
(** ** Parsing a request back *)

Lemma load_type_image (p : platform) (L : Z) (operate af : Z)
    (rest : list byte) :
  load nlmsg_type_off 2 (image p L (header_bytes p operate af ++ rest))
  = host_bytes p 2 (Z.lor operate (Z.shiftl NFNL_SUBSYS_IPSET 8)).
Proof.
  unfold load, image, header_bytes, nlmsg_type_off.
  change (Z.to_nat 4) with 4%nat.
  rewrite skipn_exact by apply length_host_bytes.
  rewrite <- !app_assoc. apply firstn_exact, length_host_bytes.
Qed.

Lemma load_family_image (p : platform) (L : Z) (operate af : Z)
    (rest : list byte) :
  load (NETLINK_ALIGN sizeof_nlmsghdr) 1
    (image p L (header_bytes p operate af ++ rest))
  = [byte_of_Z af].
Proof.
  unfold load, image, header_bytes.
  change (Z.to_nat (NETLINK_ALIGN sizeof_nlmsghdr)) with 16%nat.
  rewrite <- !app_assoc.
  rewrite (app_assoc (host_bytes p 4 L)), (app_assoc (_ ++ _) (host_bytes _ _ _)),
    (app_assoc (_ ++ _) (zeros 8)).
  rewrite skipn_exact; [reflexivity|].
  rewrite !length_app, !length_host_bytes. reflexivity.
Qed.

Theorem parse_message_request (p : platform) (conf : Z)
    (ipsetname addr : list byte) (timeout operate : Z) :
  valid_name ipsetname -> valid_address addr -> operation_code operate ->
  parse_message p (request_buffer p conf ipsetname addr timeout operate)
  = Some (Request operate (family_of (len addr)) (c_str ipsetname)
            (ipaddr_type (family_of (len addr))) addr
            (if emits_timeout conf ipsetname timeout
             then Some (wire_timeout p timeout) else None)).
Proof.
  intros Hn Ha Hop. pose proof (valid_address_len addr Ha) as Hl.
  unfold valid_name in Hn. unfold parse_message, request_buffer.
  rewrite attributes_image by assumption.
  unfold find_attr at 1 2. cbn [find].
  change (attr_kind protocol_attr =? IPSET_ATTR_SETNAME) with false.
  change (attr_kind (setname_attr ipsetname) =? IPSET_ATTR_SETNAME) with true.
  change (attr_kind protocol_attr =? IPSET_ATTR_DATA) with false.
  change (attr_kind (setname_attr ipsetname) =? IPSET_ATTR_DATA) with false.
  change (attr_kind (data_attr p conf ipsetname addr timeout
                       (family_of (len addr))) =? IPSET_ATTR_DATA) with true.
  cbv iota. rewrite children_data by assumption.
  unfold find_attr at 1. cbn [find].
  change (attr_kind (ip_attr p ipsetname addr (family_of (len addr)))
          =? IPSET_ATTR_IP) with true.
  cbv iota. rewrite children_ip by assumption. cbn [hd_error].
  unfold message_body. rewrite load_type_image, load_family_image.
  cbn [hd]. f_equal.
  assert (Hop' : Z.land (host_value p (host_bytes p 2
                   (Z.lor operate (Z.shiftl NFNL_SUBSYS_IPSET 8)))) 255
                 = operate).
  { rewrite host_value_bytes. destruct Hop as [-> | ->]; reflexivity. }
  assert (Hfam : Z_of_byte (byte_of_Z (family_of (len addr)))
                 = family_of (len addr)).
  { rewrite Z_of_byte_of_Z. unfold family_of.
    destruct (len addr =? IPV4_ADDR_LEN); reflexivity. }
  assert (Hname : c_str (a_payload (setname_attr ipsetname)) = c_str ipsetname).
  { unfold setname_attr. cbn [a_payload].
    apply c_str_app_nul, c_str_nul_free. }
  assert (Hto : option_map (fun a => be_value (firstn 4 (a_payload a)))
                  (find_attr IPSET_ATTR_TIMEOUT
                     (ip_attr p ipsetname addr (family_of (len addr))
                      :: timeout_attrs p conf ipsetname addr timeout))
                = if emits_timeout conf ipsetname timeout
                  then Some (wire_timeout p timeout) else None).
  { unfold find_attr. cbn [find].
    change (attr_kind (ip_attr p ipsetname addr (family_of (len addr)))
            =? IPSET_ATTR_TIMEOUT) with false.
    cbv iota. unfold timeout_attrs.
    destruct (emits_timeout conf ipsetname timeout); [|reflexivity].
    cbn [find].
    change (attr_kind (timeout_attr p ipsetname addr timeout)
            =? IPSET_ATTR_TIMEOUT) with true.
    reflexivity. }
  rewrite Hop', Hfam, Hname, Hto. reflexivity.
Qed.


(** With valid arguments and a socket, [_ipset_operate] is the send loop on
    the request's datagram. *)
Theorem operate_transmits (p : platform) (e : env) (fuel : nat) (w : world)
    (ipsetname addr : list byte) (timeout operate : Z) :
  valid_address addr -> valid_name ipsetname -> socket_ready e w ->
  _ipset_operate p e fuel w ipsetname addr (len addr) timeout operate
  = transmit fuel e (snd (_ipset_socket_init e w))
      (datagram p (request_buffer p (dns_conf_ipset_timeout_enable w)
                     ipsetname addr timeout operate)).
Proof.
  intros Ha Hn Hs. unfold _ipset_operate.
  now rewrite operate_build_request by assumption.
Qed.

(** A length other than 4 and 16 ends the call at once. *)
Lemma operate_invalid_address (p : platform) (e : env) (fuel : nat)
    (w : world) (ipsetname addr : list byte) (addr_len timeout operate : Z) :
  addr_len <> IPV4_ADDR_LEN -> addr_len <> IPV6_ADDR_LEN ->
  _ipset_operate p e fuel w ipsetname addr addr_len timeout operate
  = Some (InvalidAddress, set_errno EINVAL w).
Proof.
  intros H4 H16. unfold _ipset_operate, _ipset_operate_build.
  apply Z.eqb_neq in H4, H16. rewrite H4, H16. reflexivity.
Qed.

Lemma address_check_passes (addr : list byte) :
  valid_address addr ->
  negb (len addr =? IPV4_ADDR_LEN) && negb (len addr =? IPV6_ADDR_LEN) = false
  /\ (if len addr =? IPV4_ADDR_LEN then Some AF_INET
      else if len addr =? IPV6_ADDR_LEN then Some AF_INET6 else None)
     = Some (family_of (len addr)).
Proof.
  unfold family_of. intros [H | H]; rewrite H; split; reflexivity.
Qed.

(** The part before the loop, once the address length is accepted. *)
Lemma operate_build_valid_address (p : platform) (e : env) (w : world)
    (ipsetname addr : list byte) (timeout operate : Z) :
  valid_address addr ->
  _ipset_operate_build p e w ipsetname addr (len addr) timeout operate
  = let '(r, w) := _ipset_socket_init e w in
    if negb (r =? 0) then (inl SocketError, w)
    else if IPSET_MAXNAMELEN <=? strlen ipsetname
    then (inl NameTooLong, set_errno ENAMETOOLONG w)
    else
      match build_message p (dns_conf_ipset_timeout_enable w) ipsetname
              addr (len addr) timeout operate (family_of (len addr)) with
      | None => (inl Overrun, w)
      | Some buf => (inr buf, w)
      end.
Proof.
  intro Ha. destruct (address_check_passes addr Ha) as (H1 & H2).
  unfold _ipset_operate_build. rewrite H1, H2. reflexivity.
Qed.

Lemma transmit_sent (fuel : nat) (e : env) (w w' : world) (msg : list byte)
    (o : outcome) :
  transmit fuel e w msg = Some (o, w') -> exists rc, o = Sent rc.
Proof.
  unfold transmit. destruct (send_loop fuel e w msg) as [[rc w1]|];
    [|discriminate].
  intro H. inversion H. now exists (int_of_ssize rc).
Qed.

(** X1. With the length that goes with the address, no call writes outside the
    buffer. *)
Theorem operate_never_overruns (p : platform) (e : env) (fuel : nat)
    (w w' : world) (ipsetname addr : list byte) (timeout operate : Z) :
  _ipset_operate p e fuel w ipsetname addr (len addr) timeout operate
  <> Some (Overrun, w').
Proof.
  destruct (Z.eq_dec (len addr) IPV4_ADDR_LEN) as [H4 | H4];
    [|destruct (Z.eq_dec (len addr) IPV6_ADDR_LEN) as [H16 | H16]].
  3:{ rewrite operate_invalid_address by assumption. discriminate. }
  all: assert (Ha : valid_address addr) by (unfold valid_address; tauto).
  all: pose proof (valid_address_len addr Ha) as Hl.
  all: unfold _ipset_operate.
  all: rewrite operate_build_valid_address by assumption.
  all: destruct (_ipset_socket_init e w) as [r w1].
  all: destruct (negb (r =? 0)); [discriminate|].
  all: destruct (Z.leb_spec IPSET_MAXNAMELEN (strlen ipsetname)) as [Hn | Hn];
    [discriminate|].
  all: rewrite build_message_image by assumption.
  all: intro H; apply transmit_sent in H; destruct H as (rc & H);
    discriminate.
Qed.

(** The datagram of add for blocklist and 192.168.1.1 without timeout, on a
    little-endian and on a big-endian platform. *)
Example datagram_blocklist_le :
  option_map (datagram le32)
    (build_message le32 0 blocklist ipv4_example 4 0 IPSET_ADD AF_INET)
  = Some
      [x3c; x00; x00; x00;  x09; x06;  x01; x01;
       x00; x00; x00; x00;  x00; x00; x00; x00;
       x02; x00; x00; x00;
       x05; x00; x01; x00;  x06; x00; x00; x00;
       x0e; x00; x02; x00;
       x62; x6c; x6f; x63; x6b; x6c; x69; x73; x74; x00; x00; x00;
       x10; x00; x07; x80;
       x0c; x00; x01; x80;
       x08; x00; x01; x40;  xc0; xa8; x01; x01].
Proof. vm_compute. reflexivity. Qed.

Example datagram_blocklist_be :
  option_map (datagram be32)
    (build_message be32 0 blocklist ipv4_example 4 0 IPSET_ADD AF_INET)
  = Some
      [x00; x00; x00; x3c;  x06; x09;  x01; x01;
       x00; x00; x00; x00;  x00; x00; x00; x00;
       x02; x00; x00; x00;
       x00; x05; x00; x01;  x06; x00; x00; x00;
       x00; x0e; x00; x02;
       x62; x6c; x6f; x63; x6b; x6c; x69; x73; x74; x00; x00; x00;
       x00; x10; x80; x07;
       x00; x0c; x80; x01;
       x00; x08; x40; x01;  xc0; xa8; x01; x01].
Proof. vm_compute. reflexivity. Qed.

(** The 8 bytes behind the header of TIMEOUT for 30 seconds, by platform. *)
Example timeout_objects :
  timeout_object le32 30 = [x00; x00; x00; x1e]
  /\ timeout_object be32 30 = [x00; x00; x00; x1e]
  /\ timeout_object le64 30 = [x00; x00; x00; x1e; x00; x00; x00; x00]
  /\ timeout_object be64 30 = [x00; x00; x00; x00; x00; x00; x00; x1e].
Proof. repeat split. Qed.

(* ================================================================= *)
(** * The claims *)

Lemma get_nlmsg_len_request (p : platform) (conf : Z)
    (ipsetname addr : list byte) (timeout operate : Z) :
  valid_name ipsetname -> valid_address addr ->
  get_nlmsg_len p (request_buffer p conf ipsetname addr timeout operate)
  = message_length p conf ipsetname addr timeout.
Proof.
  intros Hn Ha. unfold request_buffer.
  apply get_nlmsg_len_image, shaped_message;
    [exact Hn | now apply valid_address_len].
Qed.

Lemma mod4_add (x y : Z) : x mod 4 = 0 -> y mod 4 = 0 -> (x + y) mod 4 = 0.
Proof. intros Hx Hy. rewrite Z.add_mod, Hx, Hy by lia. reflexivity. Qed.

(** Sums of multiples of 4. *)
Ltac mod4 :=
  repeat apply mod4_add;
  first [assumption | reflexivity | apply NETLINK_ALIGN_mod].

Lemma aligned_sizes (ipsetname addr : list byte) :
  NETLINK_ALIGN (4 + (strlen ipsetname + 1)) mod 4 = 0
  /\ NETLINK_ALIGN (4 + len addr) mod 4 = 0.
Proof. split; apply NETLINK_ALIGN_mod. Qed.

(** The length of a request is the two headers and the aligned sizes of its
    three top-level attributes. *)
Lemma message_length_sum (p : platform) (conf : Z)
    (ipsetname addr : list byte) (timeout af : Z) :
  message_length p conf ipsetname addr timeout
  = NETLINK_ALIGN sizeof_nlmsghdr + NETLINK_ALIGN sizeof_ipset_netlink_msg
    + fold_right Z.add 0
        (map (fun a => NETLINK_ALIGN (a_len a))
           [protocol_attr; setname_attr ipsetname;
            data_attr p conf ipsetname addr timeout af]).
Proof.
  unfold message_length. cbn [map fold_right a_len protocol_attr setname_attr
                                data_attr].
  change (NETLINK_ALIGN sizeof_nlmsghdr) with 16.
  change (NETLINK_ALIGN sizeof_ipset_netlink_msg) with 4.
  change (NETLINK_ALIGN 5) with 8.
  rewrite len_app, ip_bytes_attr, !len_attr_bytes, len_timeout_bytes.
  unfold sizeof_ipset_netlink_attr.
  set (l2 := NETLINK_ALIGN (4 + (strlen ipsetname + 1))).
  set (l3 := NETLINK_ALIGN (4 + len addr)).
  set (l4 := if emits_timeout conf ipsetname timeout
             then NETLINK_ALIGN (4 + sizeof_ulong p) else 0).
  assert (H3 : l3 mod 4 = 0) by apply NETLINK_ALIGN_mod.
  assert (H4 : l4 mod 4 = 0)
    by (unfold l4; destruct (emits_timeout conf ipsetname timeout);
        [apply NETLINK_ALIGN_mod | reflexivity]).
  rewrite (NETLINK_ALIGN_add 4 l3) by reflexivity.
  rewrite (NETLINK_ALIGN_aligned l3) by assumption.
  rewrite (NETLINK_ALIGN_add 4 (4 + l3 + l4)) by reflexivity.
  rewrite (NETLINK_ALIGN_aligned (4 + l3 + l4)) by mod4.
  lia.
Qed.

(** The last attribute of a request ends, aligned, where the message ends. *)
Lemma request_last_attribute (p : platform) (conf : Z)
    (ipsetname addr : list byte) (timeout af : Z) :
  exists front last,
    [protocol_attr; setname_attr ipsetname;
     data_attr p conf ipsetname addr timeout af;
     ip_attr p ipsetname addr af; ipaddr_attr ipsetname addr af]
    ++ timeout_attrs p conf ipsetname addr timeout = front ++ [last]
    /\ message_length p conf ipsetname addr timeout
       = NETLINK_ALIGN (a_off last + a_len last).
Proof.
  pose proof (aligned_sizes ipsetname addr) as (Hl2 & Hl3).
  unfold timeout_attrs, message_length.
  set (l2 := NETLINK_ALIGN (4 + (strlen ipsetname + 1))) in *.
  set (l3 := NETLINK_ALIGN (4 + len addr)) in *.
  destruct (emits_timeout conf ipsetname timeout).
  - eexists _, _. split; [reflexivity|].
    cbn [a_off a_len timeout_attr]. fold l2 l3.
    rewrite (NETLINK_ALIGN_add (28 + l2 + 8 + l3)); [lia | mod4].
  - eexists [_; _; _; _], _. split; [rewrite app_nil_r; reflexivity|].
    cbn [a_off a_len ipaddr_attr]. fold l2.
    rewrite (NETLINK_ALIGN_add (28 + l2 + 8)); [fold l3; lia | mod4].
Qed.

(** Every payload of a request starts at a multiple of 4. *)
Lemma request_payloads_aligned (p : platform) (conf : Z)
    (ipsetname addr : list byte) (timeout af : Z) :
  Forall (fun a => (a_off a + sizeof_ipset_netlink_attr) mod 4 = 0)
    ([protocol_attr; setname_attr ipsetname;
      data_attr p conf ipsetname addr timeout af;
      ip_attr p ipsetname addr af; ipaddr_attr ipsetname addr af]
     ++ timeout_attrs p conf ipsetname addr timeout).
Proof.
  pose proof (aligned_sizes ipsetname addr) as (Hl2 & Hl3).
  unfold timeout_attrs.
  set (l2 := NETLINK_ALIGN (4 + (strlen ipsetname + 1))) in *.
  set (l3 := NETLINK_ALIGN (4 + len addr)) in *.
  repeat apply Forall_cons; unfold sizeof_ipset_netlink_attr;
    cbn [a_off protocol_attr setname_attr data_attr ip_attr ipaddr_attr];
    fold l2; try mod4.
  destruct (emits_timeout conf ipsetname timeout); [|constructor].
  repeat constructor. cbn [a_off timeout_attr]. fold l2 l3. mod4.
Qed.

Lemma message_length_mod (p : platform) (conf : Z)
    (ipsetname addr : list byte) (timeout : Z) :
  message_length p conf ipsetname addr timeout mod 4 = 0.
Proof.
  pose proof (sizeof_ulong_cases p) as Hsz. unfold message_length.
  destruct (emits_timeout conf ipsetname timeout);
    [destruct Hsz as [-> | ->]|]; mod4.
Qed.

(** One [_ipset_add_attr] on a buffer whose length field [L] is aligned:
    the attribute is written at [L] with its declared length, and the length
    field moves to the aligned end of the attribute. *)
Lemma add_attr_step (p : platform) (L : Z) (body : list byte)
    (type n : Z) (data : list byte) :
  shaped L body -> 0 <= n <= len data ->
  L + NETLINK_ALIGN (sizeof_ipset_netlink_attr + n) <= BUFF_SZ ->
  exists buf',
    _ipset_add_attr p (image p L body) type n data = Some buf'
    /\ get_nlmsg_len p buf'
       = NETLINK_ALIGN (L + (sizeof_ipset_netlink_attr + n))
    /\ (L + sizeof_ipset_netlink_attr) mod 4 = 0
    /\ load L 2 buf' = host_bytes p 2 (sizeof_ipset_netlink_attr + n).
Proof.
  intros HS Hn Hfit.
  eexists. split; [now apply add_attr_image|].
  pose proof HS as (HL & Hal & Hb).
  assert (Hp : len (firstn (Z.to_nat n) data) = n)
    by (unfold len in *; rewrite length_firstn; lia).
  assert (HS' : shaped (L + NETLINK_ALIGN (sizeof_ipset_netlink_attr + n))
                  (body ++ attr_bytes p type (firstn (Z.to_nat n) data))).
  { rewrite <- Hp at 1. rewrite <- len_attr_bytes with (p := p) (type := type).
    apply shaped_app; [assumption | apply len_attr_mod |].
    rewrite len_attr_bytes, Hp. exact Hfit. }
  split; [|split].
  - rewrite get_nlmsg_len_image by assumption.
    symmetry. now apply NETLINK_ALIGN_add.
  - unfold sizeof_ipset_netlink_attr. rewrite Z.add_mod, Hal by lia.
    reflexivity.
  - unfold load, image, attr_bytes.
    rewrite Hp. rewrite <- !app_assoc.
    rewrite (app_assoc (host_bytes p 4 _) body).
    rewrite skipn_exact
      by (rewrite length_app, length_host_bytes; unfold len in Hb; lia).
    apply firstn_exact, length_host_bytes.
Qed.

(** C1. For every message that is built (valid address length, valid set
    name, socket available): the length field of the netlink header equals
    the 4-byte aligned end offset of the last attribute written; it is the
    sum of the two header sizes and of the aligned sizes of the top-level
    attributes; the payload of every attribute, nested ones included, starts
    at a multiple of 4 from the start of the buffer; and the final length is
    a multiple of 4.  The length field has this value after every single
    [_ipset_add_attr] too: started on a buffer whose length field is
    aligned, the call writes the attribute there and leaves the length at
    the aligned end of that attribute. *)
Theorem C1_length_field_and_alignment (p : platform) (e : env) (w : world)
    (ipsetname addr : list byte) (timeout operate : Z) :
  valid_address addr -> valid_name ipsetname -> socket_ready e w ->
  (exists buf w',
     _ipset_operate_build p e w ipsetname addr (len addr) timeout operate
     = (inr buf, w')
     /\ (exists front last,
           all_attributes p buf = front ++ [last]
           /\ get_nlmsg_len p buf = NETLINK_ALIGN (a_off last + a_len last))
     /\ get_nlmsg_len p buf
        = NETLINK_ALIGN sizeof_nlmsghdr
          + NETLINK_ALIGN sizeof_ipset_netlink_msg
          + fold_right Z.add 0
              (map (fun a => NETLINK_ALIGN (a_len a)) (attributes p buf))
     /\ Forall (fun a => (a_off a + sizeof_ipset_netlink_attr) mod 4 = 0)
          (all_attributes p buf)
     /\ get_nlmsg_len p buf mod 4 = 0)
  /\ (forall L body type n data,
        shaped L body -> 0 <= n <= len data ->
        L + NETLINK_ALIGN (sizeof_ipset_netlink_attr + n) <= BUFF_SZ ->
        exists buf',
          _ipset_add_attr p (image p L body) type n data = Some buf'
          /\ get_nlmsg_len p buf'
             = NETLINK_ALIGN (L + (sizeof_ipset_netlink_attr + n))
          /\ (L + sizeof_ipset_netlink_attr) mod 4 = 0
          /\ load L 2 buf' = host_bytes p 2 (sizeof_ipset_netlink_attr + n)).
Proof.
  intros Ha Hn Hs. split; [|apply add_attr_step].
  pose proof (valid_address_len addr Ha) as Hl.
  exists (request_buffer p (dns_conf_ipset_timeout_enable w) ipsetname addr
            timeout operate), (snd (_ipset_socket_init e w)).
  split; [now apply operate_build_request|].
  rewrite get_nlmsg_len_request by assumption.
  unfold request_buffer.
  rewrite all_attributes_image, attributes_image by assumption.
  split; [apply request_last_attribute|].
  split; [apply message_length_sum|].
  split; [apply request_payloads_aligned | apply message_length_mod].
Qed.

Lemma C1_witness :
  valid_address ipv4_example /\ valid_name blocklist
  /\ socket_ready kernel_ok (world_fresh 1)
  /\ exists buf w',
       _ipset_operate_build le32 kernel_ok (world_fresh 1) blocklist
         ipv4_example 4 30 IPSET_ADD = (inr buf, w')
       /\ get_nlmsg_len le32 buf mod 4 = 0.
Proof.
  assert (Ha : valid_address ipv4_example) by (left; reflexivity).
  assert (Hn : valid_name blocklist) by reflexivity.
  assert (Hs : socket_ready kernel_ok (world_fresh 1)) by reflexivity.
  repeat split; try assumption.
  destruct (C1_length_field_and_alignment le32 kernel_ok (world_fresh 1)
              blocklist ipv4_example 30 IPSET_ADD Ha Hn Hs)
    as [(buf & w' & Hb & _ & _ & _ & Hm) _].
  exists buf, w'. split; assumption.
Defined.

(* ----------------------------------------------------------------- *)

(** A request without TIMEOUT does not depend on the configuration or on
    the timeout argument. *)
Lemma request_buffer_plain (p : platform) (conf conf' : Z)
    (ipsetname addr : list byte) (timeout timeout' operate : Z) :
  emits_timeout conf ipsetname timeout = false ->
  emits_timeout conf' ipsetname timeout' = false ->
  request_buffer p conf ipsetname addr timeout operate
  = request_buffer p conf' ipsetname addr timeout' operate.
Proof.
  intros H H'.
  unfold request_buffer, message_length, message_body, attrs_bytes,
    data_bytes, timeout_bytes.
  rewrite H, H'. reflexivity.
Qed.

Lemma emits_timeout_zero (conf : Z) (ipsetname : list byte) :
  emits_timeout conf ipsetname 0 = false.
Proof. reflexivity. Qed.

(** C2, as the code has it.  add of the name blocklist and the address
    192.168.1.1 with timeout 0 builds a message of five attribute headers
    and no TIMEOUT: PROTOCOL and SETNAME, the nested DATA, inside it the
    nested IP, inside that the IPv4 address.  Its length is 60: 16 bytes of
    netlink header, 4 of protocol header, 8 for PROTOCOL, 16 for SETNAME
    (4 of header, the name, its NUL and 2 of padding) and 16 for DATA
    (its header, the header of IP and the 8 bytes of the address
    attribute). *)
Theorem C2_blocklist_message (p : platform) (e : env) (w : world) :
  socket_ready e w ->
  exists buf w',
    _ipset_operate_build p e w blocklist ipv4_example 4 0 IPSET_ADD
    = (inr buf, w')
    /\ map attr_header (all_attributes p buf)
       = [(20, IPSET_ATTR_PROTOCOL, 5);
          (28, IPSET_ATTR_SETNAME, 14);
          (44, Z.lor NLA_F_NESTED IPSET_ATTR_DATA, 16);
          (48, Z.lor NLA_F_NESTED IPSET_ATTR_IP, 12);
          (52, Z.lor IPSET_ATTR_IPADDR_IPV4 NLA_F_NET_BYTEORDER, 8)]
    /\ map (fun a => NETLINK_ALIGN (a_len a)) (attributes p buf) = [8; 16; 16]
    /\ NETLINK_ALIGN sizeof_nlmsghdr = 16
    /\ NETLINK_ALIGN sizeof_ipset_netlink_msg = 4
    /\ get_nlmsg_len p buf = 16 + 4 + 8 + 16 + 16.
Proof.
  intro Hs.
  exists (request_buffer p 0 blocklist ipv4_example 0 IPSET_ADD),
    (snd (_ipset_socket_init e w)).
  split.
  - change 4 with (len ipv4_example) at 1.
    rewrite operate_build_request;
      [| left; reflexivity | reflexivity | assumption].
    rewrite (request_buffer_plain p _ 0 _ _ 0 0)
      by apply emits_timeout_zero.
    reflexivity.
  - destruct p as [[|] [|]]; vm_compute; repeat split; reflexivity.
Qed.

Lemma C2_witness :
  socket_ready kernel_ok (world_open 0)
  /\ exists buf w',
       _ipset_operate_build le32 kernel_ok (world_open 0) blocklist
         ipv4_example 4 0 IPSET_ADD = (inr buf, w')
       /\ get_nlmsg_len le32 buf = 60.
Proof.
  assert (Hs : socket_ready kernel_ok (world_open 0)) by reflexivity.
  split; [assumption|].
  destruct (C2_blocklist_message le32 kernel_ok (world_open 0) Hs)
    as (buf & w' & Hb & _ & _ & _ & _ & HL).
  exists buf, w'. split; assumption.
Defined.

(** C2 as stated fails: the message has five attribute headers, not four;
    the netlink header takes 16 bytes, not 20; and the top-level attributes
    take 8, 16 and 16 bytes, so that SETNAME takes 16, not 12. *)
Lemma C2_counterexample :
  exists buf,
    fst (_ipset_operate_build le32 kernel_ok (world_open 0) blocklist
           ipv4_example 4 0 IPSET_ADD) = inr buf
    /\ length (all_attributes le32 buf) = 5%nat
    /\ NETLINK_ALIGN sizeof_nlmsghdr = 16
    /\ map (fun a => (a_type a, NETLINK_ALIGN (a_len a))) (attributes le32 buf)
       = [(IPSET_ATTR_PROTOCOL, 8); (IPSET_ATTR_SETNAME, 16);
          (Z.lor NLA_F_NESTED IPSET_ATTR_DATA, 16)]
    /\ ~ (length (all_attributes le32 buf) = 4%nat
          /\ NETLINK_ALIGN sizeof_nlmsghdr = 20
          /\ map (fun a => NETLINK_ALIGN (a_len a)) (attributes le32 buf)
             = [8; 12; 16])
    /\ length (all_attributes le32 buf) <> 4%nat
    /\ NETLINK_ALIGN sizeof_nlmsghdr <> 20
    /\ map (fun a => NETLINK_ALIGN (a_len a)) (attributes le32 buf)
       <> [8; 12; 16].
Proof.
  eexists. split; [vm_compute; reflexivity|].
  vm_compute. repeat split; try discriminate.
  intros (H & _). discriminate H.
Qed.

(* ----------------------------------------------------------------- *)

(** C3, at an input where the code departs from it.  On a little-endian
    platform with an 8-byte [unsigned long], add of blocklist, 2001:db8::1
    and timeout 30 with timeouts enabled puts a TIMEOUT attribute with the
    network-byte-order bit inside DATA, behind IP, but its declared length
    is 12 and its payload is the 8 bytes of the [unsigned long] object, not
    the 4 bytes of htonl(30). *)
Theorem C3_timeout_payload_LP64 :
  exists buf data ip a,
    fst (_ipset_operate_build le64 kernel_ok (world_open 1) blocklist
           ipv6_example 16 30 IPSET_ADD) = inr buf
    /\ find_attr IPSET_ATTR_DATA (attributes le64 buf) = Some data
    /\ children le64 data = [ip; a]
    /\ a_type ip = Z.lor NLA_F_NESTED IPSET_ATTR_IP
    /\ is_nested ip = true
    /\ a_type a = Z.lor IPSET_ATTR_TIMEOUT NLA_F_NET_BYTEORDER
    /\ is_net_byteorder a = true
    /\ a_len a = 12
    /\ a_payload a = [x00; x00; x00; x1e; x00; x00; x00; x00]
    /\ be_bytes 4 30 = [x00; x00; x00; x1e]
    /\ a_payload a <> be_bytes 4 30.
Proof.
  do 4 eexists. split; [vm_compute; reflexivity|].
  split; [vm_compute; reflexivity|].
  split; [vm_compute; reflexivity|].
  vm_compute. repeat split; discriminate.
Qed.

(** What holds of TIMEOUT on every platform: it is there exactly when
    [timeout > 0] and the configuration enables it, inside DATA and behind
    IP, with the network-byte-order bit; and where [unsigned long] has
    4 bytes its payload is the timeout in network byte order. *)
Theorem timeout_attribute (p : platform) (conf : Z)
    (ipsetname addr : list byte) (timeout operate : Z) :
  valid_name ipsetname -> valid_address addr ->
  let af := family_of (len addr) in
  attributes p (request_buffer p conf ipsetname addr timeout operate)
  = [protocol_attr; setname_attr ipsetname;
     data_attr p conf ipsetname addr timeout af]
  /\ children p (data_attr p conf ipsetname addr timeout af)
     = ip_attr p ipsetname addr af
       :: (if (0 <? timeout) && negb (conf =? 0)
           then [Attr (a_off (ip_attr p ipsetname addr af)
                       + a_len (ip_attr p ipsetname addr af))
                   (Z.lor IPSET_ATTR_TIMEOUT NLA_F_NET_BYTEORDER)
                   (4 + sizeof_ulong p) (timeout_object p timeout)]
           else [])
  /\ (model p = ILP32 ->
      sizeof_ulong p = 4 /\ timeout_object p timeout = be_bytes 4 timeout).
Proof.
  intros Hn Ha af. pose proof (valid_address_len addr Ha) as Hl.
  split; [apply attributes_image; assumption|]. split.
  - rewrite children_data by assumption. f_equal.
    unfold timeout_attrs, emits_timeout, _ipset_support_timeout.
    replace ((if negb (conf =? 0) then 0 else -1) =? 0)
      with (negb (conf =? 0)) by (destruct (conf =? 0); reflexivity).
    destruct ((0 <? timeout) && negb (conf =? 0)); [|reflexivity].
    unfold timeout_attr, ip_attr. cbn [a_off a_len].
    rewrite len_attr_bytes. do 2 f_equal. unfold sizeof_ipset_netlink_attr.
    lia.
  - intro Hm. split; [unfold sizeof_ulong; now rewrite Hm|].
    now apply timeout_object_ILP32.
Qed.

(* ----------------------------------------------------------------- *)


(** A call with an accepted address and a name of 32 or more leaves through
    it when the socket is there. *)
Lemma operate_long_name (p : platform) (e : env) (fuel : nat) (w : world)
    (ipsetname addr : list byte) (timeout operate : Z) :
  valid_address addr -> IPSET_MAXNAMELEN <= strlen ipsetname ->
  _ipset_operate p e fuel w ipsetname addr (len addr) timeout operate
  = if fst (_ipset_socket_init e w) =? 0
    then Some (NameTooLong,
               set_errno ENAMETOOLONG (snd (_ipset_socket_init e w)))
    else Some (SocketError, snd (_ipset_socket_init e w)).
Proof.
  intros Ha Hn. unfold _ipset_operate.
  rewrite operate_build_valid_address by assumption.
  destruct (_ipset_socket_init e w) as [r w1]. cbn [fst snd].
  destruct (r =? 0); cbn [negb]; [|reflexivity].
  now replace (IPSET_MAXNAMELEN <=? strlen ipsetname) with true
    by (symmetry; apply Z.leb_le; exact Hn).
Qed.




(* ----------------------------------------------------------------- *)

Lemma ipaddr_type_family (n : Z) :
  ipaddr_type (family_of n)
  = Z.lor (if n =? IPV4_ADDR_LEN then IPSET_ATTR_IPADDR_IPV4
           else IPSET_ATTR_IPADDR_IPV6) NLA_F_NET_BYTEORDER.
Proof.
  unfold ipaddr_type, family_of. destruct (n =? IPV4_ADDR_LEN); reflexivity.
Qed.

(** C5. The address family comes from the length of the address alone: a
    length other than 4 and 16 ends add and delete with InvalidAddress,
    whatever the bytes; a length of 4 gives the family AF_INET and the IPv4
    address attribute, a length of 16 the family AF_INET6 and the IPv6 one.
    For every 16-byte address the type of the address attribute is the IPv6
    discriminator with the network-byte-order bit, and not the IPv4 one. *)
Theorem C5_family_from_length (p : platform) (e : env) (fuel : nat)
    (w : world) (ipsetname addr : list byte) (timeout operate : Z) :
  operation_code operate ->
  (forall other addr_len,
     addr_len <> IPV4_ADDR_LEN -> addr_len <> IPV6_ADDR_LEN ->
     _ipset_operate p e fuel w ipsetname other addr_len timeout operate
     = Some (InvalidAddress, set_errno EINVAL w))
  /\ (valid_address addr -> valid_name ipsetname -> socket_ready e w ->
      exists buf w' req,
        _ipset_operate_build p e w ipsetname addr (len addr) timeout operate
        = (inr buf, w')
        /\ parse_message p buf = Some req
        /\ r_family req
           = (if len addr =? IPV4_ADDR_LEN then AF_INET else AF_INET6)
        /\ r_addr_type req
           = Z.lor (if len addr =? IPV4_ADDR_LEN then IPSET_ATTR_IPADDR_IPV4
                    else IPSET_ATTR_IPADDR_IPV6) NLA_F_NET_BYTEORDER
        /\ (len addr = IPV6_ADDR_LEN ->
            r_family req = AF_INET6
            /\ r_addr_type req
               = Z.lor IPSET_ATTR_IPADDR_IPV6 NLA_F_NET_BYTEORDER
            /\ r_addr_type req
               <> Z.lor IPSET_ATTR_IPADDR_IPV4 NLA_F_NET_BYTEORDER
            /\ Z.testbit (r_addr_type req) 14 = true)).
Proof.
  intro Hop. split.
  - intros other addr_len H4 H16. now apply operate_invalid_address.
  - intros Ha Hn Hs.
    eexists _, _, _. split; [now apply operate_build_request|].
    split; [now apply parse_message_request|].
    cbn [r_family r_addr_type]. rewrite ipaddr_type_family.
    split; [reflexivity|]. split; [reflexivity|].
    intros ->. repeat split. discriminate.
Qed.

Lemma C5_witness :
  operation_code IPSET_ADD /\ valid_address ipv6_example
  /\ valid_name blocklist /\ socket_ready kernel_ok (world_open 1)
  /\ ipset_add be64 kernel_ok 1 (world_open 1) blocklist [x7f; x00; x01] 3 0
     = Some (InvalidAddress, World 3 EINVAL 1 [])
  /\ exists buf w' req,
       _ipset_operate_build be64 kernel_ok (world_open 1) blocklist
         ipv6_example 16 30 IPSET_ADD = (inr buf, w')
       /\ parse_message be64 buf = Some req
       /\ r_family req = AF_INET6.
Proof.
  assert (Hop : operation_code IPSET_ADD) by (left; reflexivity).
  assert (Ha : valid_address ipv6_example) by (right; reflexivity).
  assert (Hn : valid_name blocklist) by reflexivity.
  assert (Hs : socket_ready kernel_ok (world_open 1)) by reflexivity.
  split; [exact Hop|]. split; [exact Ha|]. split; [exact Hn|].
  split; [exact Hs|].
  destruct (C5_family_from_length be64 kernel_ok 1 (world_open 1) blocklist
              ipv6_example 0 IPSET_ADD Hop) as [Hbad _].
  destruct (C5_family_from_length be64 kernel_ok 1 (world_open 1) blocklist
              ipv6_example 30 IPSET_ADD Hop) as [_ Hgood].
  split.
  - apply (Hbad [x7f; x00; x01] 3); discriminate.
  - destruct (Hgood Ha Hn Hs) as (buf & w' & req & Hb & Hp & Hf & _).
    exists buf, w', req. repeat split; assumption.
Defined.

(* ----------------------------------------------------------------- *)

(** X3. Building a request and parsing it back gives the operation, the set
    name, the address, its family and the address type that goes with the
    family on every platform; the timeout comes back as [wire_timeout] has
    it. *)
Theorem build_then_parse (p : platform) (e : env) (w : world)
    (ipsetname addr : list byte) (timeout operate : Z) :
  valid_address addr -> valid_name ipsetname -> socket_ready e w ->
  operation_code operate ->
  exists buf w' req,
    _ipset_operate_build p e w ipsetname addr (len addr) timeout operate
    = (inr buf, w')
    /\ parse_message p buf = Some req
    /\ r_operation req = operate
    /\ r_setname req = c_str ipsetname
    /\ r_addr req = addr
    /\ r_timeout req
       = (if emits_timeout (dns_conf_ipset_timeout_enable w) ipsetname timeout
          then Some (wire_timeout p timeout) else None)
    /\ r_family req
       = (if len addr =? IPV4_ADDR_LEN then AF_INET else AF_INET6)
    /\ r_addr_type req
       = Z.lor (if len addr =? IPV4_ADDR_LEN then IPSET_ATTR_IPADDR_IPV4
                else IPSET_ATTR_IPADDR_IPV6) NLA_F_NET_BYTEORDER.
Proof.
  intros Ha Hn Hs Hop.
  eexists _, _, _. split; [now apply operate_build_request|].
  split; [now apply parse_message_request|].
  cbn [r_operation r_setname r_addr r_timeout r_family r_addr_type].
  unfold ipaddr_type, family_of.
  repeat split.
  destruct Ha as [-> | ->]; reflexivity.
Qed.

(** Where [unsigned long] has 4 bytes, and on little-endian platforms where
    it has 8, a timeout below 2^32 comes back unchanged. *)
Lemma wire_timeout_exact (p : platform) (timeout : Z) :
  model p = ILP32 \/ p = le64 -> 0 <= timeout < 2 ^ 32 ->
  wire_timeout p timeout = timeout.
Proof.
  intros [H | ->] Ht.
  - rewrite wire_timeout_ILP32 by assumption. now apply Z.mod_small.
  - unfold le64. rewrite wire_timeout_LP64_LE. now apply Z.mod_small.
Qed.

(** C6, at inputs where the code departs from it.  On a big-endian platform
    with an 8-byte [unsigned long], add of blocklist, 192.168.1.1 and
    timeout 30 with timeouts enabled parses back to the same name and the
    same address but to the timeout 0; on a little-endian one the timeout
    2^32 + 30 parses back to 30. *)
Theorem C6_timeout_not_recovered_LP64 :
  (exists buf req,
     fst (_ipset_operate_build be64 kernel_ok (world_open 1) blocklist
            ipv4_example 4 30 IPSET_ADD) = inr buf
     /\ parse_message be64 buf = Some req
     /\ r_setname req = blocklist
     /\ r_addr req = ipv4_example
     /\ r_timeout req = Some 0
     /\ r_timeout req <> Some 30)
  /\ (exists buf req,
        fst (_ipset_operate_build le64 kernel_ok (world_open 1) blocklist
               ipv4_example 4 (2 ^ 32 + 30) IPSET_ADD) = inr buf
        /\ parse_message le64 buf = Some req
        /\ r_setname req = blocklist
        /\ r_addr req = ipv4_example
        /\ r_timeout req = Some 30
        /\ r_timeout req <> Some (2 ^ 32 + 30)).
Proof.
  split; do 2 eexists; (split; [vm_compute; reflexivity|]);
    (split; [vm_compute; reflexivity|]);
    cbn [r_setname r_addr r_timeout]; repeat split; discriminate.
Qed.

(* ----------------------------------------------------------------- *)

(** The value of [nlmsg_type] in a request. *)
Lemma nlmsg_type_request (p : platform) (conf : Z)
    (ipsetname addr : list byte) (timeout operate : Z) :
  operation_code operate ->
  host_value p (load nlmsg_type_off 2
                  (request_buffer p conf ipsetname addr timeout operate))
  = Z.lor operate (Z.shiftl NFNL_SUBSYS_IPSET 8).
Proof.
  intro Hop. unfold request_buffer, message_body.
  rewrite load_type_image, host_value_bytes.
  destruct Hop as [-> | ->]; reflexivity.
Qed.

Lemma datagram_request (p : platform) (conf : Z)
    (ipsetname addr : list byte) (timeout operate : Z) :
  valid_name ipsetname -> valid_address addr ->
  datagram p (request_buffer p conf ipsetname addr timeout operate)
  = host_bytes p 4 (message_length p conf ipsetname addr timeout)
    ++ host_bytes p 2 (Z.lor operate (Z.shiftl NFNL_SUBSYS_IPSET 8))
    ++ after_type p conf ipsetname addr timeout.
Proof.
  intros Hn Ha. unfold request_buffer.
  rewrite datagram_image
    by (apply shaped_message; [exact Hn | now apply valid_address_len]).
  unfold message_body, header_bytes, after_type.
  now rewrite <- !app_assoc.
Qed.

(** The datagram of a request around its two length fields that depend on
    the TIMEOUT attribute. *)
Lemma datagram_request_parts (p : platform) (conf : Z)
    (ipsetname addr : list byte) (timeout operate : Z) :
  valid_name ipsetname -> valid_address addr ->
  datagram p (request_buffer p conf ipsetname addr timeout operate)
  = host_bytes p 4
      (message_length p conf ipsetname addr 0
       + len (timeout_bytes p conf ipsetname timeout))
    ++ host_bytes p 2 (Z.lor operate (Z.shiftl NFNL_SUBSYS_IPSET 8))
    ++ (host_bytes p 2 (Z.lor NLM_F_REQUEST NLM_F_REPLACE)
        ++ zeros 8
        ++ [byte_of_Z (family_of (len addr)); x00; x00; x00]
        ++ attr_bytes p IPSET_ATTR_PROTOCOL [byte_of_Z IPSET_PROTOCOL]
        ++ attr_bytes p IPSET_ATTR_SETNAME (c_str ipsetname ++ [x00]))
    ++ host_bytes p 2
         (4 + len (ip_bytes p (family_of (len addr)) addr)
          + len (timeout_bytes p conf ipsetname timeout))
    ++ (host_bytes p 2 (Z.lor NLA_F_NESTED IPSET_ATTR_DATA)
        ++ ip_bytes p (family_of (len addr)) addr)
    ++ timeout_bytes p conf ipsetname timeout.
Proof.
  intros Hn Ha. rewrite datagram_request by assumption.
  unfold after_type, attrs_bytes, data_bytes.
  rewrite len_timeout_bytes. unfold message_length.
  rewrite emits_timeout_zero, Z.add_0_r, <- !app_assoc. reflexivity.
Qed.

(** C7, as the code has it.  For every valid set name and address, delete
    builds the message that add builds without the TIMEOUT attribute, with
    DEL = 10 in place of ADD = 9 in the message type (each or-ed with the
    subsystem id shifted by 8).  The two datagrams differ in the operation
    code and in what the TIMEOUT attribute of add brings: the attribute
    itself at the end of the message, and its size added to the length
    field of the netlink header and to the length field of DATA.  When add
    carries no TIMEOUT (timeout 0 or timeouts disabled) that is nothing, and
    the two datagrams are the same bytes around the type field; in every
    case they parse to the same family, name and address.  delete never
    carries a TIMEOUT, whatever the configuration. *)
Theorem C7_delete_versus_add (p : platform) (e : env) (fuel : nat)
    (w : world) (ipsetname addr : list byte) (timeout : Z) :
  valid_address addr -> valid_name ipsetname -> socket_ready e w ->
  exists add_buf del_buf,
    let w1 := snd (_ipset_socket_init e w) in
    let conf := dns_conf_ipset_timeout_enable w in
    ipset_add p e fuel w ipsetname addr (len addr) timeout
    = transmit fuel e w1 (datagram p add_buf)
    /\ ipset_del p e fuel w ipsetname addr (len addr)
       = transmit fuel e w1 (datagram p del_buf)
    /\ host_value p (load nlmsg_type_off 2 add_buf)
       = Z.lor IPSET_ADD (Z.shiftl NFNL_SUBSYS_IPSET 8)
    /\ host_value p (load nlmsg_type_off 2 del_buf)
       = Z.lor IPSET_DEL (Z.shiftl NFNL_SUBSYS_IPSET 8)
    /\ (exists L D head body,
          datagram p del_buf
          = host_bytes p 4 L
            ++ host_bytes p 2 (Z.lor IPSET_DEL (Z.shiftl NFNL_SUBSYS_IPSET 8))
            ++ head ++ host_bytes p 2 D ++ body
          /\ datagram p add_buf
             = host_bytes p 4 (L + len (timeout_bytes p conf ipsetname timeout))
               ++ host_bytes p 2
                    (Z.lor IPSET_ADD (Z.shiftl NFNL_SUBSYS_IPSET 8))
               ++ head
               ++ host_bytes p 2
                    (D + len (timeout_bytes p conf ipsetname timeout))
               ++ body
               ++ timeout_bytes p conf ipsetname timeout
          /\ timeout_bytes p conf ipsetname timeout
             = (if (0 <? timeout) && negb (conf =? 0)
                then attr_bytes p
                       (Z.lor IPSET_ATTR_TIMEOUT NLA_F_NET_BYTEORDER)
                       (timeout_object p timeout)
                else [])
          /\ len (timeout_bytes p conf ipsetname timeout)
             = (if (0 <? timeout) && negb (conf =? 0)
                then NETLINK_ALIGN (4 + sizeof_ulong p) else 0))
    /\ (emits_timeout conf ipsetname timeout = false ->
        exists length_field rest,
          datagram p add_buf
          = length_field
            ++ host_bytes p 2 (Z.lor IPSET_ADD (Z.shiftl NFNL_SUBSYS_IPSET 8))
            ++ rest
          /\ datagram p del_buf
             = length_field
               ++ host_bytes p 2
                    (Z.lor IPSET_DEL (Z.shiftl NFNL_SUBSYS_IPSET 8))
               ++ rest
          /\ length length_field = 4%nat)
    /\ (exists family name type address,
          parse_message p add_buf
          = Some (Request IPSET_ADD family name type address
                    (if emits_timeout conf ipsetname timeout
                     then Some (wire_timeout p timeout) else None))
          /\ parse_message p del_buf
             = Some (Request IPSET_DEL family name type address None))
    /\ (forall a, In a (all_attributes p del_buf) ->
        a_type a <> Z.lor IPSET_ATTR_TIMEOUT NLA_F_NET_BYTEORDER)
    /\ length (all_attributes p del_buf) = 5%nat.
Proof.
  intros Ha Hn Hs. pose proof (valid_address_len addr Ha) as Hl.
  set (conf := dns_conf_ipset_timeout_enable w).
  exists (request_buffer p conf ipsetname addr timeout IPSET_ADD),
    (request_buffer p conf ipsetname addr 0 IPSET_DEL).
  cbv zeta. fold conf.
  assert (Hadd : operation_code IPSET_ADD) by (left; reflexivity).
  assert (Hdel : operation_code IPSET_DEL) by (right; reflexivity).
  assert (Hem : emits_timeout conf ipsetname timeout
                = (0 <? timeout) && negb (conf =? 0)).
  { unfold emits_timeout, _ipset_support_timeout.
    destruct (0 <? timeout); [|reflexivity].
    destruct (conf =? 0); reflexivity. }
  split; [now apply operate_transmits|].
  split; [now apply operate_transmits|].
  split; [now apply nlmsg_type_request|].
  split; [now apply nlmsg_type_request|].
  split; [|split; [|split; [|split]]].
  - eexists _, _, _, _.
    rewrite !datagram_request_parts by assumption.
    split; [|split; [reflexivity|]].
    + change (timeout_bytes p conf ipsetname 0) with (@nil byte).
      change (len []) with 0. rewrite !Z.add_0_r, app_nil_r. reflexivity.
    + split.
      * unfold timeout_bytes. now rewrite Hem.
      * rewrite len_timeout_bytes. now rewrite Hem.
  - intro Hno.
    rewrite (request_buffer_plain p conf conf ipsetname addr timeout 0)
      by (assumption || reflexivity).
    rewrite !datagram_request by assumption.
    eexists _, _. split; [reflexivity|]. split; [reflexivity|].
    apply length_host_bytes.
  - eexists _, _, _, _.
    split; rewrite parse_message_request by assumption; reflexivity.
  - unfold request_buffer. rewrite all_attributes_image by assumption.
    unfold timeout_attrs. rewrite emits_timeout_zero, app_nil_r.
    intros a [<- | [<- | [<- | [<- | [<- | []]]]]]; cbn [a_type];
      try discriminate.
    unfold ipaddr_attr. cbn [a_type]. rewrite ipaddr_type_family.
    destruct (len addr =? IPV4_ADDR_LEN); discriminate.
  - unfold request_buffer. rewrite all_attributes_image by assumption.
    unfold timeout_attrs. now rewrite emits_timeout_zero.
Qed.

Lemma C7_witness :
  valid_address ipv6_example /\ valid_name blocklist
  /\ socket_ready kernel_ok (world_fresh 1)
  /\ (exists add_buf del_buf L D head body,
        ipset_add le64 kernel_ok 1 (world_fresh 1) blocklist ipv6_example
          16 30
        = transmit 1 kernel_ok (World 3 0 1 [EvSocket])
            (datagram le64 add_buf)
        /\ ipset_del le64 kernel_ok 1 (world_fresh 1) blocklist
             ipv6_example 16
           = transmit 1 kernel_ok (World 3 0 1 [EvSocket])
               (datagram le64 del_buf)
        /\ datagram le64 del_buf
           = host_bytes le64 4 L ++ [x0a; x06] ++ head
             ++ host_bytes le64 2 D ++ body
        /\ datagram le64 add_buf
           = host_bytes le64 4 (L + 12) ++ [x09; x06] ++ head
             ++ host_bytes le64 2 (D + 12) ++ body
             ++ [x0c; x00; x06; x40; x00; x00; x00; x1e;
                 x00; x00; x00; x00]
        /\ length (all_attributes le64 del_buf) = 5%nat)
  /\ (exists add_buf del_buf length_field rest,
        ipset_add le64 kernel_ok 1 (world_fresh 1) blocklist ipv6_example
          16 0
        = transmit 1 kernel_ok (World 3 0 1 [EvSocket])
            (datagram le64 add_buf)
        /\ datagram le64 add_buf = length_field ++ [x09; x06] ++ rest
        /\ datagram le64 del_buf = length_field ++ [x0a; x06] ++ rest).
Proof.
  assert (Ha : valid_address ipv6_example) by (right; reflexivity).
  assert (Hn : valid_name blocklist) by reflexivity.
  assert (Hs : socket_ready kernel_ok (world_fresh 1)) by reflexivity.
  split; [exact Ha|]. split; [exact Hn|]. split; [exact Hs|].
  split.
  - destruct (C7_delete_versus_add le64 kernel_ok 1 (world_fresh 1) blocklist
                ipv6_example 30 Ha Hn Hs)
      as (add_buf & del_buf & H1 & H2 & _ & _
          & (L & D & head & body & Hd & Hadd & _ & _) & _ & _ & _ & H5).
    exists add_buf, del_buf, L, D, head, body.
    split; [exact H1|]. split; [exact H2|]. split; [exact Hd|].
    split; [exact Hadd | exact H5].
  - destruct (C7_delete_versus_add le64 kernel_ok 1 (world_fresh 1) blocklist
                ipv6_example 0 Ha Hn Hs)
      as (add_buf & del_buf & H1 & _ & _ & _ & _ & Hsame & _).
    destruct (Hsame eq_refl) as (length_field & rest & Hadd & Hdel & _).
    exists add_buf, del_buf, length_field, rest.
    split; [exact H1|]. split; [exact Hadd | exact Hdel].
Defined.

(** C7 as stated fails: with a timeout of 30 and timeouts enabled the
    message of add has 68 bytes and six attributes, that of delete 60 bytes
    and five, so the two differ in more than the operation code: in the
    length field of the netlink header, in the length of DATA and in the
    TIMEOUT attribute. *)
Lemma C7_counterexample :
  exists add_buf del_buf,
    ipset_add le32 kernel_ok 1 (world_open 1) blocklist ipv4_example 4 30
    = transmit 1 kernel_ok (world_open 1) (datagram le32 add_buf)
    /\ ipset_del le32 kernel_ok 1 (world_open 1) blocklist ipv4_example 4
       = transmit 1 kernel_ok (world_open 1) (datagram le32 del_buf)
    /\ length (datagram le32 add_buf) = 68%nat
    /\ length (datagram le32 del_buf) = 60%nat
    /\ load 0 4 add_buf = [x44; x00; x00; x00]
    /\ load 0 4 del_buf = [x3c; x00; x00; x00]
    /\ map attr_header (all_attributes le32 add_buf)
       = [(20, IPSET_ATTR_PROTOCOL, 5);
          (28, IPSET_ATTR_SETNAME, 14);
          (44, Z.lor NLA_F_NESTED IPSET_ATTR_DATA, 24);
          (48, Z.lor NLA_F_NESTED IPSET_ATTR_IP, 12);
          (52, Z.lor IPSET_ATTR_IPADDR_IPV4 NLA_F_NET_BYTEORDER, 8);
          (60, Z.lor IPSET_ATTR_TIMEOUT NLA_F_NET_BYTEORDER, 8)]
    /\ map attr_header (all_attributes le32 del_buf)
       = [(20, IPSET_ATTR_PROTOCOL, 5);
          (28, IPSET_ATTR_SETNAME, 14);
          (44, Z.lor NLA_F_NESTED IPSET_ATTR_DATA, 16);
          (48, Z.lor NLA_F_NESTED IPSET_ATTR_IP, 12);
          (52, Z.lor IPSET_ATTR_IPADDR_IPV4 NLA_F_NET_BYTEORDER, 8)]
    /\ ~ (exists length_field rest,
            datagram le32 add_buf
            = length_field
              ++ host_bytes le32 2
                   (Z.lor IPSET_ADD (Z.shiftl NFNL_SUBSYS_IPSET 8))
              ++ rest
            /\ datagram le32 del_buf
               = length_field
                 ++ host_bytes le32 2
                      (Z.lor IPSET_DEL (Z.shiftl NFNL_SUBSYS_IPSET 8))
                 ++ rest).
Proof.
  exists (request_buffer le32 1 blocklist ipv4_example 30 IPSET_ADD),
    (request_buffer le32 1 blocklist ipv4_example 0 IPSET_DEL).
  split; [vm_compute; reflexivity|].
  split; [vm_compute; reflexivity|].
  split; [vm_compute; reflexivity|].
  split; [vm_compute; reflexivity|].
  split; [vm_compute; reflexivity|].
  split; [vm_compute; reflexivity|].
  split; [vm_compute; reflexivity|].
  split; [vm_compute; reflexivity|].
  intros (lf & rest & Hadd & Hdel).
  apply (f_equal (@length byte)) in Hadd, Hdel.
  rewrite !length_app, !length_host_bytes in Hadd, Hdel.
  assert (La : length (datagram le32 (request_buffer le32 1 blocklist
                                        ipv4_example 30 IPSET_ADD)) = 68%nat)
    by (vm_compute; reflexivity).
  assert (Ld : length (datagram le32 (request_buffer le32 1 blocklist
                                        ipv4_example 0 IPSET_DEL)) = 60%nat)
    by (vm_compute; reflexivity).
  rewrite La in Hadd. rewrite Ld in Hdel. lia.
Qed.

(* ----------------------------------------------------------------- *)

Lemma sent_set_errno (c : Z) (w : world) : sent (set_errno c w) = sent w.
Proof. reflexivity. Qed.

(** [_ipset_socket_init] sends nothing; with an open socket it does nothing
    at all, without one it makes exactly one [socket] call. *)
Lemma socket_init_effects (e : env) (w : world) :
  sent (snd (_ipset_socket_init e w)) = sent w
  /\ (0 < ipset_fd w -> snd (_ipset_socket_init e w) = w)
  /\ (ipset_fd w <= 0 ->
      events (snd (_ipset_socket_init e w)) = events w ++ [EvSocket]).
Proof.
  unfold _ipset_socket_init, sys_socket, answer, sent.
  destruct (0 <? ipset_fd w) eqn:E.
  - repeat split; try reflexivity. apply Z.ltb_lt in E. lia.
  - apply Z.ltb_ge in E.
    assert (Hlog : filter is_sendto (events w ++ [EvSocket])
                   = filter is_sendto (events w))
      by (rewrite filter_app; apply app_nil_r).
    destruct (socket_reply e (calls is_socket w)) as [n|c];
      cbn [set_ipset_fd ipset_fd];
      [destruct (Z.of_N n <? 0) | destruct (-1 <? 0)];
      cbn [snd events log set_errno set_ipset_fd];
      (split; [exact Hlog | split; [lia | reflexivity]]).
Qed.

(** What [_ipset_socket_init] does without a socket, by what [socket]
    answers. *)
Lemma socket_init_fresh (e : env) (w : world) :
  ipset_fd w <= 0 ->
  (forall n,
     socket_reply e (calls is_socket w) = SysOk n ->
     _ipset_socket_init e w
     = (0, set_ipset_fd (Z.of_N n) (log EvSocket w)))
  /\ (forall c,
        socket_reply e (calls is_socket w) = SysErr c ->
        _ipset_socket_init e w
        = (-1, set_ipset_fd (-1) (set_errno c (log EvSocket w)))).
Proof.
  intro Hfd. unfold _ipset_socket_init, sys_socket.
  replace (0 <? ipset_fd w) with false by (symmetry; apply Z.ltb_ge; lia).
  split.
  - intros n ->. cbn [answer set_ipset_fd ipset_fd].
    now replace (Z.of_N n <? 0) with false by (symmetry; apply Z.ltb_ge; lia).
  - intros c ->. reflexivity.
Qed.

(** C8, as the code has it.  A call whose address length is not 4 or 16
    returns InvalidAddress before any system call, and only [errno] has
    changed.  A call with a valid address length and a set name of 32 or
    more characters returns after the socket has been looked after and
    before anything is sent: no datagram has been handed to [sendto].  With
    the socket already open it ends in NameTooLong and only [errno] has
    changed.  Without it, one [socket] call has been made first: when that
    call gives a descriptor, [ipset_fd] has been set to it and the call ends
    in NameTooLong; when it fails, [ipset_fd] is -1 and the call ends in the
    socket error, with the [errno] of [socket], instead of NameTooLong. *)
Theorem C8_validation_before_send (p : platform) (e : env) (fuel : nat)
    (w : world) (ipsetname addr : list byte) (timeout operate : Z) :
  (forall addr_len,
     addr_len <> IPV4_ADDR_LEN -> addr_len <> IPV6_ADDR_LEN ->
     _ipset_operate p e fuel w ipsetname addr addr_len timeout operate
     = Some (InvalidAddress, set_errno EINVAL w)
     /\ events (set_errno EINVAL w) = events w
     /\ ipset_fd (set_errno EINVAL w) = ipset_fd w)
  /\ (valid_address addr -> IPSET_MAXNAMELEN <= strlen ipsetname ->
      exists o w',
        _ipset_operate p e fuel w ipsetname addr (len addr) timeout operate
        = Some (o, w')
        /\ (o = NameTooLong \/ o = SocketError)
        /\ return_value o = -1
        /\ (socket_ready e w -> o = NameTooLong /\ errno w' = ENAMETOOLONG)
        /\ sent w' = sent w
        /\ (0 < ipset_fd w ->
            o = NameTooLong /\ w' = set_errno ENAMETOOLONG w)
        /\ (ipset_fd w <= 0 -> events w' = events w ++ [EvSocket])
        /\ (ipset_fd w <= 0 ->
            forall n,
              socket_reply e (calls is_socket w) = SysOk n ->
              o = NameTooLong /\ ipset_fd w' = Z.of_N n
              /\ errno w' = ENAMETOOLONG)
        /\ (ipset_fd w <= 0 ->
            forall c,
              socket_reply e (calls is_socket w) = SysErr c ->
              o = SocketError /\ ipset_fd w' = -1 /\ errno w' = c)).
Proof.
  split.
  - intros addr_len H4 H16. split; [now apply operate_invalid_address|].
    split; reflexivity.
  - intros Ha Hn.
    destruct (socket_init_effects e w) as (Hsent & Hopen & Hfresh).
    pose proof (socket_init_fresh e w) as Hinit.
    rewrite operate_long_name by assumption.
    unfold socket_ready.
    destruct (fst (_ipset_socket_init e w) =? 0) eqn:E;
      eexists _, _; (split; [reflexivity|]).
    + split; [now left|]. split; [reflexivity|]. split; [now split|].
      split; [now rewrite sent_set_errno|].
      split; [|split; [|split]].
      * intro Hfd. split; [reflexivity|]. now rewrite Hopen.
      * intro Hfd. cbn [events set_errno]. now apply Hfresh.
      * intros Hfd n Hr. destruct (Hinit Hfd) as (Hok & _).
        rewrite (Hok n Hr). repeat split.
      * intros Hfd c Hr. destruct (Hinit Hfd) as (_ & Herr).
        rewrite (Herr c Hr) in E. discriminate E.
    + apply Z.eqb_neq in E.
      split; [now right|]. split; [reflexivity|].
      split; [intro H0; contradiction|].
      split; [assumption|].
      split; [|split; [|split]].
      * intro Hfd. exfalso. apply E.
        now rewrite socket_ready_open.
      * assumption.
      * intros Hfd n Hr. destruct (Hinit Hfd) as (Hok & _).
        rewrite (Hok n Hr) in E. exfalso. now apply E.
      * intros Hfd c Hr. destruct (Hinit Hfd) as (_ & Herr).
        rewrite (Herr c Hr). repeat split.
Qed.

Lemma C8_witness :
  valid_address ipv4_example /\ IPSET_MAXNAMELEN <= strlen name33
  /\ ipset_add le32 kernel_ok 1 (world_open 1) name33 ipv4_example 5 30
     = Some (InvalidAddress, World 3 EINVAL 1 [])
  /\ (exists o w',
        ipset_add le32 kernel_ok 1 (world_open 1) name33 ipv4_example 4 30
        = Some (o, w')
        /\ sent w' = [])
  /\ (exists o w',
        ipset_del le32 kernel_no_socket 1 (world_fresh 1) name33
          ipv4_example 4
        = Some (o, w')
        /\ o = SocketError /\ ipset_fd w' = -1 /\ errno w' = 24)
  /\ (exists o w',
        ipset_del le32 kernel_ok 1 (world_fresh 1) name33 ipv4_example 4
        = Some (o, w')
        /\ o = NameTooLong /\ ipset_fd w' = 3
        /\ errno w' = ENAMETOOLONG).
Proof.
  assert (Ha : valid_address ipv4_example) by (left; reflexivity).
  assert (Hn : IPSET_MAXNAMELEN <= strlen name33) by discriminate.
  split; [exact Ha|]. split; [exact Hn|].
  destruct (C8_validation_before_send le32 kernel_ok 1 (world_open 1) name33
              ipv4_example 30 IPSET_ADD) as [Hbad Hlong].
  split; [apply (Hbad 5); discriminate|].
  split.
  - destruct (Hlong Ha Hn) as (o & w' & Hr & _ & _ & _ & Hsent & _).
    exists o, w'. split; [exact Hr | exact Hsent].
  - split.
    + destruct (C8_validation_before_send le32 kernel_no_socket 1
                  (world_fresh 1) name33 ipv4_example 0 IPSET_DEL)
        as [_ Hl].
      destruct (Hl Ha Hn)
        as (o & w' & Hr & _ & _ & _ & _ & _ & _ & _ & Herr).
      exists o, w'. split; [exact Hr|].
      apply (Herr ltac:(cbn; lia) 24). reflexivity.
    + destruct (C8_validation_before_send le32 kernel_ok 1
                  (world_fresh 1) name33 ipv4_example 0 IPSET_DEL)
        as [_ Hl].
      destruct (Hl Ha Hn)
        as (o & w' & Hr & _ & _ & _ & _ & _ & _ & Hok & _).
      exists o, w'. split; [exact Hr|].
      apply (Hok ltac:(cbn; lia) 3%N). reflexivity.
Defined.

(** C8 as stated fails: with a name of 33 characters and no socket yet,
    add and delete return NameTooLong only after a [socket] call that has
    changed [ipset_fd]; and when that call fails they return its error
    instead.  Nothing is sent in either case. *)
Lemma C8_counterexample :
  strlen name33 = 33
  /\ ipset_add le32 kernel_ok 1 (world_fresh 1) name33 ipv4_example 4 30
     = Some (NameTooLong, World 3 ENAMETOOLONG 1 [EvSocket])
  /\ ipset_del le32 kernel_ok 1 (world_fresh 1) name33 ipv4_example 4
     = Some (NameTooLong, World 3 ENAMETOOLONG 1 [EvSocket])
  /\ ipset_fd (World 3 ENAMETOOLONG 1 [EvSocket]) <> ipset_fd (world_fresh 1)
  /\ events (World 3 ENAMETOOLONG 1 [EvSocket]) <> events (world_fresh 1)
  /\ ipset_add le32 kernel_no_socket 1 (world_fresh 1) name33 ipv4_example 4 30
     = Some (SocketError, World (-1) 24 1 [EvSocket])
  /\ sent (World 3 ENAMETOOLONG 1 [EvSocket]) = [].
Proof.
  repeat split; try reflexivity; discriminate.
Qed.

(* ----------------------------------------------------------------- *)

(** One turn of the send loop, by what the kernel answers. *)
Lemma send_loop_success (fuel : nat) (e : env) (w : world) (msg : list byte)
    (n : N) :
  sendto_reply e (calls is_sendto w) = SysOk n ->
  send_loop (S fuel) e w msg
  = Some (Z.of_N n, log (EvSendto (ipset_fd w) msg) w).
Proof.
  intro H. cbn [send_loop]. unfold sys_sendto. rewrite H. cbn [answer].
  now replace (0 <=? Z.of_N n) with true by (symmetry; apply Z.leb_le; lia).
Qed.

Lemma send_loop_transient (fuel : nat) (e : env) (w : world)
    (msg : list byte) (c : Z) :
  sendto_reply e (calls is_sendto w) = SysErr c -> transient c = true ->
  send_loop (S fuel) e w msg
  = send_loop fuel e
      (sys_nanosleep 10000 (set_errno c (log (EvSendto (ipset_fd w) msg) w)))
      msg.
Proof.
  intros H Ht. cbn [send_loop]. unfold sys_sendto. rewrite H.
  cbn [answer Z.leb Z.compare errno set_errno]. now rewrite Ht.
Qed.

Lemma send_loop_fatal (fuel : nat) (e : env) (w : world)
    (msg : list byte) (c : Z) :
  sendto_reply e (calls is_sendto w) = SysErr c -> transient c = false ->
  send_loop (S fuel) e w msg
  = send_loop fuel e (set_errno c (log (EvSendto (ipset_fd w) msg) w)) msg.
Proof.
  intros H Ht. cbn [send_loop]. unfold sys_sendto. rewrite H.
  cbn [answer Z.leb Z.compare errno set_errno]. now rewrite Ht.
Qed.

Lemma calls_log (k : event -> bool) (ev : event) (w : world) :
  calls k (log ev w) = (calls k w + (if k ev then 1 else 0))%nat.
Proof.
  unfold calls, log. cbn [events]. rewrite filter_app, length_app.
  cbn [filter]. destruct (k ev); reflexivity.
Qed.

(** A kernel that is busy for [busy] calls keeps the loop turning [busy]
    times, with one sleep per turn, and lets it return on the next. *)
Lemma busy_loop (busy : nat) (msg : list byte) (fuel : nat) :
  forall w,
    (calls is_sendto w <= busy)%nat ->
    ((fuel <= busy - calls is_sendto w)%nat ->
     send_loop fuel (kernel_busy busy) w msg = None)
    /\ ((busy - calls is_sendto w < fuel)%nat ->
        exists w',
          send_loop fuel (kernel_busy busy) w msg = Some (60, w')
          /\ calls is_sendto w' = S busy
          /\ calls is_nanosleep w'
             = (calls is_nanosleep w + (busy - calls is_sendto w))%nat).
Proof.
  induction fuel as [|fuel IH]; intros w Hw.
  - split; [reflexivity | lia].
  - destruct (Nat.ltb_spec (calls is_sendto w) busy) as [Hlt | Hge].
    + assert (Hr : sendto_reply (kernel_busy busy) (calls is_sendto w)
                   = SysErr EAGAIN).
      { cbn [kernel_busy sendto_reply].
        now replace (calls is_sendto w <? busy)%nat with true
          by (symmetry; now apply Nat.ltb_lt). }
      rewrite (send_loop_transient _ _ _ _ _ Hr) by reflexivity.
      set (w2 := sys_nanosleep 10000
                   (set_errno EAGAIN (log (EvSendto (ipset_fd w) msg) w))).
      assert (Hs2 : calls is_sendto w2 = S (calls is_sendto w)).
      { unfold w2, sys_nanosleep. rewrite calls_log. cbn [is_sendto].
        change (calls is_sendto (set_errno EAGAIN ?x))
          with (calls is_sendto x).
        rewrite calls_log. cbn [is_sendto]. lia. }
      assert (Hn2 : calls is_nanosleep w2 = S (calls is_nanosleep w)).
      { unfold w2, sys_nanosleep. rewrite calls_log. cbn [is_nanosleep].
        change (calls is_nanosleep (set_errno EAGAIN ?x))
          with (calls is_nanosleep x).
        rewrite calls_log. cbn [is_nanosleep]. lia. }
      destruct (IH w2 ltac:(lia)) as [IHn IHs]. split.
      * intro Hf. apply IHn. lia.
      * intro Hf. destruct (IHs ltac:(lia)) as (w' & Hr' & Hc & Hz).
        exists w'. repeat split; try assumption. lia.
    + assert (Hr : sendto_reply (kernel_busy busy) (calls is_sendto w)
                   = SysOk 60).
      { cbn [kernel_busy sendto_reply].
        now replace (calls is_sendto w <? busy)%nat with false
          by (symmetry; now apply Nat.ltb_ge). }
      rewrite (send_loop_success _ _ _ _ _ Hr). split; [lia|].
      intros _. eexists. split; [reflexivity|].
      rewrite !calls_log. cbn [is_sendto is_nanosleep]. lia.
Qed.

Lemma send_loop_failure (fuel : nat) (e : env) (w : world)
    (msg : list byte) (c : Z) :
  sendto_reply e (calls is_sendto w) = SysErr c ->
  send_loop (S fuel) e w msg = send_loop fuel e (after_failure c w msg) msg.
Proof.
  intro H. unfold after_failure. destruct (transient c) eqn:E.
  - now apply send_loop_transient.
  - now apply send_loop_fatal.
Qed.

Lemma calls_after_failure (c : Z) (w : world) (msg : list byte) :
  calls is_sendto (after_failure c w msg) = S (calls is_sendto w).
Proof.
  unfold after_failure, sys_nanosleep.
  destruct (transient c); rewrite ?calls_log; cbn [is_sendto];
    change (calls is_sendto (set_errno c ?x)) with (calls is_sendto x);
    rewrite calls_log; cbn [is_sendto]; lia.
Qed.

(** While the kernel refuses, the loop goes on. *)
Lemma send_loop_refused (e : env) (msg : list byte) (turns : nat) :
  forall w,
    (forall i, (i < turns)%nat ->
       exists c, sendto_reply e (calls is_sendto w + i) = SysErr c) ->
    send_loop turns e w msg = None.
Proof.
  induction turns as [|turns IH]; intros w H; [reflexivity|].
  destruct (H 0%nat ltac:(lia)) as (c & Hc). rewrite Nat.add_0_r in Hc.
  rewrite (send_loop_failure _ _ _ _ _ Hc). apply IH.
  intros i Hi. rewrite calls_after_failure.
  destruct (H (S i) ltac:(lia)) as (c' & Hc'). exists c'.
  now rewrite <- Hc', Nat.add_succ_r.
Qed.

(** It returns with the first call the kernel accepts. *)
Lemma send_loop_accepted (e : env) (msg : list byte) (n : N) (k : nat) :
  forall w,
    (forall i, (i < k)%nat ->
       exists c, sendto_reply e (calls is_sendto w + i) = SysErr c) ->
    sendto_reply e (calls is_sendto w + k) = SysOk n ->
    exists w',
      send_loop (S k) e w msg = Some (Z.of_N n, w')
      /\ calls is_sendto w' = (calls is_sendto w + S k)%nat.
Proof.
  induction k as [|k IH]; intros w H Hok.
  - rewrite Nat.add_0_r in Hok. rewrite (send_loop_success _ _ _ _ _ Hok).
    eexists. split; [reflexivity|]. rewrite calls_log. reflexivity.
  - destruct (H 0%nat ltac:(lia)) as (c & Hc). rewrite Nat.add_0_r in Hc.
    rewrite (send_loop_failure _ _ _ _ _ Hc).
    destruct (IH (after_failure c w msg)) as (w' & Hr & Hn).
    + intros i Hi. rewrite calls_after_failure.
      destruct (H (S i) ltac:(lia)) as (c' & Hc'). exists c'.
      now rewrite <- Hc', Nat.add_succ_r.
    + now rewrite calls_after_failure, <- Hok, Nat.add_succ_r.
    + exists w'. split; [exact Hr|]. rewrite Hn, calls_after_failure. lia.
Qed.

Lemma calls_slept (k : event -> bool) (c : Z) (w : world)
    (msg : list byte) :
  calls k (sys_nanosleep 10000
             (set_errno c (log (EvSendto (ipset_fd w) msg) w)))
  = (calls k w + (if k (EvSendto (ipset_fd w) msg) then 1 else 0)
     + (if k (EvNanosleep 10000) then 1 else 0))%nat.
Proof.
  unfold sys_nanosleep. rewrite calls_log.
  change (calls k (set_errno c ?x)) with (calls k x).
  now rewrite calls_log.
Qed.

Lemma transient_codes (c : Z) :
  c = EAGAIN \/ c = EWOULDBLOCK \/ c = EINTR -> transient c = true.
Proof. intros [-> | [-> | ->]]; reflexivity. Qed.

(** A run of [k] transient failures followed by a success: [k] sleeps, and
    the loop returns with call [k + 1]. *)
Lemma send_loop_transient_run (e : env) (msg : list byte) (n : N) (k : nat) :
  forall w,
    (forall i, (i < k)%nat ->
       exists c, sendto_reply e (calls is_sendto w + i) = SysErr c
                 /\ transient c = true) ->
    sendto_reply e (calls is_sendto w + k) = SysOk n ->
    exists w',
      send_loop (S k) e w msg = Some (Z.of_N n, w')
      /\ calls is_sendto w' = (calls is_sendto w + S k)%nat
      /\ calls is_nanosleep w' = (calls is_nanosleep w + k)%nat.
Proof.
  induction k as [|k IH]; intros w H Hok.
  - rewrite Nat.add_0_r in Hok. rewrite (send_loop_success _ _ _ _ _ Hok).
    eexists. split; [reflexivity|]. rewrite !calls_log.
    cbn [is_sendto is_nanosleep]. lia.
  - destruct (H 0%nat ltac:(lia)) as (c & Hc & Ht).
    rewrite Nat.add_0_r in Hc.
    rewrite (send_loop_transient _ _ _ _ _ Hc Ht).
    set (w2 := sys_nanosleep 10000
                 (set_errno c (log (EvSendto (ipset_fd w) msg) w))).
    assert (Hs2 : calls is_sendto w2 = S (calls is_sendto w))
      by (unfold w2; rewrite calls_slept; cbn [is_sendto]; lia).
    assert (Hn2 : calls is_nanosleep w2 = S (calls is_nanosleep w))
      by (unfold w2; rewrite calls_slept; cbn [is_nanosleep]; lia).
    destruct (IH w2) as (w' & Hr & Hse & Hsl).
    + intros i Hi. rewrite Hs2.
      destruct (H (S i) ltac:(lia)) as (c' & Hc' & Ht'). exists c'.
      split; [|exact Ht']. now rewrite <- Hc', Nat.add_succ_r.
    + now rewrite Hs2, <- Hok, Nat.add_succ_r.
    + exists w'. split; [exact Hr|]. split; lia.
Qed.

(** C9, as the code has it.  A turn of the loop whose [sendto] succeeds
    returns its byte count at once, without sleeping.  A turn that fails
    with EAGAIN, EWOULDBLOCK or EINTR sleeps 10000 ns and goes round again.
    Nothing bounds the number of these turns: after any number of transient
    failures in a row the loop has slept once for each and has not
    returned, it returns with the first call the kernel accepts, and it does
    not return while the failures stay transient.  A kernel that is busy for
    [busy] calls is called [busy + 1] times, with [busy] sleeps. *)
Theorem C9_send_loop (e : env) (w : world) (msg : list byte) (fuel : nat) :
  (forall n,
     sendto_reply e (calls is_sendto w) = SysOk n ->
     send_loop (S fuel) e w msg
     = Some (Z.of_N n, log (EvSendto (ipset_fd w) msg) w))
  /\ (forall c,
        sendto_reply e (calls is_sendto w) = SysErr c ->
        c = EAGAIN \/ c = EWOULDBLOCK \/ c = EINTR ->
        send_loop (S fuel) e w msg
        = send_loop fuel e
            (sys_nanosleep 10000
               (set_errno c (log (EvSendto (ipset_fd w) msg) w))) msg)
  /\ (forall k n,
        (forall i, (i < k)%nat ->
           exists c, sendto_reply e (calls is_sendto w + i) = SysErr c
                     /\ (c = EAGAIN \/ c = EWOULDBLOCK \/ c = EINTR)) ->
        sendto_reply e (calls is_sendto w + k) = SysOk n ->
        (forall turns, (turns <= k)%nat -> send_loop turns e w msg = None)
        /\ exists w',
             send_loop (S k) e w msg = Some (Z.of_N n, w')
             /\ calls is_sendto w' = (calls is_sendto w + S k)%nat
             /\ calls is_nanosleep w' = (calls is_nanosleep w + k)%nat)
  /\ ((forall i, exists c,
         sendto_reply e (calls is_sendto w + i) = SysErr c
         /\ (c = EAGAIN \/ c = EWOULDBLOCK \/ c = EINTR)) ->
      forall turns, send_loop turns e w msg = None)
  /\ (forall busy,
        calls is_sendto w = 0%nat ->
        (forall turns, (turns <= busy)%nat ->
           send_loop turns (kernel_busy busy) w msg = None)
        /\ exists w',
             send_loop (S busy) (kernel_busy busy) w msg = Some (60, w')
             /\ calls is_sendto w' = S busy
             /\ calls is_nanosleep w' = (calls is_nanosleep w + busy)%nat).
Proof.
  split; [|split; [|split; [|split]]].
  - intros n H. now apply send_loop_success.
  - intros c H Hc. apply send_loop_transient; [assumption|].
    now apply transient_codes.
  - intros k n Hbad Hok. split.
    + intros turns Ht. apply send_loop_refused.
      intros i Hi. destruct (Hbad i ltac:(lia)) as (c & Hc & _).
      now exists c.
    + apply send_loop_transient_run; [|exact Hok].
      intros i Hi. destruct (Hbad i Hi) as (c & Hc & Ht).
      exists c. split; [exact Hc | now apply transient_codes].
  - intros Hbad turns. apply send_loop_refused. intros i _.
    destruct (Hbad i) as (c & Hc & _). now exists c.
  - intros busy H0. split.
    + intros turns Ht.
      apply (proj1 (busy_loop busy msg turns w ltac:(lia))). lia.
    + destruct (proj2 (busy_loop busy msg (S busy) w ltac:(lia)) ltac:(lia))
        as (w' & Hr & Hc & Hz).
      exists w'. repeat split; try assumption. lia.
Qed.

Lemma C9_witness :
  sendto_reply (kernel_busy 2) (calls is_sendto (world_open 0)) = SysErr EAGAIN
  /\ calls is_sendto (world_open 0) = 0%nat
  /\ send_loop 3 (kernel_busy 2) (world_open 0) blocklist
     = send_loop 2 (kernel_busy 2)
         (sys_nanosleep 10000
            (set_errno EAGAIN (log (EvSendto 3 blocklist) (world_open 0))))
         blocklist
  /\ send_loop 2 (kernel_busy 2) (world_open 0) blocklist = None
  /\ exists w',
       send_loop 3 (kernel_busy 2) (world_open 0) blocklist = Some (60, w')
       /\ calls is_nanosleep w' = 2%nat.
Proof.
  assert (Hr : sendto_reply (kernel_busy 2) (calls is_sendto (world_open 0))
               = SysErr EAGAIN) by reflexivity.
  assert (H0 : calls is_sendto (world_open 0) = 0%nat) by reflexivity.
  split; [exact Hr|]. split; [exact H0|].
  destruct (C9_send_loop (kernel_busy 2) (world_open 0) blocklist 2)
    as (_ & Htr & _ & _ & Hbusy).
  split; [apply (Htr EAGAIN Hr); now left|].
  destruct (Hbusy 2%nat H0) as (Hnone & w' & Hsome & _ & Hz).
  split; [apply Hnone; apply Nat.le_refl|].
  exists w'. split; [exact Hsome | exact Hz].
Defined.

(** C9 as stated fails: no number bounds the [sendto] calls of one run of
    the loop. *)
Lemma C9_counterexample :
  ~ exists bound : nat,
      forall e fuel w msg rc w',
        (forall i c, sendto_reply e i = SysErr c -> transient c = true) ->
        send_loop fuel e w msg = Some (rc, w') ->
        (calls is_sendto w' <= calls is_sendto w + bound)%nat.
Proof.
  intros (bound & H).
  destruct (proj2 (busy_loop bound [] (S bound) (world_open 0)
                     ltac:(cbn; lia)) ltac:(cbn; lia))
    as (w' & Hr & Hc & _).
  assert (Htr : forall i c,
             sendto_reply (kernel_busy bound) i = SysErr c ->
             transient c = true).
  { intros i c. cbn [kernel_busy sendto_reply].
    destruct (i <? bound)%nat; [|discriminate].
    intro Hc'. inversion Hc'. reflexivity. }
  specialize (H _ _ _ _ _ _ Htr Hr). rewrite Hc in H. cbn in H. lia.
Qed.

(* ----------------------------------------------------------------- *)

Lemma has_timeout_request (p : platform) (conf : Z)
    (ipsetname addr : list byte) (timeout operate : Z) :
  valid_name ipsetname -> valid_address addr ->
  has_timeout p (request_buffer p conf ipsetname addr timeout operate)
  = (0 <? timeout) && negb (conf =? 0).
Proof.
  intros Hn Ha. pose proof (valid_address_len addr Ha) as Hl.
  unfold has_timeout, request_buffer.
  rewrite attributes_image by assumption.
  unfold find_attr at 1. cbn [find].
  change (attr_kind protocol_attr =? IPSET_ATTR_DATA) with false.
  change (attr_kind (setname_attr ipsetname) =? IPSET_ATTR_DATA) with false.
  change (attr_kind (data_attr p conf ipsetname addr timeout
                       (family_of (len addr))) =? IPSET_ATTR_DATA) with true.
  cbv iota. rewrite children_data by assumption.
  unfold find_attr. cbn [find].
  change (attr_kind (ip_attr p ipsetname addr (family_of (len addr)))
          =? IPSET_ATTR_TIMEOUT) with false.
  cbv iota. unfold timeout_attrs, emits_timeout, _ipset_support_timeout.
  destruct (0 <? timeout); [|reflexivity].
  destruct (conf =? 0); reflexivity.
Qed.

(** C10. The TIMEOUT attribute does not depend on the set name:
    [_ipset_support_timeout] gives the same answer for every name, read
    from the one configuration flag, and for two valid names (and valid
    addresses) with the same timeout and the same flag the two messages both
    carry the attribute or both lack it. *)
Theorem C10_timeout_independent_of_name (p : platform) (e : env) (w : world)
    (name1 name2 addr1 addr2 : list byte) (timeout operate : Z) :
  valid_name name1 -> valid_name name2 ->
  valid_address addr1 -> valid_address addr2 -> socket_ready e w ->
  _ipset_support_timeout (dns_conf_ipset_timeout_enable w) name1
  = _ipset_support_timeout (dns_conf_ipset_timeout_enable w) name2
  /\ (_ipset_support_timeout (dns_conf_ipset_timeout_enable w) name1 = 0
      <-> dns_conf_ipset_timeout_enable w <> 0)
  /\ exists buf1 buf2 w',
       _ipset_operate_build p e w name1 addr1 (len addr1) timeout operate
       = (inr buf1, w')
       /\ _ipset_operate_build p e w name2 addr2 (len addr2) timeout operate
          = (inr buf2, w')
       /\ has_timeout p buf1 = has_timeout p buf2
       /\ has_timeout p buf1
          = (0 <? timeout) && negb (dns_conf_ipset_timeout_enable w =? 0).
Proof.
  intros Hn1 Hn2 Ha1 Ha2 Hs. split; [reflexivity|]. split.
  - unfold _ipset_support_timeout.
    destruct (Z.eqb_spec (dns_conf_ipset_timeout_enable w) 0) as [-> | Hc];
      cbn [negb]; split; intro H; try congruence; discriminate.
  - eexists _, _, _.
    split; [now apply operate_build_request|].
    split; [now apply operate_build_request|].
    rewrite !has_timeout_request by assumption. split; reflexivity.
Qed.

Lemma C10_witness :
  valid_name blocklist /\ valid_name name31
  /\ valid_address ipv4_example /\ valid_address ipv6_example
  /\ socket_ready kernel_ok (world_open 1)
  /\ exists buf1 buf2 w',
       _ipset_operate_build le32 kernel_ok (world_open 1) blocklist
         ipv4_example 4 30 IPSET_ADD = (inr buf1, w')
       /\ _ipset_operate_build le32 kernel_ok (world_open 1) name31
            ipv6_example 16 30 IPSET_ADD = (inr buf2, w')
       /\ has_timeout le32 buf1 = has_timeout le32 buf2.
Proof.
  assert (Hn1 : valid_name blocklist) by reflexivity.
  assert (Hn2 : valid_name name31) by reflexivity.
  assert (Ha1 : valid_address ipv4_example) by (left; reflexivity).
  assert (Ha2 : valid_address ipv6_example) by (right; reflexivity).
  assert (Hs : socket_ready kernel_ok (world_open 1)) by reflexivity.
  split; [exact Hn1|]. split; [exact Hn2|]. split; [exact Ha1|].
  split; [exact Ha2|]. split; [exact Hs|].
  destruct (C10_timeout_independent_of_name le32 kernel_ok (world_open 1)
              blocklist name31 ipv4_example ipv6_example 30 IPSET_ADD
              Hn1 Hn2 Ha1 Ha2 Hs)
    as (_ & _ & buf1 & buf2 & w' & H1 & H2 & H3 & _).
  exists buf1, buf2, w'. split; [exact H1|]. split; [exact H2 | exact H3].
Defined.

(* ================================================================= *)
(** * Further properties of the ipset functions *)

(** X2. The length of every request lies between 52 and 104, so the message
    never reaches the end of the 256-byte buffer, and the datagram handed to
    [sendto] has exactly the length its header announces. *)
Theorem request_size_bounds (p : platform) (e : env) (w : world)
    (ipsetname addr : list byte) (timeout operate : Z) :
  valid_address addr -> valid_name ipsetname -> socket_ready e w ->
  exists buf w',
    _ipset_operate_build p e w ipsetname addr (len addr) timeout operate
    = (inr buf, w')
    /\ len buf = BUFF_SZ
    /\ 52 <= get_nlmsg_len p buf <= 104
    /\ len (datagram p buf) = get_nlmsg_len p buf.
Proof.
  intros Ha Hn Hs. pose proof (valid_address_len addr Ha) as Hl.
  eexists _, _. split; [now apply operate_build_request|].
  assert (HS := shaped_message p (dns_conf_ipset_timeout_enable w) ipsetname
                  addr timeout operate (family_of (len addr)) Hn Hl).
  rewrite get_nlmsg_len_request by assumption. unfold request_buffer.
  rewrite datagram_image, length_image by assumption.
  split; [reflexivity|]. split.
  - pose proof (strlen_range ipsetname) as Hr.
    pose proof (sizeof_ulong_cases p) as Hsz.
    unfold message_length, valid_name, valid_address, IPSET_MAXNAMELEN,
      IPV4_ADDR_LEN, IPV6_ADDR_LEN in *.
    pose proof (NETLINK_ALIGN_bounds (4 + (strlen ipsetname + 1))) as B2.
    pose proof (NETLINK_ALIGN_mod (4 + (strlen ipsetname + 1))) as M2.
    pose proof (NETLINK_ALIGN_bounds (4 + len addr)) as B3.
    pose proof (NETLINK_ALIGN_mod (4 + len addr)) as M3.
    destruct (emits_timeout _ _ _);
      [destruct Hsz as [-> | ->];
       [change (NETLINK_ALIGN (4 + 4)) with 8
       | change (NETLINK_ALIGN (4 + 8)) with 12]|];
      clear HS; Z.div_mod_to_equations; lia.
  - destruct HS as (_ & _ & Hb). rewrite len_app, len_host_bytes, Hb.
    change (Z.of_nat 4) with 4. lia.
Qed.

Lemma request_size_bounds_witness :
  valid_address ipv6_example /\ valid_name name31
  /\ socket_ready kernel_ok (world_fresh 1)
  /\ exists buf w',
       _ipset_operate_build le64 kernel_ok (world_fresh 1) name31
         ipv6_example 16 30 IPSET_ADD = (inr buf, w')
       /\ 52 <= get_nlmsg_len le64 buf <= 104.
Proof.
  assert (Ha : valid_address ipv6_example) by (right; reflexivity).
  assert (Hn : valid_name name31) by reflexivity.
  assert (Hs : socket_ready kernel_ok (world_fresh 1)) by reflexivity.
  split; [exact Ha|]. split; [exact Hn|]. split; [exact Hs|].
  destruct (request_size_bounds le64 kernel_ok (world_fresh 1) name31
              ipv6_example 30 IPSET_ADD Ha Hn Hs)
    as (buf & w' & Hb & _ & Hr & _).
  exists buf, w'. split; [exact Hb | exact Hr].
Defined.

Lemma build_then_parse_witness :
  valid_address ipv6_example /\ valid_name blocklist
  /\ socket_ready kernel_ok (world_fresh 0) /\ operation_code IPSET_DEL
  /\ exists buf w' req,
       _ipset_operate_build be32 kernel_ok (world_fresh 0) blocklist
         ipv6_example 16 0 IPSET_DEL = (inr buf, w')
       /\ parse_message be32 buf = Some req
       /\ r_setname req = c_str blocklist
       /\ r_addr req = ipv6_example
       /\ r_family req = AF_INET6.
Proof.
  assert (Ha : valid_address ipv6_example) by (right; reflexivity).
  assert (Hn : valid_name blocklist) by reflexivity.
  assert (Hs : socket_ready kernel_ok (world_fresh 0)) by reflexivity.
  assert (Hop : operation_code IPSET_DEL) by (right; reflexivity).
  split; [exact Ha|]. split; [exact Hn|]. split; [exact Hs|].
  split; [exact Hop|].
  destruct (build_then_parse be32 kernel_ok (world_fresh 0) blocklist
              ipv6_example 0 IPSET_DEL Ha Hn Hs Hop)
    as (buf & w' & req & Hb & Hp & _ & Hname & Haddr & _ & Hfam & _).
  exists buf, w', req.
  split; [exact Hb|]. split; [exact Hp|]. split; [exact Hname|].
  split; [exact Haddr | exact Hfam].
Defined.

(** X4. Where [unsigned long] has 4 bytes, and on a little-endian platform where
    it has 8, a timeout between 1 and 2^32 - 1 sent with timeouts enabled is
    read back unchanged; with timeout 0 or timeouts disabled no timeout is
    read back. *)
Theorem timeout_roundtrip (p : platform) (e : env) (w : world)
    (ipsetname addr : list byte) (timeout : Z) :
  valid_address addr -> valid_name ipsetname -> socket_ready e w ->
  model p = ILP32 \/ p = le64 -> 0 <= timeout < 2 ^ 32 ->
  exists buf w' req,
    _ipset_operate_build p e w ipsetname addr (len addr) timeout IPSET_ADD
    = (inr buf, w')
    /\ parse_message p buf = Some req
    /\ r_timeout req
       = (if (0 <? timeout) && negb (dns_conf_ipset_timeout_enable w =? 0)
          then Some timeout else None).
Proof.
  intros Ha Hn Hs Hp Ht.
  assert (Hop : operation_code IPSET_ADD) by (left; reflexivity).
  eexists _, _, _.
  split; [now apply operate_build_request|].
  split; [now apply parse_message_request|].
  cbn [r_timeout]. rewrite wire_timeout_exact by assumption.
  unfold emits_timeout, _ipset_support_timeout.
  destruct (0 <? timeout); [|reflexivity].
  destruct (dns_conf_ipset_timeout_enable w =? 0); reflexivity.
Qed.

Lemma timeout_roundtrip_witness :
  valid_address ipv4_example /\ valid_name blocklist
  /\ socket_ready kernel_ok (world_open 1)
  /\ (model le32 = ILP32 \/ le32 = le64) /\ 0 <= 30 < 2 ^ 32
  /\ exists buf w' req,
       _ipset_operate_build le32 kernel_ok (world_open 1) blocklist
         ipv4_example 4 30 IPSET_ADD = (inr buf, w')
       /\ parse_message le32 buf = Some req
       /\ r_timeout req = Some 30.
Proof.
  assert (Ha : valid_address ipv4_example) by (left; reflexivity).
  assert (Hn : valid_name blocklist) by reflexivity.
  assert (Hs : socket_ready kernel_ok (world_open 1)) by reflexivity.
  assert (Hp : model le32 = ILP32 \/ le32 = le64) by (left; reflexivity).
  assert (Ht : 0 <= 30 < 2 ^ 32) by (split; [discriminate | reflexivity]).
  split; [exact Ha|]. split; [exact Hn|]. split; [exact Hs|].
  split; [exact Hp|]. split; [exact Ht|].
  destruct (timeout_roundtrip le32 kernel_ok (world_open 1) blocklist
              ipv4_example 30 Ha Hn Hs Hp Ht)
    as (buf & w' & req & Hb & Hq & Hr).
  exists buf, w', req. split; [exact Hb|]. split; [exact Hq | exact Hr].
Defined.

(** Whatever leaves the send loop has been accepted by the kernel: the
    result is the byte count of the last [sendto], and the loop has touched
    neither the socket descriptor nor the configuration. *)
Lemma send_loop_result (fuel : nat) (e : env) (msg : list byte) :
  forall w rc w',
    send_loop fuel e w msg = Some (rc, w') ->
    0 <= rc
    /\ ipset_fd w' = ipset_fd w
    /\ calls is_socket w' = calls is_socket w
    /\ (calls is_sendto w < calls is_sendto w')%nat
    /\ sendto_reply e (pred (calls is_sendto w')) = SysOk (Z.to_N rc).
Proof.
  induction fuel as [|fuel IH]; intros w rc w' H; [discriminate|].
  destruct (sendto_reply e (calls is_sendto w)) as [n|c] eqn:E.
  - rewrite (send_loop_success _ _ _ _ _ E) in H. inversion H; subst.
    rewrite !calls_log. cbn [is_sendto is_socket log ipset_fd].
    repeat split; try lia.
    replace (pred (calls is_sendto w + 1)) with (calls is_sendto w) by lia.
    now rewrite N2Z.id.
  - rewrite (send_loop_failure _ _ _ _ _ E) in H.
    apply IH in H. destruct H as (Hrc & Hfd & Hso & Hse & Hre).
    rewrite calls_after_failure in Hse.
    assert (Hfd' : ipset_fd (after_failure c w msg) = ipset_fd w).
    { unfold after_failure. destruct (transient c); reflexivity. }
    assert (Hso' : calls is_socket (after_failure c w msg)
                   = calls is_socket w).
    { unfold after_failure, sys_nanosleep.
      destruct (transient c); rewrite ?calls_log; cbn [is_socket];
        change (calls is_socket (set_errno c ?x)) with (calls is_socket x);
        rewrite calls_log; cbn [is_socket]; lia. }
    repeat split; try assumption; try congruence; lia.
Qed.

(** X5. How a call ends.  [ipset_add] and [ipset_del] return -1 from the
    checks before the message is sent, and then nothing has been handed to
    [sendto]; once the loop is entered a call returns only after a [sendto]
    the kernel accepted, and what it returns is the non-negative byte count
    of that call converted to [int]: the count itself whenever it is at most
    [INT_MAX].  An error of [sendto] is never returned to the caller. *)
Theorem operate_return (p : platform) (e : env) (fuel : nat) (w w' : world)
    (ipsetname addr : list byte) (addr_len timeout operate : Z) (o : outcome) :
  _ipset_operate p e fuel w ipsetname addr addr_len timeout operate
  = Some (o, w') ->
  (return_value o = -1 /\ sent w' = sent w
   /\ forall rc, o <> Sent rc)
  \/ (exists rc,
        0 <= rc
        /\ sendto_reply e (pred (calls is_sendto w')) = SysOk (Z.to_N rc)
        /\ (calls is_sendto w < calls is_sendto w')%nat
        /\ o = Sent (int_of_ssize rc)
        /\ return_value o = int_of_ssize rc
        /\ (rc <= INT_MAX -> return_value o = rc /\ 0 <= return_value o)).
Proof.
  unfold _ipset_operate, _ipset_operate_build.
  destruct (socket_init_effects e w) as (Hsent & _ & _).
  destruct (negb (addr_len =? IPV4_ADDR_LEN)
            && negb (addr_len =? IPV6_ADDR_LEN)).
  { intro H. inversion H; subst. left. repeat split. discriminate. }
  destruct (if addr_len =? IPV4_ADDR_LEN then Some AF_INET
            else if addr_len =? IPV6_ADDR_LEN then Some AF_INET6 else None)
    as [af|].
  2:{ intro H. inversion H; subst. left. repeat split. discriminate. }
  destruct (_ipset_socket_init e w) as [r w0]. cbn [snd] in Hsent.
  destruct (negb (r =? 0)).
  { intro H. inversion H; subst. left. repeat split; [assumption|].
    discriminate. }
  destruct (IPSET_MAXNAMELEN <=? strlen ipsetname).
  { intro H. inversion H; subst. left. repeat split; [assumption|].
    discriminate. }
  destruct (build_message _ _ _ _ _ _ _ _) as [buf|].
  2:{ intro H. inversion H; subst. left. repeat split; [assumption|].
      discriminate. }
  unfold transmit.
  destruct (send_loop fuel e w0 (datagram p buf)) as [[rc w1]|] eqn:E;
    [|discriminate].
  intro H. inversion H; subst. right.
  destruct (send_loop_result _ _ _ _ _ _ E) as (Hrc & _ & _ & Hlt & Hre).
  assert (Hsmall : rc <= INT_MAX -> int_of_ssize rc = rc).
  { unfold INT_MAX, int_of_ssize. intro Hle.
    rewrite Z.mod_small by lia. lia. }
  exists rc. split; [exact Hrc|]. split; [exact Hre|]. split.
  - unfold sent in Hsent. unfold calls in *. rewrite <- Hsent. exact Hlt.
  - split; [reflexivity|]. split; [reflexivity|].
    intro Hle. cbn [return_value]. rewrite (Hsmall Hle). split; [reflexivity|].
    exact Hrc.
Qed.

Lemma operate_return_witness :
  exists w',
    ipset_add le32 (kernel_busy 2) 3 (world_fresh 1) blocklist ipv4_example
      4 30 = Some (Sent 60, w')
    /\ (calls is_sendto (world_fresh 1) < calls is_sendto w')%nat
    /\ return_value (Sent 60) = 60.
Proof.
  eexists. split; [vm_compute; reflexivity|].
  match goal with
  | |- (_ < calls is_sendto ?w1)%nat /\ _ =>
      assert (H : _ipset_operate le32 (kernel_busy 2) 3 (world_fresh 1)
                    blocklist ipv4_example 4 30 IPSET_ADD
                  = Some (Sent 60, w1)) by (vm_compute; reflexivity)
  end.
  destruct (operate_return _ _ _ _ _ _ _ _ _ _ _ H)
    as [(_ & _ & Hno) | (rc & Hrc & Hre & Hlt & _ & _ & Hsmall)].
  - exfalso. now apply (Hno 60).
  - split; [exact Hlt|].
    change (SysOk 60 = SysOk (Z.to_N rc)) in Hre.
    injection Hre as Hn.
    assert (E : rc = 60) by lia.
    rewrite E in Hsmall.
    exact (proj1 (Hsmall ltac:(discriminate))).
Defined.

(** X6. The socket is made once.  A call makes at most one [socket] call; with
    the descriptor already positive it makes none and leaves the
    descriptor as it is, so a second call after a first one that got a
    positive descriptor uses the same socket. *)
Theorem socket_made_once (p : platform) (e : env) (fuel : nat) (w w' : world)
    (ipsetname addr : list byte) (addr_len timeout operate : Z) (o : outcome) :
  _ipset_operate p e fuel w ipsetname addr addr_len timeout operate
  = Some (o, w') ->
  (calls is_socket w' <= calls is_socket w + 1)%nat
  /\ (0 < ipset_fd w ->
      ipset_fd w' = ipset_fd w /\ calls is_socket w' = calls is_socket w)
  /\ (forall rc, o = Sent rc -> 0 <= ipset_fd w').
Proof.
  unfold _ipset_operate, _ipset_operate_build.
  destruct (negb (addr_len =? IPV4_ADDR_LEN)
            && negb (addr_len =? IPV6_ADDR_LEN)).
  { intro H. inversion H; subst. repeat split; try discriminate.
    unfold calls. cbn. lia. }
  destruct (if addr_len =? IPV4_ADDR_LEN then Some AF_INET
            else if addr_len =? IPV6_ADDR_LEN then Some AF_INET6 else None)
    as [af|].
  2:{ intro H. inversion H; subst. repeat split; try discriminate.
      unfold calls. cbn. lia. }
  assert (Hinit :
    (calls is_socket (snd (_ipset_socket_init e w))
     <= calls is_socket w + 1)%nat
    /\ (0 < ipset_fd w -> snd (_ipset_socket_init e w) = w)
    /\ (fst (_ipset_socket_init e w) = 0 ->
        0 <= ipset_fd (snd (_ipset_socket_init e w)))).
  { unfold _ipset_socket_init, sys_socket, answer.
    destruct (Z.ltb_spec 0 (ipset_fd w)) as [Hfd | Hfd].
    - cbn [fst snd]. repeat split; lia.
    - destruct (socket_reply e (calls is_socket w)) as [n|c];
        cbn [set_ipset_fd ipset_fd];
        [destruct (Z.ltb_spec (Z.of_N n) 0) | cbn [Z.ltb Z.compare]];
        cbn [fst snd]; unfold calls;
        cbn [events set_ipset_fd set_errno log ipset_fd];
        rewrite ?filter_app, ?length_app; cbn [filter is_socket length];
        repeat split; lia. }
  destruct (_ipset_socket_init e w) as [r w0]. cbn [fst snd] in Hinit.
  destruct Hinit as (Hle & Hopen & Hfd0).
  assert (Hkeep : forall c,
             (calls is_socket (set_errno c w0) <= calls is_socket w + 1)%nat
             /\ (0 < ipset_fd w ->
                 ipset_fd (set_errno c w0) = ipset_fd w
                 /\ calls is_socket (set_errno c w0) = calls is_socket w)).
  { intro c. split; [exact Hle|]. intro Hfd.
    rewrite (Hopen Hfd). split; reflexivity. }
  assert (Hkeep0 :
             (calls is_socket w0 <= calls is_socket w + 1)%nat
             /\ (0 < ipset_fd w ->
                 ipset_fd w0 = ipset_fd w
                 /\ calls is_socket w0 = calls is_socket w)).
  { split; [exact Hle|]. intro Hfd. rewrite (Hopen Hfd). split; reflexivity. }
  destruct (Z.eqb_spec r 0) as [-> | Hr]; cbn [negb].
  2:{ intro H. inversion H; subst.
      destruct Hkeep0 as (H1 & H2). repeat split; try discriminate;
        try assumption; now apply H2. }
  destruct (IPSET_MAXNAMELEN <=? strlen ipsetname).
  { intro H. inversion H; subst.
    destruct (Hkeep ENAMETOOLONG) as (H1 & H2).
    repeat split; try discriminate; try assumption; now apply H2. }
  destruct (build_message _ _ _ _ _ _ _ _) as [buf|].
  2:{ intro H. inversion H; subst.
      destruct Hkeep0 as (H1 & H2). repeat split; try discriminate;
        try assumption; now apply H2. }
  unfold transmit.
  destruct (send_loop fuel e w0 (datagram p buf)) as [[rc w1]|] eqn:E;
    [|discriminate].
  intro H. inversion H; subst.
  destruct (send_loop_result _ _ _ _ _ _ E) as (_ & Hfd & Hso & _ & _).
  destruct Hkeep0 as (H1 & H2).
  split; [lia|]. split.
  - intro Hpos. destruct (H2 Hpos). split; congruence.
  - intros rc' _. rewrite Hfd. now apply Hfd0.
Qed.

Lemma socket_made_once_witness :
  exists w1 w2,
    ipset_add le32 kernel_ok 1 (world_fresh 1) blocklist ipv4_example 4 30
    = Some (Sent 60, w1)
    /\ ipset_del le32 kernel_ok 1 w1 blocklist ipv4_example 4
       = Some (Sent 60, w2)
    /\ calls is_socket w1 = 1%nat
    /\ calls is_socket w2 = calls is_socket w1
    /\ ipset_fd w2 = ipset_fd w1.
Proof.
  eexists. eexists.
  split; [vm_compute; reflexivity|].
  split; [vm_compute; reflexivity|].
  split; [reflexivity|].
  match goal with
  | |- calls is_socket ?w2 = calls is_socket ?w1 /\ _ =>
      assert (H : _ipset_operate le32 kernel_ok 1 w1 blocklist ipv4_example
                    4 0 IPSET_DEL = Some (Sent 60, w2))
        by (vm_compute; reflexivity);
      destruct (socket_made_once _ _ _ _ _ _ _ _ _ _ _ H) as (_ & Hopen & _);
      destruct (Hopen ltac:(reflexivity)) as (Hfd & Hcalls)
  end.
  split; [exact Hcalls | exact Hfd].
Defined.

(** X7. Descriptor 0 is not taken for an open socket.  When [socket] answers
    with a positive descriptor the next [_ipset_socket_init] does nothing;
    when it answers 0 the call succeeds as well, but the next one calls
    [socket] again; when it fails, -1 is returned and stored, [errno] is the
    one of [socket], and the next call tries again. *)
Theorem socket_init_cases (e : env) (w : world) :
  ipset_fd w <= 0 ->
  let w1 := snd (_ipset_socket_init e w) in
  events w1 = events w ++ [EvSocket]
  /\ (forall n,
        socket_reply e (calls is_socket w) = SysOk n ->
        fst (_ipset_socket_init e w) = 0
        /\ ipset_fd w1 = Z.of_N n
        /\ (n <> 0%N -> _ipset_socket_init e w1 = (0, w1))
        /\ (n = 0%N ->
            events (snd (_ipset_socket_init e w1))
            = events w ++ [EvSocket; EvSocket]))
  /\ (forall c,
        socket_reply e (calls is_socket w) = SysErr c ->
        fst (_ipset_socket_init e w) = -1
        /\ ipset_fd w1 = -1 /\ errno w1 = c
        /\ events (snd (_ipset_socket_init e w1))
           = events w ++ [EvSocket; EvSocket]).
Proof.
  intro Hfd. cbv zeta.
  assert (Hsecond : forall w1,
             ipset_fd w1 <= 0 ->
             events (snd (_ipset_socket_init e w1)) = events w1 ++ [EvSocket]).
  { intros w1 H1. now apply socket_init_effects. }
  assert (Hfirst :
    _ipset_socket_init e w
    = match socket_reply e (calls is_socket w) with
      | SysOk n => (0, set_ipset_fd (Z.of_N n) (log EvSocket w))
      | SysErr c => (-1, set_ipset_fd (-1) (set_errno c (log EvSocket w)))
      end).
  { unfold _ipset_socket_init, sys_socket, answer.
    replace (0 <? ipset_fd w) with false by (symmetry; apply Z.ltb_ge; lia).
    destruct (socket_reply e (calls is_socket w)) as [n|c];
      cbn [set_ipset_fd ipset_fd]; [|reflexivity].
    now replace (Z.of_N n <? 0) with false
      by (symmetry; apply Z.ltb_ge; lia). }
  rewrite Hfirst. clear Hfirst.
  destruct (socket_reply e (calls is_socket w)) as [n|c];
    cbn [fst snd events log set_ipset_fd set_errno ipset_fd errno].
  - split; [reflexivity|]. split; [|intros c Hc; discriminate].
    intros n' Hn'. inversion Hn'; subst n'.
    split; [reflexivity|]. split; [reflexivity|]. split.
    + intro Hn0. apply socket_ready_open. cbn [ipset_fd set_ipset_fd]. lia.
    + intros ->. rewrite Hsecond by (cbn [ipset_fd set_ipset_fd]; lia).
      cbn [events set_ipset_fd set_errno log]. now rewrite <- app_assoc.
  - split; [reflexivity|]. split; [intros n Hn; discriminate|].
    intros c' Hc'. inversion Hc'; subst c'.
    split; [reflexivity|]. split; [reflexivity|]. split; [reflexivity|].
    rewrite Hsecond by (cbn [ipset_fd set_ipset_fd]; lia).
    cbn [events set_ipset_fd set_errno log]. now rewrite <- app_assoc.
Qed.

Lemma socket_init_cases_witness :
  ipset_fd (world_fresh 0) <= 0
  /\ fst (_ipset_socket_init kernel_no_socket (world_fresh 0)) = -1
  /\ events (snd (_ipset_socket_init kernel_ok (world_fresh 0))) = [EvSocket].
Proof.
  assert (H0 : ipset_fd (world_fresh 0) <= 0) by discriminate.
  split; [exact H0|].
  destruct (socket_init_cases kernel_no_socket (world_fresh 0) H0)
    as (_ & _ & Hbad).
  destruct (socket_init_cases kernel_ok (world_fresh 0) H0) as (Hev & _ & _).
  split; [|exact Hev].
  exact (proj1 (Hbad 24 eq_refl)).
Defined.

(** X8. [NETLINK_ALIGN] rounds up to the next multiple of 4 wherever the
    addition does not wrap in the type it is computed in: for the values of
    a [__u32] up to 2^32 - 4 the result is what the macro computes in 32
    bits, it is a multiple of 4, the least one that is not below the
    argument, and aligning twice changes nothing. *)
Theorem NETLINK_ALIGN_least (x : Z) :
  0 <= x <= 4294967292 ->
  NETLINK_ALIGN x = Z.land (u32 (x + 3)) (u32 (Z.lnot 3))
  /\ u32 (NETLINK_ALIGN x) = NETLINK_ALIGN x
  /\ NETLINK_ALIGN x mod 4 = 0
  /\ x <= NETLINK_ALIGN x < x + 4
  /\ (forall m, m mod 4 = 0 -> x <= m -> NETLINK_ALIGN x <= m)
  /\ NETLINK_ALIGN (NETLINK_ALIGN x) = NETLINK_ALIGN x
  /\ (x mod 4 = 0 <-> NETLINK_ALIGN x = x).
Proof.
  intro Hx.
  pose proof (NETLINK_ALIGN_mod x) as Hm.
  pose proof (NETLINK_ALIGN_bounds x) as Hb.
  assert (Hleast : forall m, m mod 4 = 0 -> x <= m -> NETLINK_ALIGN x <= m).
  { intros m Hm4 Hle. rewrite NETLINK_ALIGN_eq in *.
    Z.div_mod_to_equations. lia. }
  assert (Hfit : NETLINK_ALIGN x <= 4294967292)
    by (apply Hleast; [reflexivity | lia]).
  split; [|split; [|split; [exact Hm|]]].
  - unfold NETLINK_ALIGN, u32.
    rewrite (Z.mod_small (x + 3)) by lia.
    change (Z.lnot 3 mod 4294967296)
      with (Z.land (Z.ones 32) (Z.lnot 3)).
    rewrite Z.land_assoc, Z.land_ones by lia.
    change (2 ^ 32) with 4294967296.
    now rewrite (Z.mod_small (x + 3)) by lia.
  - unfold u32. apply Z.mod_small. lia.
  - split; [exact Hb|]. split; [exact Hleast|]. split.
    + now apply NETLINK_ALIGN_aligned.
    + split.
      * apply NETLINK_ALIGN_aligned.
      * intro H. now rewrite <- H.
Qed.

Lemma NETLINK_ALIGN_least_witness :
  0 <= 14 <= 4294967292
  /\ NETLINK_ALIGN 14 = 16 /\ u32 (NETLINK_ALIGN 14) = 16
  /\ NETLINK_ALIGN 14 <= 16 /\ NETLINK_ALIGN 16 = 16.
Proof.
  assert (H14 : 0 <= 14 <= 4294967292) by lia.
  assert (H16 : 0 <= 16 <= 4294967292) by lia.
  destruct (NETLINK_ALIGN_least 14 H14) as (_ & Hfit & _ & _ & Hleast & _ & _).
  destruct (NETLINK_ALIGN_least 16 H16) as (_ & _ & _ & _ & _ & _ & Hfix).
  split; [exact H14|]. split; [reflexivity|]. split; [exact Hfit|]. split.
  - apply Hleast; [reflexivity | discriminate].
  - apply Hfix. reflexivity.
Defined.

(** X9. What [_ipset_add_attr] appends is read back as it was given: a walk
    from the old end of the message finds one attribute with the type, the
    declared length 4 + n (the padding is not counted) and the n bytes of
    the payload. *)
Theorem add_attr_read_back (p : platform) (L : Z) (body : list byte)
    (type n : Z) (data : list byte) :
  shaped L body -> 0 <= n <= len data -> 0 <= type < 65536 ->
  L + NETLINK_ALIGN (sizeof_ipset_netlink_attr + n) <= BUFF_SZ ->
  exists buf',
    _ipset_add_attr p (image p L body) type n data = Some buf'
    /\ walk p 1 L (skipn (Z.to_nat L) (datagram p buf'))
       = [Attr L type (sizeof_ipset_netlink_attr + n)
            (firstn (Z.to_nat n) data)].
Proof.
  intros HS Hn Hty Hfit. eexists. split; [now apply add_attr_image|].
  pose proof HS as (HL & Hal & Hb).
  assert (Hp : len (firstn (Z.to_nat n) data) = n)
    by (unfold len in *; rewrite length_firstn; lia).
  assert (HS' : shaped (L + NETLINK_ALIGN (sizeof_ipset_netlink_attr + n))
                  (body ++ attr_bytes p type (firstn (Z.to_nat n) data))).
  { rewrite <- Hp at 1. rewrite <- len_attr_bytes with (p := p) (type := type).
    apply shaped_app; [assumption | apply len_attr_mod |].
    rewrite len_attr_bytes, Hp. exact Hfit. }
  rewrite datagram_image by assumption.
  rewrite (app_assoc (host_bytes p 4 _) body).
  rewrite skipn_exact
    by (rewrite length_app, length_host_bytes; unfold len in Hb; lia).
  rewrite <- (app_nil_r (attr_bytes _ _ _)).
  unfold BUFF_SZ, sizeof_ipset_netlink_attr in *.
  pose proof (NETLINK_ALIGN_bounds (4 + n)).
  rewrite walk_attr by lia. rewrite Hp. reflexivity.
Qed.

Lemma add_attr_read_back_witness :
  shaped 20 (header_bytes le32 IPSET_ADD AF_INET)
  /\ 0 <= 10 <= len (c_mem blocklist) /\ 0 <= IPSET_ATTR_SETNAME < 65536
  /\ 20 + NETLINK_ALIGN (sizeof_ipset_netlink_attr + 10) <= BUFF_SZ
  /\ exists buf',
       _ipset_add_attr le32 (image le32 20 (header_bytes le32 IPSET_ADD AF_INET))
         IPSET_ATTR_SETNAME 10 (c_mem blocklist) = Some buf'
       /\ walk le32 1 20 (skipn 20 (datagram le32 buf'))
          = [Attr 20 IPSET_ATTR_SETNAME 14 (c_mem blocklist)].
Proof.
  assert (HS : shaped 20 (header_bytes le32 IPSET_ADD AF_INET))
    by apply shaped_headers.
  assert (Hn : 0 <= 10 <= len (c_mem blocklist))
    by (split; discriminate).
  assert (Hty : 0 <= IPSET_ATTR_SETNAME < 65536)
    by (split; [discriminate | reflexivity]).
  assert (Hfit : 20 + NETLINK_ALIGN (sizeof_ipset_netlink_attr + 10)
                 <= BUFF_SZ) by discriminate.
  split; [exact HS|]. split; [exact Hn|]. split; [exact Hty|].
  split; [exact Hfit|].
  exact (add_attr_read_back le32 20 _ IPSET_ATTR_SETNAME 10 (c_mem blocklist)
           HS Hn Hty Hfit).
Defined.

Lemma store_length (off : Z) (d : list byte) (buf buf' : buffer) :
  store off d buf = Some buf' -> len buf' = len buf.
Proof.
  unfold store, len.
  destruct ((0 <=? off) && (off + Z.of_nat (length d)
                            <=? Z.of_nat (length buf))) eqn:E; [|discriminate].
  apply andb_prop in E. destruct E as (E1 & E2).
  apply Z.leb_le in E1, E2.
  intro H. inversion H. rewrite !length_app, length_firstn, length_skipn. lia.
Qed.

Lemma store_outside (off : Z) (d : list byte) (buf : buffer) :
  len buf < off + len d -> store off d buf = None.
Proof.
  intro H. unfold store.
  replace (off + len d <=? len buf) with false
    by (symmetry; apply Z.leb_gt; exact H).
  now rewrite andb_false_r.
Qed.

(** X10. [_ipset_add_attr] checks no bound: started where the header and the
    payload do not fit the rest of the buffer, it writes past its end. *)
Theorem add_attr_no_bounds_check (p : platform) (L : Z) (body : list byte)
    (type n : Z) (data : list byte) :
  shaped L body -> 0 <= n <= len data ->
  BUFF_SZ < L + sizeof_ipset_netlink_attr + n ->
  _ipset_add_attr p (image p L body) type n data = None.
Proof.
  intros HS Hn Hbig. pose proof (length_image p L body HS) as Hlen.
  pose proof HS as (HL & Hal & Hb).
  unfold _ipset_add_attr. rewrite get_nlmsg_len_image by assumption.
  rewrite (NETLINK_ALIGN_aligned L) by assumption.
  unfold u32, BUFF_SZ, sizeof_ipset_netlink_attr in *.
  rewrite (Z.mod_small L) by lia.
  destruct (store (L + attr_type_off) _ _) as [b1|] eqn:E1; [|reflexivity].
  apply store_length in E1.
  destruct (store (L + attr_len_off) _ b1) as [b2|] eqn:E2; [|reflexivity].
  apply store_length in E2.
  unfold memcpy.
  replace ((0 <=? n) && (n <=? len data)) with true
    by (symmetry; apply andb_true_intro; split; apply Z.leb_le; lia).
  rewrite store_outside; [reflexivity|].
  change (NETLINK_ALIGN 4) with 4.
  assert (Hp : len (firstn (Z.to_nat n) data) = n)
    by (unfold len in *; rewrite length_firstn; lia).
  rewrite Hp. lia.
Qed.

Lemma add_attr_no_bounds_check_witness :
  shaped 20 (header_bytes le32 IPSET_ADD AF_INET)
  /\ 0 <= 240 <= len (zeros 240)
  /\ BUFF_SZ < 20 + sizeof_ipset_netlink_attr + 240
  /\ _ipset_add_attr le32 (image le32 20 (header_bytes le32 IPSET_ADD AF_INET))
       IPSET_ATTR_SETNAME 240 (zeros 240) = None.
Proof.
  assert (HS : shaped 20 (header_bytes le32 IPSET_ADD AF_INET))
    by apply shaped_headers.
  assert (Hn : 0 <= 240 <= len (zeros 240)) by (split; discriminate).
  assert (Hbig : BUFF_SZ < 20 + sizeof_ipset_netlink_attr + 240)
    by reflexivity.
  split; [exact HS|]. split; [exact Hn|]. split; [exact Hbig|].
  exact (add_attr_no_bounds_check le32 20 _ IPSET_ATTR_SETNAME 240 _
           HS Hn Hbig).
Defined.

(** X11. The lengths written into the two nested headers when they are closed
    cover exactly what was appended in between: DATA ends where the message
    ends, IP starts 4 bytes into DATA and ends with the address attribute,
    which starts 4 bytes into IP. *)
Theorem nested_lengths (p : platform) (e : env) (w : world)
    (ipsetname addr : list byte) (timeout operate : Z) :
  valid_address addr -> valid_name ipsetname -> socket_ready e w ->
  exists buf w' first second data ip address rest,
    _ipset_operate_build p e w ipsetname addr (len addr) timeout operate
    = (inr buf, w')
    /\ attributes p buf = [first; second; data]
    /\ children p data = ip :: rest
    /\ children p ip = [address]
    /\ is_nested data = true /\ is_nested ip = true
    /\ a_off data + a_len data = get_nlmsg_len p buf
    /\ a_off ip = a_off data + sizeof_ipset_netlink_attr
    /\ a_off address = a_off ip + sizeof_ipset_netlink_attr
    /\ a_off ip + a_len ip = a_off address + NETLINK_ALIGN (a_len address)
    /\ sizeof_ipset_netlink_attr <= a_len ip <= a_len data.
Proof.
  intros Ha Hn Hs. pose proof (valid_address_len addr Ha) as Hl.
  eexists _, _, _, _, _, _, _, _.
  split; [now apply operate_build_request|].
  split; [unfold request_buffer; now apply attributes_image|].
  split; [now apply children_data|].
  split; [now apply children_ip|].
  split; [reflexivity|]. split; [reflexivity|].
  rewrite get_nlmsg_len_request by assumption.
  unfold data_attr, ip_attr, ipaddr_attr, message_length,
    sizeof_ipset_netlink_attr.
  cbn [a_off a_len].
  rewrite len_app, ip_bytes_attr, !len_attr_bytes, len_timeout_bytes.
  unfold sizeof_ipset_netlink_attr.
  set (l2 := NETLINK_ALIGN (4 + (strlen ipsetname + 1))).
  set (l3 := NETLINK_ALIGN (4 + len addr)).
  set (l4 := if emits_timeout _ _ _ then _ else _).
  assert (H3 : l3 mod 4 = 0) by apply NETLINK_ALIGN_mod.
  assert (B3 : 4 + len addr <= l3) by apply NETLINK_ALIGN_bounds.
  assert (B4 : 0 <= l4).
  { unfold l4. destruct (emits_timeout _ _ _); [|lia].
    pose proof (NETLINK_ALIGN_bounds (4 + sizeof_ulong p)).
    pose proof (sizeof_ulong_cases p). lia. }
  rewrite (NETLINK_ALIGN_add 4 l3) by reflexivity.
  rewrite (NETLINK_ALIGN_aligned l3) by assumption.
  pose proof (len_nonneg addr). repeat split; lia.
Qed.

Lemma nested_lengths_witness :
  valid_address ipv4_example /\ valid_name blocklist
  /\ socket_ready kernel_ok (world_open 1)
  /\ exists buf w' data,
       _ipset_operate_build le32 kernel_ok (world_open 1) blocklist
         ipv4_example 4 30 IPSET_ADD = (inr buf, w')
       /\ a_off data + a_len data = get_nlmsg_len le32 buf.
Proof.
  assert (Ha : valid_address ipv4_example) by (left; reflexivity).
  assert (Hn : valid_name blocklist) by reflexivity.
  assert (Hs : socket_ready kernel_ok (world_open 1)) by reflexivity.
  split; [exact Ha|]. split; [exact Hn|]. split; [exact Hs|].
  destruct (nested_lengths le32 kernel_ok (world_open 1) blocklist
              ipv4_example 30 IPSET_ADD Ha Hn Hs)
    as (buf & w' & _ & _ & data & _ & _ & _ & Hb & _ & _ & _ & _ & _ & He & _).
  exists buf, w', data. split; [exact Hb | exact He].
Defined.

Lemma load_at (off : Z) (k : nat) (a d c : list byte) :
  len a = off -> length d = k -> load off k (a ++ d ++ c) = d.
Proof.
  intros Ha Hd. unfold load.
  rewrite skipn_exact by (unfold len in Ha; lia).
  now apply firstn_exact.
Qed.

(** The padding behind an encoded attribute is zero. *)
Lemma attr_padding (p : platform) (off type : Z)
    (pre payload rest : list byte) :
  len pre = off ->
  let n := sizeof_ipset_netlink_attr + len payload in
  load (off + n) (Z.to_nat (NETLINK_ALIGN n - n))
    (pre ++ attr_bytes p type payload ++ rest)
  = zeros (Z.to_nat (NETLINK_ALIGN n - n)).
Proof.
  intros Hpre n. unfold n, attr_bytes, sizeof_ipset_netlink_attr.
  rewrite (NETLINK_ALIGN_add 4) by reflexivity.
  replace (4 + NETLINK_ALIGN (len payload) - (4 + len payload))
    with (NETLINK_ALIGN (len payload) - len payload) by lia.
  rewrite <- !app_assoc.
  rewrite (app_assoc pre), (app_assoc (pre ++ _)), (app_assoc (_ ++ _) payload).
  apply load_at.
  - rewrite !len_app, !len_host_bytes. pose proof (len_nonneg payload). lia.
  - unfold zeros. apply repeat_length.
Qed.

(** X12. No byte of the buffer goes out as it was found on the stack: the
    padding behind every attribute of a request is zero, and so is all of
    the buffer behind the message. *)
Theorem padding_is_zero (p : platform) (e : env) (w : world)
    (ipsetname addr : list byte) (timeout operate : Z) :
  valid_address addr -> valid_name ipsetname -> socket_ready e w ->
  exists buf w',
    _ipset_operate_build p e w ipsetname addr (len addr) timeout operate
    = (inr buf, w')
    /\ Forall
         (fun a =>
            load (a_off a + a_len a)
              (Z.to_nat (NETLINK_ALIGN (a_len a) - a_len a)) buf
            = zeros (Z.to_nat (NETLINK_ALIGN (a_len a) - a_len a)))
         (all_attributes p buf)
    /\ skipn (Z.to_nat (get_nlmsg_len p buf)) buf
       = zeros (Z.to_nat (BUFF_SZ - get_nlmsg_len p buf)).
Proof.
  intros Ha Hn Hs. pose proof (valid_address_len addr Ha) as Hl.
  eexists _, _. split; [now apply operate_build_request|].
  set (conf := dns_conf_ipset_timeout_enable w).
  set (af := family_of (len addr)).
  assert (HS := shaped_message p conf ipsetname addr timeout operate af Hn Hl).
  rewrite get_nlmsg_len_request by assumption.
  unfold request_buffer. fold af. split.
  - rewrite all_attributes_image by assumption.
    assert (Hnone : forall off n b,
               NETLINK_ALIGN n = n ->
               load off (Z.to_nat (NETLINK_ALIGN n - n)) b
               = zeros (Z.to_nat (NETLINK_ALIGN n - n))).
    { intros off n b ->. now rewrite Z.sub_diag. }
    repeat apply Forall_cons.
    + (* PROTOCOL *)
      unfold image, message_body, attrs_bytes.
      rewrite (app_assoc (host_bytes p 4 _)), <- !app_assoc.
      rewrite (app_assoc (host_bytes p 4 _)).
      apply (attr_padding p 20 IPSET_ATTR_PROTOCOL _
               [byte_of_Z IPSET_PROTOCOL]).
      rewrite len_app, len_host_bytes, len_header_bytes. reflexivity.
    + (* SETNAME *)
      unfold image, message_body, attrs_bytes.
      rewrite <- !app_assoc.
      rewrite (app_assoc (host_bytes p 4 _)), (app_assoc (_ ++ _)).
      unfold setname_attr. cbn [a_off a_len].
      rewrite <- len_setname_payload.
      apply (attr_padding p 28 IPSET_ATTR_SETNAME).
      rewrite !len_app, len_host_bytes, len_header_bytes, len_attr_bytes.
      reflexivity.
    + (* DATA *)
      apply Hnone. unfold data_attr. cbn [a_len].
      rewrite (NETLINK_ALIGN_add 4) by reflexivity. f_equal.
      apply NETLINK_ALIGN_aligned. rewrite len_app.
      apply mod4_add; [rewrite ip_bytes_attr; apply len_attr_mod
                      | apply len_timeout_mod].
    + (* IP *)
      apply Hnone. unfold ip_attr. cbn [a_len].
      rewrite (NETLINK_ALIGN_add 4) by reflexivity. f_equal.
      apply NETLINK_ALIGN_aligned, len_attr_mod.
    + (* the address *)
      apply Hnone. unfold ipaddr_attr. cbn [a_len].
      destruct Ha as [-> | ->]; reflexivity.
    + (* TIMEOUT *)
      unfold timeout_attrs. destruct (emits_timeout conf ipsetname timeout);
        [|constructor].
      repeat constructor. apply Hnone. unfold timeout_attr. cbn [a_len].
      destruct (sizeof_ulong_cases p) as [-> | ->]; reflexivity.
  - destruct HS as (HL & _ & Hb). unfold image.
    rewrite (app_assoc (host_bytes p 4 _)).
    apply skipn_exact. rewrite length_app, length_host_bytes.
    unfold len in Hb. lia.
Qed.

Lemma padding_is_zero_witness :
  valid_address ipv4_example /\ valid_name blocklist
  /\ socket_ready kernel_ok (world_open 0)
  /\ exists buf w',
       _ipset_operate_build be64 kernel_ok (world_open 0) blocklist
         ipv4_example 4 0 IPSET_ADD = (inr buf, w')
       /\ skipn (Z.to_nat (get_nlmsg_len be64 buf)) buf
          = zeros (Z.to_nat (BUFF_SZ - get_nlmsg_len be64 buf)).
Proof.
  assert (Ha : valid_address ipv4_example) by (left; reflexivity).
  assert (Hn : valid_name blocklist) by reflexivity.
  assert (Hs : socket_ready kernel_ok (world_open 0)) by reflexivity.
  split; [exact Ha|]. split; [exact Hn|]. split; [exact Hs|].
  destruct (padding_is_zero be64 kernel_ok (world_open 0) blocklist
              ipv4_example 0 IPSET_ADD Ha Hn Hs) as (buf & w' & Hb & _ & Hz).
  exists buf, w'. split; [exact Hb | exact Hz].
Defined.

(* ================================================================= *)
(** * [reverse_string] *)

Lemma firstn_snoc (k : nat) (s : list byte) (c : byte) :
  nth_error s k = Some c -> firstn (S k) s = firstn k s ++ [c].
Proof.
  revert s. induction k as [|k IH]; intros [|b t] H; try discriminate.
  - inversion H. reflexivity.
  - cbn [nth_error] in H. cbn [firstn app]. f_equal. rewrite <- IH by exact H.
    reflexivity.
Qed.

(** The loop fills the [k] bytes behind [pre] with the first [k] bytes of
    the input, last one first. *)
Lemma reverse_loop_fills (k : nat) (input pre mid post : list byte) :
  (k <= length input)%nat -> length mid = k ->
  reverse_loop k input (pre ++ mid ++ post) (len pre)
  = Some (pre ++ rev (firstn k input) ++ post, len pre + Z.of_nat k).
Proof.
  revert pre mid. induction k as [|k IH]; intros pre mid Hk Hm.
  - destruct mid; [|discriminate]. cbn [reverse_loop firstn rev app].
    now rewrite Z.add_0_r.
  - destruct mid as [|m mid]; [discriminate|]. cbn [reverse_loop].
    destruct (nth_error input k) as [c|] eqn:E;
      [|apply nth_error_None in E; lia].
    change ((m :: mid) ++ post) with ([m] ++ mid ++ post).
    rewrite (store_at pre [m] (mid ++ post) [c]) by reflexivity.
    change (pre ++ [c] ++ mid ++ post) with (pre ++ [c] ++ (mid ++ post)).
    rewrite (app_assoc pre [c]).
    replace (len pre + 1) with (len (pre ++ [c]))
      by (rewrite len_app; reflexivity).
    rewrite IH by (cbn [length] in Hm; lia).
    rewrite (firstn_snoc k input c E), rev_app_distr, <- !app_assoc.
    rewrite len_app. cbn [rev app]. f_equal. f_equal.
    unfold len. cbn [length]. lia.
Qed.

(** What a completed loop implies: the buffer has kept its size, [output]
    has moved by [k], and both the reads and the writes were in range. *)
Lemma reverse_loop_some (k : nat) (input : list byte) (output o : buffer)
    (pos q : Z) :
  reverse_loop k input output pos = Some (o, q) ->
  len o = len output /\ q = pos + Z.of_nat k
  /\ (k <= length input)%nat
  /\ ((0 < k)%nat -> 0 <= pos /\ pos + Z.of_nat k <= len output).
Proof.
  revert output pos. induction k as [|k IH]; intros output pos H.
  - cbn [reverse_loop] in H. inversion H. subst.
    repeat split; try lia.
  - cbn [reverse_loop] in H.
    destruct (nth_error input k) as [c|] eqn:E; [|discriminate].
    destruct (store pos [c] output) as [o1|] eqn:S1; [|discriminate].
    assert (Hk : (k < length input)%nat)
      by (apply nth_error_Some; now rewrite E).
    pose proof (store_length _ _ _ _ S1) as L1.
    assert (Hin : 0 <= pos /\ pos + 1 <= len output).
    { unfold store in S1.
      destruct ((0 <=? pos) && (pos + len [c] <=? len output)) eqn:B;
        [|discriminate].
      apply andb_prop in B. destruct B as (B1 & B2).
      apply Z.leb_le in B1, B2. unfold len in B2 at 1. cbn in B2.
      split; lia. }
    destruct (IH o1 (pos + 1) H) as (L & Q & _ & R).
    repeat split; lia.
Qed.

(** X13. [reverse_string] writes the first [n] bytes of the input in reverse
    order followed by a NUL, and leaves the rest of the output buffer as it
    was; for [n <= 0] it writes the NUL only. *)
Theorem reverse_string_bytes (output input : list byte) (n : Z) :
  n <= len input -> Z.max n 0 < len output ->
  reverse_string output input n
  = Some (rev (firstn (Z.to_nat n) input) ++ [x00]
          ++ skipn (Z.to_nat n + 1) output).
Proof.
  intros Hin Hout. unfold reverse_string, len in *.
  destruct (n <=? 0) eqn:E.
  - apply Z.leb_le in E. replace (Z.to_nat n) with O by lia.
    destruct output as [|b t]; [cbn in Hout; lia|].
    cbn [firstn rev app Nat.add skipn].
    apply (store_front [b] t [x00]). reflexivity.
  - apply Z.leb_gt in E.
    set (k := Z.to_nat n).
    rewrite <- (firstn_skipn k output) at 1.
    assert (Hs : exists b, skipn k output = b :: skipn (k + 1) output).
    { destruct (skipn k output) as [|b r] eqn:S.
      - apply (f_equal (@length byte)) in S. rewrite length_skipn in S.
        cbn in S. lia.
      - exists b. f_equal.
        replace (k + 1)%nat with (1 + k)%nat by lia.
        rewrite <- skipn_skipn, S. reflexivity. }
    destruct Hs as (b & ->).
    pose proof (reverse_loop_fills k input [] (firstn k output)
                  (b :: skipn (k + 1) output)) as HL.
    cbn [app] in HL. change (len []) with 0 in HL.
    rewrite HL by (try rewrite length_firstn; lia).
    rewrite Z.add_0_l.
    replace (Z.of_nat k) with (len (rev (firstn k input)))
      by (unfold len; rewrite length_rev, length_firstn; lia).
    change (b :: skipn (k + 1) output) with ([b] ++ skipn (k + 1) output).
    apply store_at; reflexivity.
Qed.

Lemma reverse_string_bytes_witness :
  reverse_string (zeros 6) [x61; x62; x63; x64] 3
  = Some [x63; x62; x61; x00; x00; x00].
Proof.
  apply (reverse_string_bytes (zeros 6) [x61; x62; x63; x64] 3);
    unfold len; simpl; lia.
Defined.

(** X14. The call is defined exactly when the input holds [n] bytes and the
    output buffer [n + 1] (one for a non-positive [n]): the function has no
    way to check either. *)
Theorem reverse_string_room (output input : list byte) (n : Z) :
  reverse_string output input n <> None
  <-> n <= len input /\ Z.max n 0 < len output.
Proof.
  split.
  - intro H. unfold reverse_string in H.
    destruct (n <=? 0) eqn:E.
    + apply Z.leb_le in E. pose proof (len_nonneg input). split; [lia|].
      destruct (Z_lt_le_dec (Z.max n 0) (len output)) as [?|Hle];
        [assumption|].
      exfalso. apply H. apply store_outside.
      unfold len at 2. cbn [length]. lia.
    + apply Z.leb_gt in E.
      destruct (reverse_loop (Z.to_nat n) input output 0) as [[o q]|] eqn:L;
        [|now elim H].
      destruct (reverse_loop_some _ _ _ _ _ _ L) as (Lo & Q & Hi & R).
      unfold len. split; [lia|].
      destruct (Z_lt_le_dec (Z.max n 0) (len output)) as [?|Hle];
        [assumption|].
      exfalso. apply H. apply store_outside.
      unfold len at 2. cbn [length]. lia.
  - intros (Hi & Ho). now rewrite reverse_string_bytes.
Qed.

(** X15. On strings, reversing is its own inverse: reversing [s] and then the
    result gives [s] back. *)
Theorem reverse_string_twice (s out1 out2 : list byte) :
  ~ In x00 s -> len s < len out1 -> len s < len out2 ->
  exists r1 r2,
    reverse_string out1 s (strlen s) = Some r1
    /\ c_str r1 = rev s
    /\ reverse_string out2 r1 (strlen r1) = Some r2
    /\ c_str r2 = s.
Proof.
  intros Hs H1 H2.
  pose proof (len_nonneg s) as Hn.
  assert (Hr : ~ In x00 (rev s)) by (now rewrite <- in_rev).
  assert (Hf : firstn (Z.to_nat (len s)) s = s)
    by (unfold len; rewrite Nat2Z.id; apply firstn_all).
  eexists _, _. rewrite strlen_no_nul by assumption.
  split; [apply reverse_string_bytes; lia|].
  rewrite Hf. cbn [app].
  split; [now apply c_str_app_nul|].
  assert (Hl : strlen (rev s ++ x00 :: skipn (Z.to_nat (len s) + 1) out1)
               = len s).
  { rewrite <- (len_c_str (rev s ++ _)), c_str_app_nul by assumption.
    unfold len. now rewrite length_rev. }
  rewrite Hl. split.
  - apply reverse_string_bytes; [rewrite len_app; unfold len at 2|lia].
    rewrite length_rev. fold (len s). pose proof (len_nonneg (x00 :: skipn (Z.to_nat (len s) + 1) out1)). lia.
  - rewrite firstn_exact by (rewrite length_rev; unfold len; lia).
    rewrite rev_involutive. cbn [app]. now apply c_str_app_nul.
Qed.

Lemma reverse_string_twice_witness :
  exists r1 r2,
    reverse_string (zeros 8) [x61; x62; x63] 3 = Some r1
    /\ c_str r1 = [x63; x62; x61]
    /\ reverse_string (zeros 4) r1 (strlen r1) = Some r2
    /\ c_str r2 = [x61; x62; x63].
Proof.
  apply (reverse_string_twice [x61; x62; x63] (zeros 8) (zeros 4)).
  - intros [H|[H|[H|[]]]]; discriminate H.
  - unfold len; simpl; lia.
  - unfold len; simpl; lia.
Defined.

(* ================================================================= *)
(** * [parse_ip] *)

(** ** Strings and the libc functions *)

Lemma c_str_cons (c : byte) (t : list byte) :
  c_str (c :: t) = if Byte.eqb c x00 then [] else c :: c_str t.
Proof.
  unfold c_str. cbn [strlen]. destruct (Byte.eqb c x00); [reflexivity|].
  pose proof (strlen_range t).
  replace (Z.to_nat (1 + strlen t)) with (S (Z.to_nat (strlen t))) by lia.
  reflexivity.
Qed.

Lemma c_str_idem (s : list byte) : c_str (c_str s) = c_str s.
Proof. apply c_str_no_nul, c_str_nul_free. Qed.

Lemma c_str_app (a r : list byte) :
  ~ In x00 a -> c_str (a ++ r) = a ++ c_str r.
Proof.
  induction a as [|c a IH]; intro H; [reflexivity|].
  cbn [app]. rewrite c_str_cons.
  destruct (Byte.eqb c x00) eqn:E.
  - apply Byte.byte_dec_bl in E. subst c. exfalso. apply H. now left.
  - rewrite IH; [reflexivity|]. intro; apply H; now right.
Qed.

Lemma c_str_skipn (k : nat) (s : list byte) :
  (k <= length (c_str s))%nat -> c_str (skipn k s) = skipn k (c_str s).
Proof.
  revert s. induction k as [|k IH]; intros s H; [reflexivity|].
  destruct s as [|c t]; [reflexivity|].
  rewrite c_str_cons in *. destruct (Byte.eqb c x00); [cbn in H; lia|].
  cbn [skipn]. apply IH. cbn [length] in H. lia.
Qed.

Lemma firstn_c_str (k : nat) (s : list byte) :
  (k <= length (c_str s))%nat -> firstn k (c_str s) = firstn k s.
Proof.
  unfold c_str. intro H. rewrite length_firstn in H.
  rewrite firstn_firstn. f_equal. lia.
Qed.

Lemma length_c_str_le (s : list byte) : (length (c_str s) <= length s)%nat.
Proof. unfold c_str. rewrite length_firstn. lia. Qed.

(** A one-byte needle: [find_sub] gives the place of its first occurrence. *)
Lemma find_sub_char (c : byte) (s : list byte) :
  match find_sub [c] s with
  | Some i => exists a t, s = a ++ c :: t /\ length a = i /\ ~ In c a
  | None => ~ In c s
  end.
Proof.
  induction s as [|b t IH]; [simpl; tauto|].
  cbn [find_sub prefixb]. destruct (Byte.eqb c b) eqn:E; cbn [andb].
  - apply Byte.byte_dec_bl in E. subst b.
    exists [], t. repeat split. simpl. tauto.
  - assert (Hcb : b <> c).
    { intros ->. rewrite (Byte.byte_dec_lb (eq_refl c)) in E. discriminate. }
    destruct (find_sub [c] t) as [i|]; cbn [option_map].
    + destruct IH as (a & r & -> & <- & Ha).
      exists (b :: a), r. repeat split. intros [H|H]; tauto.
    + intros [H|H]; tauto.
Qed.

Lemma app_first_unique (c : byte) (a a' t t' : list byte) :
  a ++ c :: t = a' ++ c :: t' -> ~ In c a -> ~ In c a' -> a = a' /\ t = t'.
Proof.
  revert a'. induction a as [|x a IH]; intros [|y a'] H Ha Ha'.
  - inversion H. now split.
  - inversion H. subst y. exfalso. apply Ha'. now left.
  - inversion H. subst x. exfalso. apply Ha. now left.
  - inversion H. subst y.
    destruct (IH a' H2) as (-> & ->);
      [intro; apply Ha; now right | intro; apply Ha'; now right |].
    now split.
Qed.

Lemma find_sub_first (c : byte) (a t : list byte) :
  ~ In c a -> find_sub [c] (a ++ c :: t) = Some (length a).
Proof.
  intro Ha. pose proof (find_sub_char c (a ++ c :: t)) as H.
  destruct (find_sub [c] (a ++ c :: t)) as [i|].
  - destruct H as (a' & t' & E & <- & Ha').
    destruct (app_first_unique c a a' t t' E Ha Ha') as (-> & _). reflexivity.
  - exfalso. apply H, in_or_app. right. now left.
Qed.

Lemma find_sub_absent (c : byte) (s : list byte) :
  ~ In c s -> find_sub [c] s = None.
Proof.
  intro Hs. pose proof (find_sub_char c s) as H.
  destruct (find_sub [c] s) as [i|]; [|reflexivity].
  destruct H as (a & t & -> & _). exfalso. apply Hs, in_or_app. right. now left.
Qed.

Lemma strstr_c_str (s needle : list byte) :
  strstr (c_str s) needle = strstr s needle.
Proof. unfold strstr. now rewrite c_str_idem. Qed.

Lemma strstr_skipn_c_str (k : nat) (s needle : list byte) :
  (k <= length (c_str s))%nat ->
  strstr (skipn k (c_str s)) needle = strstr (skipn k s) needle.
Proof.
  intro H. unfold strstr.
  rewrite (c_str_skipn k s) by assumption.
  rewrite (c_str_skipn k (c_str s)) by now rewrite c_str_idem.
  now rewrite c_str_idem.
Qed.

Lemma strstr_first (c : byte) (a t : list byte) :
  ~ In c a -> ~ In x00 a -> c <> x00 ->
  strstr (a ++ c :: t) [c] = Some (length a).
Proof.
  intros Ha H0 Hc. unfold strstr. rewrite c_str_app by assumption.
  rewrite c_str_cons.
  destruct (Byte.eqb c x00) eqn:E;
    [apply Byte.byte_dec_bl in E; contradiction|].
  now apply find_sub_first.
Qed.

Lemma strstr_absent (c : byte) (s : list byte) :
  ~ In c (c_str s) -> strstr s [c] = None.
Proof. intro H. unfold strstr. now apply find_sub_absent. Qed.

Lemma strstr_some (c : byte) (s : list byte) (i : nat) :
  strstr s [c] = Some i ->
  exists a t, c_str s = a ++ c :: t /\ length a = i /\ ~ In c a.
Proof.
  unfold strstr. intro H. pose proof (find_sub_char c (c_str s)) as F.
  now rewrite H in F.
Qed.

Lemma strstr_none (c : byte) (s : list byte) :
  strstr s [c] = None -> ~ In c (c_str s).
Proof.
  unfold strstr. intro H. pose proof (find_sub_char c (c_str s)) as F.
  now rewrite H in F.
Qed.

(** [atoi] stops at the terminator. *)
Lemma skip_space_c_str (s : list byte) :
  skip_space (c_str s) = c_str (skip_space s).
Proof.
  induction s as [|c t IH]; [reflexivity|].
  rewrite c_str_cons. destruct (Byte.eqb c x00) eqn:E.
  - apply Byte.byte_dec_bl in E. subst c. reflexivity.
  - cbn [skip_space]. destruct (isspace c); [exact IH|].
    rewrite c_str_cons, E. reflexivity.
Qed.

Lemma digits_value_c_str (s : list byte) (acc : Z) :
  digits_value acc (c_str s) = digits_value acc s.
Proof.
  revert acc. induction s as [|c t IH]; intro acc; [reflexivity|].
  rewrite c_str_cons. destruct (Byte.eqb c x00) eqn:E.
  - apply Byte.byte_dec_bl in E. subst c. reflexivity.
  - cbn [digits_value]. destruct (isdigit c); [apply IH | reflexivity].
Qed.

Lemma atoi_c_str (s : list byte) : atoi (c_str s) = atoi s.
Proof.
  unfold atoi. rewrite skip_space_c_str.
  destruct (skip_space s) as [|c t]; [reflexivity|].
  rewrite c_str_cons. destruct (Byte.eqb c x00) eqn:E.
  - apply Byte.byte_dec_bl in E. subst c. reflexivity.
  - rewrite !digits_value_c_str.
    replace (digits_value 0 (c :: c_str t)) with (digits_value 0 (c :: t))
      by (cbn [digits_value]; now rewrite digits_value_c_str).
    reflexivity.
Qed.

Lemma atoi_skipn_c_str (k : nat) (s : list byte) :
  (k <= length (c_str s))%nat ->
  atoi (skipn k (c_str s)) = atoi (skipn k s).
Proof.
  intro H. rewrite <- c_str_skipn by assumption. apply atoi_c_str.
Qed.

Lemma strncpy_c_str (s : list byte) (n : Z) (dst : buffer) :
  strncpy (c_str s) n dst = strncpy s n dst.
Proof. unfold strncpy. now rewrite c_str_idem. Qed.

Lemma memcpy_c_str (off : Z) (k : nat) (s : list byte) (n : Z)
    (buf : buffer) :
  n + Z.of_nat k <= len (c_str s) ->
  memcpy off (skipn k (c_str s)) n buf = memcpy off (skipn k s) n buf.
Proof.
  intro H. unfold memcpy, len in *.
  pose proof (length_c_str_le s) as Hl.
  rewrite !length_skipn.
  destruct (0 <=? n) eqn:E; [|reflexivity]. apply Z.leb_le in E.
  replace (n <=? Z.of_nat (length (c_str s) - k)) with true
    by (symmetry; apply Z.leb_le; lia).
  replace (n <=? Z.of_nat (length s - k)) with true
    by (symmetry; apply Z.leb_le; lia).
  cbn [andb]. f_equal.
  rewrite !firstn_skipn_comm.
  rewrite (firstn_c_str (k + Z.to_nat n) s) by lia. reflexivity.
Qed.

Lemma parse_ip_c_str (MAX_IP_LEN PORT_NOT_DEFINED : Z)
    (value : list byte) (ip : buffer) (port : Z) :
  parse_ip MAX_IP_LEN PORT_NOT_DEFINED (c_str value) ip port
  = parse_ip MAX_IP_LEN PORT_NOT_DEFINED value ip port.
Proof.
  unfold parse_ip. rewrite !strstr_c_str, strncpy_c_str.
  destruct (strstr value [char_lbracket]) as [lb|].
  - destruct (strstr value [char_rbracket]) as [j|] eqn:Ej; [|reflexivity].
    destruct (strstr_some _ _ _ Ej) as (a & t & Hs & Hj & _).
    assert (Hlen : (j < length (c_str value))%nat)
      by (rewrite Hs, length_app; cbn [length]; lia).
    rewrite strstr_skipn_c_str by lia.
    destruct j as [|j].
    + unfold memcpy. cbn. reflexivity.
    + rewrite memcpy_c_str by (unfold len; lia).
      destruct (memcpy 0 (skipn 1 value) (Z.of_nat (S j) - 1) ip) as [ip1|];
        [|reflexivity].
      destruct (store (Z.of_nat (S j) - 1) [x00] ip1) as [ip2|];
        [|reflexivity].
      destruct (strstr (skipn (S j) value) [char_colon]) as [c|] eqn:Ec;
        [|reflexivity].
      unfold parse_ip_port. rewrite atoi_skipn_c_str; [reflexivity|].
      destruct (strstr_some _ _ _ Ec) as (a' & t' & Hs' & Hc & _).
      rewrite c_str_skipn in Hs' by lia.
      apply (f_equal (@length byte)) in Hs'.
      rewrite length_skipn, length_app in Hs'. cbn [length] in Hs'. lia.
  - destruct (strstr value [char_colon]) as [c|] eqn:Ec.
    + destruct (strstr_some _ _ _ Ec) as (a & t & Hs & Hc & _).
      assert (Hlen : (c < length (c_str value))%nat)
        by (rewrite Hs, length_app; cbn [length]; lia).
      rewrite strstr_skipn_c_str by lia.
      destruct (strstr (skipn (c + 1) value) [char_colon]); [reflexivity|].
      change (c_str value) with (skipn 0 (c_str value)) at 1.
      rewrite memcpy_c_str by (unfold len; lia). cbn [skipn].
      destruct (memcpy 0 value (Z.of_nat c) ip) as [ip1|]; [|reflexivity].
      destruct (store (Z.of_nat c) [x00] ip1) as [ip2|]; [|reflexivity].
      unfold parse_ip_port. rewrite atoi_skipn_c_str by lia. reflexivity.
    + reflexivity.
Qed.

(** X16. [parse_ip] looks at the string only: two arguments that hold the
    same string give the same result, whatever lies in memory behind the
    terminator. *)
Theorem parse_ip_reads_string (MAX_IP_LEN PORT_NOT_DEFINED : Z)
    (value1 value2 : list byte) (ip : buffer) (port : Z) :
  c_str value1 = c_str value2 ->
  parse_ip MAX_IP_LEN PORT_NOT_DEFINED value1 ip port
  = parse_ip MAX_IP_LEN PORT_NOT_DEFINED value2 ip port.
Proof.
  intro H. rewrite <- (parse_ip_c_str _ _ value1), H. apply parse_ip_c_str.
Qed.

(** "a:1" followed by a NUL, and by a NUL and more *)
Lemma parse_ip_reads_string_witness :
  parse_ip 64 (-1) [x61; x3a; x31; x00] (zeros 4) 0
  = parse_ip 64 (-1) [x61; x3a; x31; x00; x3a; x5b; x39] (zeros 4) 0.
Proof.
  apply (parse_ip_reads_string 64 (-1) [x61; x3a; x31; x00]
           [x61; x3a; x31; x00; x3a; x5b; x39] (zeros 4) 0).
  reflexivity.
Defined.

Lemma in_c_str (c : byte) (s : list byte) : In c (c_str s) -> In c s.
Proof.
  unfold c_str. intro H.
  rewrite <- (firstn_skipn (Z.to_nat (strlen s)) s). apply in_or_app.
  now left.
Qed.

(** ** The copies into [ip] *)

Lemma store_prefix (d : list byte) (buf : buffer) :
  len d <= len buf -> store 0 d buf = Some (d ++ skipn (length d) buf).
Proof.
  intro H. unfold store.
  replace ((0 <=? 0) && (0 + len d <=? len buf)) with true
    by (symmetry; apply andb_true_intro; split; apply Z.leb_le; lia).
  reflexivity.
Qed.

(** [memcpy(ip, src, n); ip[n] = 0;] with the first [n] bytes of [src]
    being [host]. *)
Lemma copy_terminated (host src : list byte) (ip : buffer) :
  firstn (length host) src = host -> len host <= len src ->
  len host < len ip ->
  (ip1 <- memcpy 0 src (len host) ip ;; store (len host) [x00] ip1)
  = Some (host ++ x00 :: skipn (length host + 1) ip).
Proof.
  intros Hf Hs Hi. unfold memcpy.
  replace ((0 <=? len host) && (len host <=? len src)) with true
    by (symmetry; apply andb_true_intro; split; apply Z.leb_le;
        [apply len_nonneg | lia]).
  unfold len at 1. rewrite Nat2Z.id, Hf.
  rewrite store_prefix by lia.
  assert (Hsk : exists b, skipn (length host) ip
                          = b :: skipn (length host + 1) ip).
  { destruct (skipn (length host) ip) as [|b r] eqn:S.
    - apply (f_equal (@length byte)) in S. rewrite length_skipn in S.
      unfold len in Hi. cbn in S. lia.
    - exists b. f_equal.
      replace (length host + 1)%nat with (1 + length host)%nat by lia.
      rewrite <- skipn_skipn, S. reflexivity. }
  destruct Hsk as (b & ->).
  change (b :: ?r) with ([b] ++ r).
  change (x00 :: ?r) with ([x00] ++ r).
  apply store_at; reflexivity.
Qed.

(** The same copy into a buffer that cannot take [host] and a terminator. *)
Lemma copy_overrun (host src : list byte) (ip : buffer) :
  len ip <= len host ->
  (ip1 <- memcpy 0 src (len host) ip ;; store (len host) [x00] ip1) = None.
Proof.
  intro Hi.
  destruct (memcpy 0 src (len host) ip) as [ip1|] eqn:M; [|reflexivity].
  apply store_outside. unfold memcpy in M.
  destruct ((0 <=? len host) && (len host <=? len src)); [|discriminate].
  apply store_length in M. rewrite M. unfold len at 3. cbn [length]. lia.
Qed.

Lemma parse_ip_port_head (PORT : Z) (value host r : list byte)
    (colon : option nat) (n : Z) :
  match colon with
  | Some c => atoi (skipn c value) = Some n
  | None => n = PORT
  end ->
  ~ In x00 host ->
  parse_ip_port PORT value colon (host ++ x00 :: r)
  = Some (if len host =? 0 then -1 else 0, host ++ x00 :: r, n).
Proof.
  intros Hc H0. unfold parse_ip_port.
  replace (match colon with
           | Some c => atoi (skipn c value)
           | None => Some PORT
           end) with (Some n)
    by (destruct colon; [now rewrite Hc | now subst]).
  destruct host as [|h t]; [reflexivity|].
  cbn [app nth_error].
  destruct (Byte.eqb h x00) eqn:E.
  - apply Byte.byte_dec_bl in E. subst h. exfalso. apply H0. now left.
  - reflexivity.
Qed.

Lemma not_in_app_l (c : byte) (a b : list byte) : ~ In c (a ++ b) -> ~ In c a.
Proof. intros H Hin. apply H, in_or_app. now left. Qed.

Lemma not_in_app_r (c : byte) (a b : list byte) : ~ In c (a ++ b) -> ~ In c b.
Proof. intros H Hin. apply H, in_or_app. now right. Qed.

Lemma skipn_past (a : list byte) (c : byte) (t : list byte) :
  skipn (length a + 1) (a ++ c :: t) = t.
Proof.
  replace (length a + 1)%nat with (length (a ++ [c]))
    by (rewrite length_app; reflexivity).
  change (c :: t) with ([c] ++ t). rewrite app_assoc. apply skipn_exact.
  reflexivity.
Qed.

(** The branch taken for one colon and no bracket. *)
Lemma parse_ip_one_colon (M P : Z) (host rest : list byte) (ip : buffer)
    (port : Z) :
  ~ In x00 (host ++ char_colon :: rest) ->
  ~ In char_colon host -> ~ In char_colon rest ->
  ~ In char_lbracket (host ++ char_colon :: rest) ->
  parse_ip M P (host ++ char_colon :: rest) ip port
  = (ip1 <- memcpy 0 (host ++ char_colon :: rest) (len host) ip ;;
     ip2 <- store (len host) [x00] ip1 ;;
     parse_ip_port P (host ++ char_colon :: rest)
       (Some (length host + 1)%nat) ip2).
Proof.
  intros H0 Hh Hr Hb. unfold parse_ip.
  rewrite (strstr_absent char_lbracket)
    by (rewrite c_str_no_nul by assumption; assumption).
  rewrite (strstr_first char_colon host rest);
    [|assumption | now apply not_in_app_l in H0 | discriminate].
  rewrite skipn_past.
  rewrite (strstr_absent char_colon rest)
    by (intro Hin; apply Hr; now apply in_c_str).
  reflexivity.
Qed.

(** X17. For [host:port] the host is copied to [ip] and terminated, the text
    behind the colon goes to [atoi]; an empty host makes the result -1 (with
    [*port] set all the same). *)
Theorem parse_ip_host_port (MAX_IP_LEN PORT_NOT_DEFINED : Z)
    (value host rest : list byte) (ip : buffer) (port n : Z) :
  c_str value = host ++ char_colon :: rest ->
  ~ In char_colon host -> ~ In char_colon rest ->
  ~ In char_lbracket (c_str value) ->
  len host < len ip ->
  atoi rest = Some n ->
  parse_ip MAX_IP_LEN PORT_NOT_DEFINED value ip port
  = Some (if len host =? 0 then -1 else 0,
          host ++ x00 :: skipn (length host + 1) ip, n).
Proof.
  intros Hs Hh Hr Hb Hi Hn.
  pose proof (c_str_nul_free value) as H0.
  rewrite <- parse_ip_c_str. rewrite Hs in *.
  rewrite parse_ip_one_colon by assumption.
  assert (C := copy_terminated host (host ++ char_colon :: rest) ip
                 (firstn_exact _ _ _ eq_refl)).
  rewrite len_app in C. pose proof (len_nonneg (char_colon :: rest)).
  specialize (C ltac:(lia) Hi).
  destruct (memcpy 0 (host ++ char_colon :: rest) (len host) ip) as [ip1|];
    [|discriminate C].
  rewrite C. apply parse_ip_port_head;
    [rewrite skipn_past; exact Hn | now apply not_in_app_l in H0].
Qed.

(** "1.2.3.4:53" *)
Lemma parse_ip_host_port_witness :
  parse_ip 64 (-1)
    (c_mem [x31; x2e; x32; x2e; x33; x2e; x34; x3a; x35; x33]) (zeros 10) 0
  = Some (0, [x31; x2e; x32; x2e; x33; x2e; x34; x00; x00; x00], 53).
Proof.
  apply (parse_ip_host_port 64 (-1) _
           [x31; x2e; x32; x2e; x33; x2e; x34] [x35; x33] (zeros 10) 0 53).
  - reflexivity.
  - simpl. intuition discriminate.
  - simpl. intuition discriminate.
  - simpl. intuition discriminate.
  - unfold len. simpl. lia.
  - reflexivity.
Defined.

(** X18. The copy of the host in front of the colon is not limited by
    [MAX_IP_LEN] or by anything else: a host as long as the buffer overruns
    it. *)
Theorem parse_ip_host_unbounded (MAX_IP_LEN PORT_NOT_DEFINED : Z)
    (value host rest : list byte) (ip : buffer) (port : Z) :
  c_str value = host ++ char_colon :: rest ->
  ~ In char_colon host -> ~ In char_colon rest ->
  ~ In char_lbracket (c_str value) ->
  len ip <= len host ->
  parse_ip MAX_IP_LEN PORT_NOT_DEFINED value ip port = None.
Proof.
  intros Hs Hh Hr Hb Hi.
  pose proof (c_str_nul_free value) as H0.
  rewrite <- parse_ip_c_str. rewrite Hs in *.
  rewrite parse_ip_one_colon by assumption.
  pose proof (copy_overrun host (host ++ char_colon :: rest) ip Hi) as C.
  destruct (memcpy 0 (host ++ char_colon :: rest) (len host) ip) as [ip1|];
    [|reflexivity].
  now rewrite C.
Qed.

(** "abcd:53" into a buffer of 4 bytes, with [MAX_IP_LEN = 4] *)
Lemma parse_ip_host_unbounded_witness :
  parse_ip 4 (-1) (c_mem [x61; x62; x63; x64; x3a; x35; x33]) (zeros 4) 0
  = None.
Proof.
  apply (parse_ip_host_unbounded 4 (-1) _ [x61; x62; x63; x64] [x35; x33]).
  - reflexivity.
  - simpl. intuition discriminate.
  - simpl. intuition discriminate.
  - simpl. intuition discriminate.
  - unfold len. simpl. lia.
Defined.

(** The branches that hand the whole string to [strncpy]. *)
Lemma parse_ip_strncpy (M P : Z) (s : list byte) (ip : buffer) (port : Z) :
  ~ In x00 s -> ~ In char_lbracket s ->
  count_occ byte_eq_dec s char_colon <> 1%nat ->
  parse_ip M P s ip port
  = (ip1 <- strncpy s M ip ;; parse_ip_port P s None ip1).
Proof.
  intros H0 Hb Hc. unfold parse_ip.
  rewrite (strstr_absent char_lbracket)
    by (rewrite c_str_no_nul by assumption; assumption).
  destruct (strstr s [char_colon]) as [c|] eqn:E; [|reflexivity].
  destruct (strstr_some _ _ _ E) as (a & t & Hs & Hl & Ha).
  rewrite c_str_no_nul in Hs by assumption. subst s c.
  rewrite skipn_past.
  destruct (strstr t [char_colon]) as [c2|] eqn:E2; [reflexivity|].
  exfalso. apply Hc.
  rewrite count_occ_app. cbn [count_occ].
  destruct (byte_eq_dec char_colon char_colon) as [_|N]; [|now elim N].
  apply (count_occ_not_In byte_eq_dec) in Ha. rewrite Ha.
  apply strstr_none in E2.
  rewrite c_str_no_nul in E2
    by (apply not_in_app_r in H0; intro; apply H0; now right).
  apply (count_occ_not_In byte_eq_dec) in E2. rewrite E2. reflexivity.
Qed.

Lemma strncpy_result (s : list byte) (M : Z) (ip : buffer) :
  0 <= M <= len ip ->
  strncpy s M ip
  = Some (firstn (Z.to_nat M) (c_str s ++ zeros (Z.to_nat M))
          ++ skipn (Z.to_nat M) ip).
Proof.
  intro HM. unfold strncpy.
  replace (0 <=? M) with true by (symmetry; apply Z.leb_le; lia).
  assert (L : length (firstn (Z.to_nat M) (c_str s ++ zeros (Z.to_nat M)))
              = Z.to_nat M).
  { rewrite length_firstn, length_app. unfold zeros. rewrite repeat_length.
    lia. }
  rewrite store_prefix by (unfold len in *; rewrite L; lia).
  now rewrite L.
Qed.

Lemma parse_ip_strncpy_result (M P : Z) (value : list byte) (ip : buffer)
    (port : Z) :
  ~ In char_lbracket (c_str value) ->
  count_occ byte_eq_dec (c_str value) char_colon <> 1%nat ->
  0 < M <= len ip ->
  parse_ip M P value ip port
  = Some (if strlen value =? 0 then -1 else 0,
          firstn (Z.to_nat M) (c_str value ++ zeros (Z.to_nat M))
          ++ skipn (Z.to_nat M) ip,
          P).
Proof.
  intros Hb Hc HM.
  pose proof (c_str_nul_free value) as H0.
  rewrite <- parse_ip_c_str.
  rewrite parse_ip_strncpy by assumption.
  rewrite strncpy_result by lia. rewrite c_str_idem.
  unfold parse_ip_port.
  rewrite <- (len_c_str value).
  destruct (Z.to_nat M) as [|m] eqn:EM; [lia|].
  destruct (c_str value) as [|h t].
  - reflexivity.
  - cbn [app firstn nth_error].
    destruct (Byte.eqb h x00) eqn:E.
    + apply Byte.byte_dec_bl in E. subst h. exfalso. apply H0. now left.
    + unfold len. cbn [length].
      replace (Z.of_nat (S (length t)) =? 0) with false
        by (symmetry; apply Z.eqb_neq; lia).
      reflexivity.
Qed.

(** X19. A value without [[] that has no colon, or more than one (a bare host
    name or IPv4 address, a bare IPv6 address), is copied whole by
    [strncpy]: [ip] receives exactly [MAX_IP_LEN] bytes, the string and then
    NULs, the port is [PORT_NOT_DEFINED], and only the empty string gives
    -1. *)
Theorem parse_ip_whole (MAX_IP_LEN PORT_NOT_DEFINED : Z) (value : list byte)
    (ip : buffer) (port : Z) :
  ~ In char_lbracket (c_str value) ->
  count_occ byte_eq_dec (c_str value) char_colon <> 1%nat ->
  0 < MAX_IP_LEN <= len ip ->
  parse_ip MAX_IP_LEN PORT_NOT_DEFINED value ip port
  = Some (if strlen value =? 0 then -1 else 0,
          firstn (Z.to_nat MAX_IP_LEN)
            (c_str value ++ zeros (Z.to_nat MAX_IP_LEN))
          ++ skipn (Z.to_nat MAX_IP_LEN) ip,
          PORT_NOT_DEFINED).
Proof. apply parse_ip_strncpy_result. Qed.

(** "::1" *)
Lemma parse_ip_whole_witness :
  parse_ip 8 (-1) (c_mem [x3a; x3a; x31]) (repeat xff 10) 0
  = Some (0, [x3a; x3a; x31; x00; x00; x00; x00; x00; xff; xff], -1).
Proof.
  apply (parse_ip_whole 8 (-1) (c_mem [x3a; x3a; x31]) (repeat xff 10) 0).
  - simpl. intuition discriminate.
  - simpl. discriminate.
  - unfold len. simpl. lia.
Defined.

(** X20. Copied whole in this way, a string of [MAX_IP_LEN] characters or
    more leaves [ip] without a terminator: the result is 0 and the string
    found in [ip] runs to the end of the [MAX_IP_LEN] bytes at least. *)
Theorem parse_ip_unterminated (MAX_IP_LEN PORT_NOT_DEFINED : Z)
    (value : list byte) (ip : buffer) (port : Z) :
  ~ In char_lbracket (c_str value) ->
  count_occ byte_eq_dec (c_str value) char_colon <> 1%nat ->
  0 < MAX_IP_LEN <= len ip ->
  MAX_IP_LEN <= strlen value ->
  exists ip',
    parse_ip MAX_IP_LEN PORT_NOT_DEFINED value ip port
    = Some (0, ip', PORT_NOT_DEFINED)
    /\ firstn (Z.to_nat MAX_IP_LEN) ip'
       = firstn (Z.to_nat MAX_IP_LEN) (c_str value)
    /\ MAX_IP_LEN <= strlen ip'.
Proof.
  intros Hb Hc HM Hl. eexists.
  rewrite parse_ip_strncpy_result by assumption.
  replace (strlen value =? 0) with false by (symmetry; apply Z.eqb_neq; lia).
  split; [reflexivity|].
  pose proof (len_c_str value) as L. unfold len in L.
  assert (F : firstn (Z.to_nat MAX_IP_LEN)
                (c_str value ++ zeros (Z.to_nat MAX_IP_LEN))
              = firstn (Z.to_nat MAX_IP_LEN) (c_str value)).
  { rewrite firstn_app.
    replace (Z.to_nat MAX_IP_LEN - length (c_str value))%nat with O by lia.
    cbn [firstn]. apply app_nil_r. }
  rewrite F.
  assert (L2 : length (firstn (Z.to_nat MAX_IP_LEN) (c_str value))
               = Z.to_nat MAX_IP_LEN) by (rewrite length_firstn; lia).
  split.
  - now rewrite firstn_exact.
  - rewrite <- (len_c_str (_ ++ _)), c_str_app.
    + rewrite len_app. unfold len at 1. rewrite L2.
      pose proof (len_nonneg (c_str (skipn (Z.to_nat MAX_IP_LEN) ip))). lia.
    + intro Hin. apply (c_str_nul_free value).
      rewrite <- (firstn_skipn (Z.to_nat MAX_IP_LEN) (c_str value)).
      apply in_or_app. now left.
Qed.

(** "abcdef" with [MAX_IP_LEN = 4] *)
Lemma parse_ip_unterminated_witness :
  exists ip',
    parse_ip 4 (-1) (c_mem [x61; x62; x63; x64; x65; x66]) (zeros 4) 0
    = Some (0, ip', -1)
    /\ firstn 4 ip' = [x61; x62; x63; x64]
    /\ 4 <= strlen ip'.
Proof.
  apply (parse_ip_unterminated 4 (-1)
           (c_mem [x61; x62; x63; x64; x65; x66]) (zeros 4) 0).
  - simpl. intuition discriminate.
  - simpl. discriminate.
  - unfold len. simpl. lia.
  - simpl. lia.
Defined.

(** ** The bracket form *)

Lemma strstr_present (c : byte) (s : list byte) :
  In c (c_str s) -> exists i, strstr s [c] = Some i.
Proof.
  intro H. destruct (strstr s [c]) as [i|] eqn:E; [now exists i|].
  apply strstr_none in E. contradiction.
Qed.

Lemma parse_ip_bracket_branch (M P : Z) (first : byte)
    (host rest : list byte) (ip : buffer) (port : Z) :
  let s := first :: host ++ char_rbracket :: rest in
  ~ In x00 s -> ~ In char_rbracket (first :: host) ->
  In char_lbracket s ->
  parse_ip M P s ip port
  = (ip1 <- memcpy 0 (skipn 1 s) (len host) ip ;;
     ip2 <- store (len host) [x00] ip1 ;;
     parse_ip_port P s
       match strstr (char_rbracket :: rest) [char_colon] with
       | Some c => Some (S (length host) + c + 1)%nat
       | None => None
       end ip2).
Proof.
  intros s H0 Hr Hb. unfold parse_ip.
  destruct (strstr_present char_lbracket s) as (i & ->);
    [now rewrite c_str_no_nul|].
  unfold s at 1. change (first :: host ++ char_rbracket :: rest)
    with ((first :: host) ++ char_rbracket :: rest).
  rewrite (strstr_first char_rbracket (first :: host) rest);
    [|assumption | | discriminate].
  2:{ intro Hin. apply H0. unfold s.
      change (first :: host ++ char_rbracket :: rest)
        with ((first :: host) ++ char_rbracket :: rest).
      apply in_or_app. now left. }
  replace (Z.of_nat (length (first :: host)) - 1) with (len host)
    by (unfold len; cbn [length]; lia).
  replace (skipn (length (first :: host)) s) with (char_rbracket :: rest).
  2:{ unfold s. change (first :: host ++ char_rbracket :: rest)
        with ((first :: host) ++ char_rbracket :: rest).
      now rewrite skipn_exact. }
  reflexivity.
Qed.

(** X21. With a [[] anywhere in the value, [ip] receives what stands between
    the first character, whatever it is, and the first []]; the port is read
    behind the first colon that follows the []], and what stands between the
    two is ignored. *)
Theorem parse_ip_bracket (MAX_IP_LEN PORT_NOT_DEFINED : Z)
    (value : list byte) (first : byte) (host rest : list byte)
    (ip : buffer) (port n : Z) :
  c_str value = first :: host ++ char_rbracket :: rest ->
  ~ In char_rbracket (first :: host) ->
  In char_lbracket (c_str value) ->
  len host < len ip ->
  (exists mid digits,
      rest = mid ++ char_colon :: digits /\ ~ In char_colon mid
      /\ atoi digits = Some n)
  \/ (~ In char_colon rest /\ n = PORT_NOT_DEFINED) ->
  parse_ip MAX_IP_LEN PORT_NOT_DEFINED value ip port
  = Some (if len host =? 0 then -1 else 0,
          host ++ x00 :: skipn (length host + 1) ip, n).
Proof.
  intros Hs Hr Hb Hi Hp.
  pose proof (c_str_nul_free value) as H0.
  rewrite <- parse_ip_c_str. rewrite Hs in *.
  rewrite parse_ip_bracket_branch by assumption.
  cbn [skipn].
  assert (C := copy_terminated host (host ++ char_rbracket :: rest) ip
                 (firstn_exact _ _ _ eq_refl)).
  rewrite len_app in C. pose proof (len_nonneg (char_rbracket :: rest)).
  specialize (C ltac:(lia) Hi).
  destruct (memcpy 0 (host ++ char_rbracket :: rest) (len host) ip)
    as [ip1|]; [|discriminate C].
  rewrite C.
  assert (Hh0 : ~ In x00 host).
  { intro Hin. apply H0. right. apply in_or_app. now left. }
  apply parse_ip_port_head; [|exact Hh0].
  destruct Hp as [(mid & digits & -> & Hm & Hn) | (Hnc & ->)].
  - change (char_rbracket :: mid ++ char_colon :: digits)
      with ((char_rbracket :: mid) ++ char_colon :: digits).
    rewrite (strstr_first char_colon (char_rbracket :: mid) digits).
    + replace (S (length host) + length (char_rbracket :: mid) + 1)%nat
        with (length (first :: host ++ char_rbracket :: mid) + 1)%nat
        by (cbn [length]; rewrite length_app; cbn [length]; lia).
      replace (first :: host ++ (char_rbracket :: mid) ++ char_colon :: digits)
        with ((first :: host ++ char_rbracket :: mid) ++ char_colon :: digits)
        by (cbn [app]; now rewrite <- app_assoc).
      now rewrite skipn_past.
    + intros [E|Hin]; [discriminate E | contradiction].
    + intros [E|Hin]; [discriminate E|].
      apply H0. right. apply in_or_app. right. right.
      apply in_or_app. now left.
    + discriminate.
  - rewrite (strstr_absent char_colon); [reflexivity|].
    intro Hin. apply in_c_str in Hin.
    destruct Hin as [E|Hin]; [discriminate E | contradiction].
Qed.

(** "[::1]:853" *)
Lemma parse_ip_bracket_witness :
  parse_ip 64 (-1)
    (c_mem [x5b; x3a; x3a; x31; x5d; x3a; x38; x35; x33]) (zeros 6) 0
  = Some (0, [x3a; x3a; x31; x00; x00; x00], 853).
Proof.
  apply (parse_ip_bracket 64 (-1) _ x5b [x3a; x3a; x31] [x3a; x38; x35; x33]
           (zeros 6) 0 853).
  - reflexivity.
  - simpl. intuition discriminate.
  - simpl. tauto.
  - unfold len. simpl. lia.
  - left. exists [], [x38; x35; x33]. repeat split. simpl. tauto.
Defined.

(** X22. A [[] without a []] behind or before it is refused with -1, and
    neither [ip] nor [*port] is written. *)
Theorem parse_ip_bracket_missing (MAX_IP_LEN PORT_NOT_DEFINED : Z)
    (value : list byte) (ip : buffer) (port : Z) :
  In char_lbracket (c_str value) -> ~ In char_rbracket (c_str value) ->
  parse_ip MAX_IP_LEN PORT_NOT_DEFINED value ip port = Some (-1, ip, port).
Proof.
  intros Hl Hr. unfold parse_ip.
  destruct (strstr_present _ _ Hl) as (i & ->).
  now rewrite (strstr_absent char_rbracket).
Qed.

(** "[::1" *)
Lemma parse_ip_bracket_missing_witness :
  parse_ip 64 (-1) (c_mem [x5b; x3a; x3a; x31]) (zeros 6) 7
  = Some (-1, zeros 6, 7).
Proof.
  apply (parse_ip_bracket_missing 64 (-1)).
  - simpl. tauto.
  - simpl. intuition discriminate.
Defined.

(** X23. A value that starts with []] and has a [[] further on makes the
    length given to [memcpy] -1. *)
Theorem parse_ip_bracket_first (MAX_IP_LEN PORT_NOT_DEFINED : Z)
    (value rest : list byte) (ip : buffer) (port : Z) :
  c_str value = char_rbracket :: rest -> In char_lbracket rest ->
  parse_ip MAX_IP_LEN PORT_NOT_DEFINED value ip port = None.
Proof.
  intros Hs Hl. rewrite <- parse_ip_c_str, Hs. unfold parse_ip.
  pose proof (c_str_nul_free value) as H0. rewrite Hs in H0.
  destruct (strstr_present char_lbracket (char_rbracket :: rest)) as (i & ->);
    [rewrite c_str_no_nul by assumption; now right|].
  assert (F : strstr (char_rbracket :: rest) [char_rbracket] = Some O)
    by (apply (strstr_first char_rbracket [] rest);
        [simpl; tauto | simpl; tauto | discriminate]).
  rewrite F. reflexivity.
Qed.

(** "]:[" *)
Lemma parse_ip_bracket_first_witness :
  parse_ip 64 (-1) (c_mem [x5d; x3a; x5b]) (zeros 64) 0 = None.
Proof.
  apply (parse_ip_bracket_first 64 (-1) _ [x3a; x5b]).
  - reflexivity.
  - simpl. tauto.
Defined.

(* ================================================================= *)
(** * [SSL_base64_decode] *)

(** The loop walks back over the [=] at the end of the text and stops at the
    character in front of them. *)
Lemma strip_padding_stops (body : list byte) (c : byte) (pad : nat)
    (tail : list byte) (outlen : Z) :
  c <> char_equals ->
  strip_padding (length body + 1 + pad)
    (body ++ c :: repeat char_equals pad ++ tail) outlen
  = Some (outlen - Z.of_nat pad).
Proof.
  intro Hc. revert tail outlen.
  induction pad as [|pad IH]; intros tail outlen.
  - rewrite Nat.add_0_r, Nat.add_1_r. cbn [strip_padding repeat app].
    rewrite nth_error_app2, Nat.sub_diag by lia. cbn [nth_error].
    destruct (Byte.eqb c char_equals) eqn:E;
      [apply Byte.byte_dec_bl in E; contradiction|].
    now rewrite Z.sub_0_r.
  - replace (length body + 1 + S pad)%nat with (S (length body + 1 + pad))
      by lia.
    cbn [strip_padding].
    replace (repeat char_equals (S pad) ++ tail)
      with (repeat char_equals pad ++ char_equals :: tail)
      by (cbn [repeat]; rewrite repeat_cons, <- app_assoc; reflexivity).
    replace (nth_error (body ++ c :: repeat char_equals pad
                        ++ char_equals :: tail) (length body + 1 + pad))
      with (Some char_equals).
    + change (Byte.eqb char_equals char_equals) with true. cbv iota.
      rewrite IH. f_equal. lia.
    + replace (body ++ c :: repeat char_equals pad ++ char_equals :: tail)
        with ((body ++ c :: repeat char_equals pad) ++ char_equals :: tail)
        by (rewrite <- app_assoc; reflexivity).
      rewrite nth_error_app2
        by (rewrite length_app; cbn [length]; rewrite repeat_length; lia).
      replace (length body + 1 + pad
               - length (body ++ c :: repeat char_equals pad))%nat with O
        by (rewrite length_app; cbn [length]; rewrite repeat_length; lia).
      reflexivity.
Qed.

(** On a text of [=] only, the loop runs off its start. *)
Lemma strip_padding_runs_off (pad : nat) (tail : list byte) (outlen : Z) :
  strip_padding pad (repeat char_equals pad ++ tail) outlen = None.
Proof.
  revert tail outlen. induction pad as [|pad IH]; intros tail outlen;
    [reflexivity|].
  cbn [strip_padding].
  replace (repeat char_equals (S pad) ++ tail)
    with (repeat char_equals pad ++ char_equals :: tail)
    by (cbn [repeat]; rewrite repeat_cons, <- app_assoc; reflexivity).
  rewrite nth_error_app2 by (rewrite repeat_length; lia).
  rewrite repeat_length, Nat.sub_diag. cbn [nth_error].
  change (Byte.eqb char_equals char_equals) with true. cbv iota.
  apply IH.
Qed.

Lemma c_str_tail (s : list byte) :
  exists tail, s = c_str s ++ tail.
Proof.
  exists (skipn (Z.to_nat (strlen s)) s). unfold c_str.
  now rewrite firstn_skipn.
Qed.

(** X24. The value returned is what [EVP_DecodeBlock] returned less the number
    of [=] at the end of the text; [out] holds what the decoder wrote. *)
Theorem base64_decode_strips_padding
    (EVP_DecodeBlock : list byte -> Z -> Z * list byte)
    (input body : list byte) (c : byte) (pad : nat)
    (out written : list byte) (outlen : Z) :
  c_str input = body ++ c :: repeat char_equals pad ->
  c <> char_equals ->
  EVP_DecodeBlock (c_str input) (strlen input) = (outlen, written) ->
  0 <= outlen -> len written <= len out ->
  SSL_base64_decode EVP_DecodeBlock input out
  = Some (outlen - Z.of_nat pad, written ++ skipn (length written) out).
Proof.
  intros Hs Hc Hd Ho Hw. unfold SSL_base64_decode.
  assert (Hl : strlen input = Z.of_nat (length body + 1 + pad)).
  { rewrite <- len_c_str, Hs. unfold len.
    rewrite length_app. cbn [length]. rewrite repeat_length. lia. }
  replace (strlen input =? 0) with false by (symmetry; apply Z.eqb_neq; lia).
  rewrite Hd, store_prefix by assumption.
  replace (outlen <? 0) with false by (symmetry; apply Z.ltb_ge; lia).
  rewrite Hl, Nat2Z.id.
  destruct (c_str_tail input) as (tail & Ht). rewrite Hs in Ht.
  rewrite Ht, <- app_assoc. cbn [app].
  rewrite strip_padding_stops by assumption. reflexivity.
Qed.

(** "QQ==" with a decoder that reports 3 bytes *)
Lemma base64_decode_strips_padding_witness :
  SSL_base64_decode (fun _ _ => (3, [x41; x00; x00]))
    (c_mem [x51; x51; x3d; x3d]) (zeros 4)
  = Some (1, [x41; x00; x00; x00]).
Proof.
  apply (base64_decode_strips_padding (fun _ _ => (3, [x41; x00; x00]))
           (c_mem [x51; x51; x3d; x3d]) [x51] x51 2 (zeros 4)
           [x41; x00; x00] 3).
  - reflexivity.
  - discriminate.
  - reflexivity.
  - lia.
  - unfold len. simpl. lia.
Defined.

(** X25. For a text made of [=] only that the decoder accepts, the loop does
    not stop at the start of the text: the index wraps and the next byte is
    read outside the string. *)
Theorem base64_decode_all_padding
    (EVP_DecodeBlock : list byte -> Z -> Z * list byte)
    (input : list byte) (pad : nat) (out : list byte) :
  c_str input = repeat char_equals pad -> (0 < pad)%nat ->
  0 <= fst (EVP_DecodeBlock (c_str input) (strlen input)) ->
  SSL_base64_decode EVP_DecodeBlock input out = None.
Proof.
  intros Hs Hp Hd. unfold SSL_base64_decode.
  assert (Hl : strlen input = Z.of_nat pad).
  { rewrite <- len_c_str, Hs. unfold len. now rewrite repeat_length. }
  replace (strlen input =? 0) with false by (symmetry; apply Z.eqb_neq; lia).
  destruct (EVP_DecodeBlock (c_str input) (strlen input))
    as [outlen written]. cbn [fst] in Hd.
  destruct (store 0 written out) as [out'|]; [|reflexivity].
  replace (outlen <? 0) with false by (symmetry; apply Z.ltb_ge; lia).
  rewrite Hl, Nat2Z.id.
  destruct (c_str_tail input) as (tail & Ht). rewrite Hs in Ht.
  rewrite Ht, strip_padding_runs_off. reflexivity.
Qed.

(** "====" with a decoder that reports 3 bytes *)
Lemma base64_decode_all_padding_witness :
  SSL_base64_decode (fun _ _ => (3, [x00; x00; x00]))
    (c_mem [x3d; x3d; x3d; x3d]) (zeros 4) = None.
Proof.
  apply (base64_decode_all_padding (fun _ _ => (3, [x00; x00; x00]))
           (c_mem [x3d; x3d; x3d; x3d]) 4 (zeros 4)).
  - reflexivity.
  - lia.
  - simpl. lia.
Defined.

(* ================================================================= *)
(** * [set_fd_nonblock] *)

(** X26. When [F_GETFL] fails nothing is set; otherwise the flags handed to
    [F_SETFL] are those read with the one bit of [O_NONBLOCK] set or
    cleared as asked for, and 0 is returned unless [F_SETFL] fails. *)
Theorem set_fd_nonblock_one_bit (O_NONBLOCK b : Z) (k : fcntl_env)
    (fd nonblock : Z) :
  0 <= b -> O_NONBLOCK = 2 ^ b ->
  (getfl_reply k fd = -1 ->
     set_fd_nonblock O_NONBLOCK k fd nonblock = (-1, [F_GETFL fd]))
  /\ (getfl_reply k fd <> -1 ->
      exists flags,
        set_fd_nonblock O_NONBLOCK k fd nonblock
        = (if setfl_reply k fd flags =? -1 then -1 else 0,
           [F_GETFL fd; F_SETFL fd flags])
        /\ forall i, 0 <= i ->
             Z.testbit flags i
             = if i =? b then negb (nonblock =? 0)
               else Z.testbit (getfl_reply k fd) i).
Proof.
  intros Hb HO. unfold set_fd_nonblock. split.
  - intros ->. reflexivity.
  - intro Hg.
    replace (getfl_reply k fd =? -1) with false
      by (symmetry; now apply Z.eqb_neq).
    exists (if negb (nonblock =? 0)
            then Z.lor (getfl_reply k fd) O_NONBLOCK
            else Z.land (getfl_reply k fd) (Z.lnot O_NONBLOCK)).
    split.
    + cbv zeta. destruct (setfl_reply k fd _ =? -1); reflexivity.
    + intros i Hi. subst O_NONBLOCK.
      destruct (negb (nonblock =? 0)).
      * rewrite Z.lor_spec, Z.pow2_bits_eqb by assumption.
        rewrite (Z.eqb_sym b i).
        destruct (i =? b); [apply orb_true_r | apply orb_false_r].
      * rewrite Z.land_spec, Z.lnot_spec, Z.pow2_bits_eqb by assumption.
        rewrite (Z.eqb_sym b i).
        destruct (i =? b); [apply andb_false_r | apply andb_true_r].
Qed.

(** [O_NONBLOCK = 04000], flags [O_RDWR | O_APPEND] *)
Lemma set_fd_nonblock_one_bit_witness :
  exists flags,
    set_fd_nonblock 2048 (FcntlEnv (fun _ => 1026) (fun _ _ => 0)) 3 1
    = (0, [F_GETFL 3; F_SETFL 3 flags])
    /\ Z.testbit flags 11 = true
    /\ Z.testbit flags 10 = Z.testbit 1026 10.
Proof.
  destruct (set_fd_nonblock_one_bit 2048 11
              (FcntlEnv (fun _ => 1026) (fun _ _ => 0)) 3 1
              ltac:(lia) eq_refl) as (_ & H).
  destruct (H ltac:(discriminate)) as (flags & E & B).
  exists flags. split; [exact E|]. split.
  - exact (B 11 ltac:(lia)).
  - exact (B 10 ltac:(lia)).
Defined.

(* ================================================================= *)
(** * [getaddr_by_host] *)

(** X27. No more than [*addr_len] bytes of the first result are copied to
    [addr], and [*addr_len] is set to the number copied; a longer address is
    cut short with 0 returned all the same. *)
Theorem getaddr_by_host_bounded (getaddrinfo : list byte -> Z * list byte)
    (host : list byte) (addr ai_addr : list byte) (addr_len : Z) :
  getaddrinfo (c_str host) = (0, ai_addr) ->
  0 <= addr_len <= len addr ->
  exists addr',
    getaddr_by_host getaddrinfo host addr addr_len
    = Some (0, addr', Z.min addr_len (len ai_addr))
    /\ addr' = firstn (Z.to_nat (Z.min addr_len (len ai_addr))) ai_addr
               ++ skipn (Z.to_nat (Z.min addr_len (len ai_addr))) addr
    /\ len addr' = len addr.
Proof.
  intros Hg Hl. unfold getaddr_by_host. rewrite Hg. cbn [Z.eqb negb].
  pose proof (len_nonneg ai_addr) as Ha.
  set (n := Z.min addr_len (len ai_addr)).
  replace (if addr_len <? len ai_addr then addr_len else len ai_addr) with n
    by (unfold n; destruct (Z.ltb_spec addr_len (len ai_addr)); lia).
  assert (Hn : 0 <= n <= len ai_addr /\ n <= len addr) by (unfold n; lia).
  unfold memcpy.
  replace ((0 <=? n) && (n <=? len ai_addr)) with true
    by (symmetry; apply andb_true_intro; split; apply Z.leb_le; lia).
  assert (L : length (firstn (Z.to_nat n) ai_addr) = Z.to_nat n)
    by (rewrite length_firstn; unfold len in Hn; lia).
  rewrite store_prefix by (unfold len in *; rewrite L; lia).
  rewrite L. eexists. split; [reflexivity|]. split; [reflexivity|].
  unfold len in *. rewrite length_app, L, length_skipn. lia.
Qed.

(** A 28-byte [sockaddr_in6] offered to a caller with room for 16 bytes *)
Lemma getaddr_by_host_bounded_witness :
  exists addr',
    getaddr_by_host (fun _ => (0, repeat x01 28)) [x61] (zeros 16) 16
    = Some (0, addr', 16)
    /\ addr' = repeat x01 16
    /\ len addr' = 16.
Proof.
  apply (getaddr_by_host_bounded (fun _ => (0, repeat x01 28)) [x61]
           (zeros 16) (repeat x01 28) 16).
  - reflexivity.
  - unfold len. simpl. lia.
Defined.
